(** * Cost analytics over conversation logs: a shallow embedding

    The repository holds two scripts with the same pipeline
    (parse one log, scan the corpus, aggregate per day, rank, summarise):

    - the cost-field script (source lines 1-610) reads a pre-computed
      [costUSD] from each assistant record;
    - the pricing script (source lines 611-1745) computes the cost of each
      assistant record from its token usage and the [CLAUDE_PRICING] table.

    Conventions of the embedding.
    - A JavaScript number is a binary64 float ([PrimFloat.float]); every
      arithmetic operation below is the IEEE operation the engine performs.
      Counters that only count ([messageCount], [conversationCount]) are
      [nat]; time values of valid dates are integral milliseconds, [Z],
      and the time value of an invalid date is [NaN].
    - A string is a [string]; its characters stand for UTF-16 code units.
    - A log line is what [JSON.parse] makes of it: [None] when it throws,
      otherwise the fields the scripts read. A field on which the scripts
      call a string method ([summary], the titles of [metadata], [text])
      holds a string or a truthy value of another type, on which the call
      throws a [TypeError]; a timestamp holds the [Date] object made of it,
      valid or invalid. The other fields are absent or of the type the log
      format gives them.
    - A call that can throw returns an [option]: [None] is the exception.
    - An object used as a map is an association list in insertion order;
      a lookup by a key that can be any string ([JS.get]) also sees the
      names inherited from [Object.prototype].
    - The clock, the time zone and the collation of the host are
      parameters.
    - Reading the directory tree, rendering the HTML and formatting the
      console lines are left out: the scanner takes the files as lists of
      lines, the report and the summary are the values computed before
      they are formatted.

    The file has the embedding first ([JS] to [UsagePricing]), then the
    statements of the specification ([Spec]) and concrete inputs
    ([Fixtures]), then the proofs. *)

From Stdlib Require Import ZArith List String Ascii Bool Floats Lia.
From Stdlib Require DecimalString Uint63.
From Stdlib Require Import Sorting.Permutation Sorting.Sorted.
Import ListNotations.
Set Warnings "-inexact-float".

(** ** JavaScript values and operators used by the scripts *)
Module JS.

Local Open Scope float_scope.

(** Truthiness of a number: [0], [-0] and [NaN] are falsy. *)
Definition truthy_number (x : float) : bool :=
  negb ((x =? 0) || PrimFloat.is_nan x).

(** Truthiness of a string: only the empty string is falsy. *)
Definition truthy_string (s : string) : bool :=
  negb (String.eqb s EmptyString).

(** [x || 0] where [x] is a possibly missing number. *)
Definition number_or_zero (x : option float) : float :=
  match x with
  | Some v => if truthy_number v then v else 0
  | None => 0
  end.

(** [s] when it is a present, truthy string. *)
Definition truthy_field (s : option string) : option string :=
  match s with
  | Some v => if truthy_string v then Some v else None
  | None => None
  end.

(** [a || b] on strings. *)
Definition string_or (a b : string) : string :=
  if truthy_string a then a else b.

(** A value read where a script goes on to call a string method: a string,
    or a truthy value of another type (a number, [true], an array, an
    object), which has no such method. A falsy value that is not a string
    ([null], [false], [0]) reads as an absent field. *)
Inductive text : Type :=
| str (s : string)
| other.

Definition truthy_text (v : text) : bool :=
  match v with
  | str s => truthy_string s
  | other => true
  end.

(** [v] when it is a present, truthy value. *)
Definition truthy_value (v : option text) : option text :=
  match v with
  | Some t => if truthy_text t then Some t else None
  | None => None
  end.

(** [a || b] on such values. *)
Definition text_or (a b : text) : text :=
  if truthy_text a then a else b.

(** [s.substring(0, n)]. *)
Definition substring0 (n : nat) (s : string) : string := String.substring 0 n s.

(** [s.replace(/\n/g, ' ')]. *)
Fixpoint replace_newlines (s : string) : string :=
  match s with
  | EmptyString => EmptyString
  | String c r =>
      String (if Ascii.eqb c "010"%char then " "%char else c) (replace_newlines r)
  end.

(** [s] without its first [n] characters. *)
Fixpoint drop (n : nat) (s : string) : string :=
  match n, s with
  | O, _ => s
  | S n', String _ r => drop n' r
  | S _, EmptyString => EmptyString
  end.

(** [s.replace(/pattern/, '')] for a pattern of literal characters, not
    empty: [s] without the first occurrence of the pattern. *)
Fixpoint remove_first (pattern s : string) : string :=
  if String.prefix pattern s then drop (String.length pattern) s
  else match s with
       | EmptyString => EmptyString
       | String c r => String c (remove_first pattern r)
       end.

(** The names every plain object inherits from [Object.prototype]. Reading
    one of them from an object that has no own property of that name yields
    the inherited member (a function, or for [__proto__] the prototype
    object), which is truthy and has none of the fields of a table entry. *)
Definition Object_prototype : list string :=
  [ "constructor"; "__defineGetter__"; "__defineSetter__"; "hasOwnProperty";
    "__lookupGetter__"; "__lookupSetter__"; "isPrototypeOf";
    "propertyIsEnumerable"; "toString"; "valueOf"; "__proto__";
    "toLocaleString" ]%string.

(** The result of [obj[key]] on an object literal whose own values are
    of type [A]. *)
Inductive property (A : Type) : Type :=
| own (a : A)
| inherited
| undefined.
Arguments own {A} a.
Arguments inherited {A}.
Arguments undefined {A}.

Fixpoint assoc {A} (k : string) (obj : list (string * A)) : option A :=
  match obj with
  | [] => None
  | (k', v) :: rest => if String.eqb k k' then Some v else assoc k rest
  end.

(** [obj[k] = v]: an existing key keeps its place, a new one goes last. *)
Fixpoint set {A} (k : string) (v : A) (obj : list (string * A)) : list (string * A) :=
  match obj with
  | [] => [(k, v)]
  | (k', v') :: rest =>
      if String.eqb k k' then (k, v) :: rest else (k', v') :: set k v rest
  end.

(** [Object.values(obj)]. *)
Definition values {A} (obj : list (string * A)) : list A := map snd obj.

Definition get {A} (obj : list (string * A)) (k : string) : property A :=
  match assoc k obj with
  | Some v => own v
  | None => if existsb (String.eqb k) Object_prototype then inherited else undefined
  end.

(** A number field read from the result of a lookup and used as an operand:
    a field of an inherited member is [undefined], which converts to [NaN]. *)
Definition number_field {A} (f : A -> float) (p : property A) : float :=
  match p with
  | own a => f a
  | _ => nan
  end.

(** [Array.prototype.sort(comparefn)]. The language guarantees a stable
    sort, and for a consistent comparator the sorted array is unique, so any
    stable algorithm computes it; insertion is used here. An element stays
    before a later one unless [comparefn] of the two is positive (a [NaN]
    result counts as zero). *)
Section Sort.
Context {A : Type}.
Variable comparefn : A -> A -> float.

Fixpoint insert (x : A) (l : list A) : list A :=
  match l with
  | [] => [x]
  | y :: r => if 0 <? comparefn x y then y :: insert x r else x :: y :: r
  end.

Definition sort (l : list A) : list A := fold_right insert [] l.
End Sort.

(** The number a counter or a length is when it enters float arithmetic. *)
Definition number_of_nat (n : nat) : float :=
  PrimFloat.of_uint63 (Uint63.of_Z (Z.of_nat n)).

(** A difference of time values as a number. *)
Definition number_of_Z (z : Z) : float :=
  if (z <? 0)%Z then - PrimFloat.of_uint63 (Uint63.of_Z (- z))
  else PrimFloat.of_uint63 (Uint63.of_Z z).

(** [array.forEach(callback)] with a callback that updates [s] and may
    throw: the first exception ends the loop and is the outcome. *)
Definition forEach {A S : Type} (callback : S -> A -> option S) (array : list A) (s : S)
  : option S :=
  fold_left (fun acc a => match acc with
                          | Some s => callback s a
                          | None => None
                          end) array (Some s).

End JS.

(** ** Pricing table and per-turn cost (pricing script, lines 618-728) *)
Module Pricing.

Local Open Scope float_scope.
Local Open Scope string_scope.

Record Entry : Type := {
  input : float;
  output : float;
  cache_write : float;
  cache_read : float
}.

Definition opus : Entry :=
  {| input := 15.0; output := 75.0; cache_write := 18.75; cache_read := 1.5 |}.
Definition sonnet : Entry :=
  {| input := 3.0; output := 15.0; cache_write := 3.75; cache_read := 0.3 |}.
Definition haiku35 : Entry :=
  {| input := 0.8; output := 4.0; cache_write := 1.0; cache_read := 0.08 |}.
Definition haiku3 : Entry :=
  {| input := 0.25; output := 1.25; cache_write := 0.3; cache_read := 0.03 |}.

Definition CLAUDE_PRICING : list (string * Entry) :=
  [ ("claude-opus-4-20250514", opus);
    ("claude-sonnet-4-20250514", sonnet);
    ("claude-3-7-sonnet-20250219", sonnet);
    ("claude-3-7-sonnet-latest", sonnet);
    ("claude-3-5-sonnet-20241022", sonnet);
    ("claude-3-5-sonnet-20240620", sonnet);
    ("claude-3-5-sonnet-latest", sonnet);
    ("claude-3-5-haiku-20241022", haiku35);
    ("claude-3-5-haiku-latest", haiku35);
    ("claude-3-opus-20240229", opus);
    ("claude-3-opus-latest", opus);
    ("claude-3-sonnet-20240229", sonnet);
    ("claude-3-haiku-20240307", haiku3);
    ("default", sonnet) ].

(** The four token counts of [message.usage]; a field may be missing. *)
Record Usage : Type := {
  input_tokens : option float;
  output_tokens : option float;
  cache_creation_input_tokens : option float;
  cache_read_input_tokens : option float
}.

(** [CLAUDE_PRICING[model] || CLAUDE_PRICING['default']]: any defined
    result of the first lookup is an object or a function, hence truthy. *)
Definition pricing_of (model : string) : JS.property Entry :=
  match JS.get CLAUDE_PRICING model with
  | JS.undefined => JS.get CLAUDE_PRICING "default"
  | p => p
  end.

Definition calculateCost (usage : option Usage) (model : string) : float :=
  match usage with
  | None => 0
  | Some usage =>
      let pricing := pricing_of model in
      let inputCost :=
        (JS.number_or_zero (input_tokens usage) * JS.number_field input pricing) / 1000000 in
      let outputCost :=
        (JS.number_or_zero (output_tokens usage) * JS.number_field output pricing) / 1000000 in
      let cacheWriteCost :=
        (JS.number_or_zero (cache_creation_input_tokens usage)
         * JS.number_field cache_write pricing) / 1000000 in
      let cacheReadCost :=
        (JS.number_or_zero (cache_read_input_tokens usage)
         * JS.number_field cache_read pricing) / 1000000 in
      inputCost + outputCost + cacheWriteCost + cacheReadCost
  end.

(** The cost the formula of the specification gives for an entry: each
    count times its price per million, divided by a million, the four
    quotients added in the order input, output, cache write, cache read. *)
Definition cost_formula (i o cw cr : float) (p : Entry) : float :=
  i * input p / 1000000 + o * output p / 1000000
  + cw * cache_write p / 1000000 + cr * cache_read p / 1000000.

(** A usage record with every missing count written as zero. *)
Definition with_zeros (u : Usage) : Usage :=
  {| input_tokens := Some (JS.number_or_zero (input_tokens u));
     output_tokens := Some (JS.number_or_zero (output_tokens u));
     cache_creation_input_tokens := Some (JS.number_or_zero (cache_creation_input_tokens u));
     cache_read_input_tokens := Some (JS.number_or_zero (cache_read_input_tokens u)) |}.

Definition million_input : Usage :=
  {| input_tokens := Some 1000000; output_tokens := None;
     cache_creation_input_tokens := None; cache_read_input_tokens := None |}.

End Pricing.

(** ** Dates: the part of the [Date] object the scripts use *)
Module Date.

Local Open Scope Z_scope.

(** A [Date] object: its time value is an integral number of milliseconds
    (a valid date) or [NaN] (an invalid date). *)
Inductive object : Type :=
| valid (t : Z)
| invalid.

(** [a < b] on dates: the comparison of the time values, false when one
    of them is [NaN]. *)
Definition ltb (a b : object) : bool :=
  match a, b with
  | valid x, valid y => (x <? y)%Z
  | _, _ => false
  end.

(** [a - b] on dates: the difference of the time values. *)
Definition minus (a b : object) : float :=
  match a, b with
  | valid x, valid y => JS.number_of_Z (x - y)
  | _, _ => nan
  end.

Definition msPerDay : Z := 86400000.
Definition Day (t : Z) : Z := t / msPerDay.
Definition TimeWithinDay (t : Z) : Z := t mod msPerDay.

(** Year, month (1-12) and day of month of a day number counted from
    1970-01-01, in the proleptic Gregorian calendar. *)
Definition civil_of_day (z : Z) : Z * Z * Z :=
  let z := z + 719468 in
  let era := z / 146097 in
  let doe := z - era * 146097 in
  let yoe := (doe - doe / 1460 + doe / 36524 - doe / 146096) / 365 in
  let doy := doe - (365 * yoe + yoe / 4 - yoe / 100) in
  let mp := (5 * doy + 2) / 153 in
  let d := doy - (153 * mp + 2) / 5 + 1 in
  let m := if mp <? 10 then mp + 3 else mp - 9 in
  (yoe + era * 400 + (if m <=? 2 then 1 else 0), m, d).

(** The day number of a year, month (1-12) and day of month; the day of
    month may lie outside the month, as [MakeDay] allows. *)
Definition day_of_civil (y m d : Z) : Z :=
  let y := if m <=? 2 then y - 1 else y in
  let era := y / 400 in
  let yoe := y - era * 400 in
  let mp := if 2 <? m then m - 3 else m + 9 in
  let doy := (153 * mp + 2) / 5 + d - 1 in
  let doe := yoe * 365 + yoe / 4 - yoe / 100 + doy in
  era * 146097 + doe - 719468.

Definition YearFromTime (t : Z) : Z := fst (fst (civil_of_day (Day t))).
Definition MonthFromTime (t : Z) : Z := snd (fst (civil_of_day (Day t))) - 1.
Definition DateFromTime (t : Z) : Z := snd (civil_of_day (Day t)).

Definition MakeDay (year month date : Z) : Z :=
  let ym := year + month / 12 in
  let mn := month mod 12 in
  day_of_civil ym (mn + 1) 1 + date - 1.

Definition MakeDate (day time : Z) : Z := day * msPerDay + time.

Definition decimal (n : Z) : string := DecimalString.NilZero.string_of_uint (N.to_uint (Z.to_N n)).

Fixpoint zeros (k : nat) : string :=
  match k with
  | O => EmptyString
  | S k' => String "0"%char (zeros k')
  end.

Definition pad (width : nat) (n : Z) : string :=
  let s := decimal n in
  (zeros (width - String.length s) ++ s)%string.

(** The year of [toISOString]: four digits, or a sign and six digits outside
    0..9999. *)
Definition iso_year (y : Z) : string :=
  if (0 <=? y) && (y <=? 9999) then pad 4 y
  else String.append (if y <? 0 then "-"%string else "+"%string) (pad 6 (Z.abs y)).

(** [date.toISOString().split('T')[0]] for the time value [t]: the UTC
    calendar date. *)
Definition toISODate (t : Z) : string :=
  let '(y, m, d) := civil_of_day (Day t) in
  (iso_year y ++ "-" ++ pad 2 m ++ "-" ++ pad 2 d)%string.

(** [date.toISOString().split('T')[0]]: [toISOString] throws a
    [RangeError] on an invalid date. *)
Definition toISODate_of (d : object) : option string :=
  match d with
  | valid t => Some (toISODate t)
  | invalid => None
  end.

(** Local time. [LocalTZA t true] is the offset of local time from UTC at
    the UTC time [t]; [LocalTZA t false] the offset at the local time [t]. *)
Section LocalTime.
Variable LocalTZA : Z -> bool -> Z.

Definition LocalTime (t : Z) : Z := t + LocalTZA t true.
Definition UTC (t : Z) : Z := t - LocalTZA t false.

(** [date.getDate()]: the day of the month in local time. *)
Definition getDate (t : Z) : Z := DateFromTime (LocalTime t).

(** [date.setDate(dt)]: the new time value of the date. *)
Definition setDate (t dt : Z) : Z :=
  let tl := LocalTime t in
  UTC (MakeDate (MakeDay (YearFromTime tl) (MonthFromTime tl) dt) (TimeWithinDay tl)).
End LocalTime.

End Date.

(** ** Log records and session summaries *)
Module Log.

(** [message.metadata] of a summary record. The two titles are values on
    which [parseJSONLFile] ends up calling [replace]. *)
Record Metadata : Type := {
  workingDirectory : option string;
  cwd : option string;
  thread_summary : option JS.text;
  metadata_summary : option JS.text
}.

(** [message.message] of an assistant record. *)
Record Payload : Type := {
  usage : option Pricing.Usage;
  model : option string
}.

(** A parsed line. [type] is the type when it is a string. [timestamp] is
    the object [new Date(message.timestamp)] makes of a truthy timestamp:
    an invalid date when the timestamp is not a date; [None] stands for an
    absent or falsy timestamp, and for one on which [new Date] throws,
    which the [try] catches with nothing left to do on the line. *)
Record Message : Type := {
  type : option string;
  summary : option JS.text;
  metadata : option Metadata;
  text : option JS.text;
  costUSD : option float;
  message : option Payload;
  timestamp : option Date.object
}.

(** A line of the file: [None] when [JSON.parse] throws on it. *)
Definition Line : Type := option Message.

(** The object [parseJSONLFile] returns; [projectName] is absent until the
    scanner assigns it. *)
Record Conversation : Type := {
  conversationId : string;
  conversationName : string;
  conversationTitle : string;
  totalCost : float;
  messageCount : nat;
  startTime : option Date.object;
  endTime : option Date.object;
  duration : float;
  projectName : option string
}.

Definition is_type (m : Message) (t : string) : bool :=
  match type m with
  | Some s => String.eqb s t
  | None => false
  end.

End Log.

(** ** The session parser ([parseJSONLFile])

    The two scripts differ only in the block that extracts the cost of an
    assistant record; [turn_cost] is that block: the cost to add when the
    record counts as a turn. *)
Module Parser.
Import Log.

Local Open Scope float_scope.
Local Open Scope string_scope.

(** The loop-local variables of [parseJSONLFile]. *)
Record State : Type := {
  st_totalCost : float;
  st_messageCount : nat;
  st_conversationName : string;
  st_conversationTitle : JS.text;
  st_startTime : option Date.object;
  st_endTime : option Date.object;
  st_summary : JS.text;
  st_firstUserMessage : string
}.

Definition initial : State :=
  {| st_totalCost := 0; st_messageCount := 0;
     st_conversationName := ""; st_conversationTitle := JS.str "";
     st_startTime := None; st_endTime := None;
     st_summary := JS.str ""; st_firstUserMessage := "" |}.

Definition set_summary (s : JS.text) (st : State) : State :=
  {| st_totalCost := st_totalCost st; st_messageCount := st_messageCount st;
     st_conversationName := st_conversationName st;
     st_conversationTitle := st_conversationTitle st;
     st_startTime := st_startTime st; st_endTime := st_endTime st;
     st_summary := s; st_firstUserMessage := st_firstUserMessage st |}.

Definition set_conversationName (s : string) (st : State) : State :=
  {| st_totalCost := st_totalCost st; st_messageCount := st_messageCount st;
     st_conversationName := s;
     st_conversationTitle := st_conversationTitle st;
     st_startTime := st_startTime st; st_endTime := st_endTime st;
     st_summary := st_summary st; st_firstUserMessage := st_firstUserMessage st |}.

Definition set_conversationTitle (s : JS.text) (st : State) : State :=
  {| st_totalCost := st_totalCost st; st_messageCount := st_messageCount st;
     st_conversationName := st_conversationName st;
     st_conversationTitle := s;
     st_startTime := st_startTime st; st_endTime := st_endTime st;
     st_summary := st_summary st; st_firstUserMessage := st_firstUserMessage st |}.

Definition set_firstUserMessage (s : string) (st : State) : State :=
  {| st_totalCost := st_totalCost st; st_messageCount := st_messageCount st;
     st_conversationName := st_conversationName st;
     st_conversationTitle := st_conversationTitle st;
     st_startTime := st_startTime st; st_endTime := st_endTime st;
     st_summary := st_summary st; st_firstUserMessage := s |}.

Definition add_turn (cost : float) (st : State) : State :=
  {| st_totalCost := st_totalCost st + cost;
     st_messageCount := S (st_messageCount st);
     st_conversationName := st_conversationName st;
     st_conversationTitle := st_conversationTitle st;
     st_startTime := st_startTime st; st_endTime := st_endTime st;
     st_summary := st_summary st; st_firstUserMessage := st_firstUserMessage st |}.

Definition set_times (s e : option Date.object) (st : State) : State :=
  {| st_totalCost := st_totalCost st; st_messageCount := st_messageCount st;
     st_conversationName := st_conversationName st;
     st_conversationTitle := st_conversationTitle st;
     st_startTime := s; st_endTime := e;
     st_summary := st_summary st; st_firstUserMessage := st_firstUserMessage st |}.

(** [if (v) x = v]: assign when the field is present and truthy. *)
Definition assign_if (f : JS.text -> State -> State) (v : option JS.text) (st : State)
  : State :=
  match JS.truthy_value v with
  | Some s => f s st
  | None => st
  end.

(** Lines 30-43 and 751-764: conversation metadata of a summary record. *)
Definition metadata_block (m : Message) (st : State) : State :=
  if is_type m "summary" then
    let st := assign_if set_summary (summary m) st in
    match metadata m with
    | Some md =>
        let name :=
          match JS.truthy_field (workingDirectory md) with
          | Some d => d
          | None =>
              match JS.truthy_field (cwd md) with
              | Some d => d
              | None => "Unknown"
              end
          end in
        let st := set_conversationName name st in
        let st := assign_if set_conversationTitle (thread_summary md) st in
        assign_if set_conversationTitle (metadata_summary md) st
    | None => st
    end
  else st.

(** Lines 46-48 and 767-769: the first user message as fallback title.
    [message.text.substring] is not a function when the text is not a
    string: the call throws a [TypeError]. *)
Definition user_block (m : Message) (st : State) : option State :=
  if is_type m "user" && negb (JS.truthy_string (st_firstUserMessage st)) then
    match JS.truthy_value (text m) with
    | Some (JS.str t) => Some (set_firstUserMessage (JS.substring0 100 t) st)
    | Some JS.other => None
    | None => Some st
    end
  else Some st.

(** Lines 57-61 and 783-787: the time range. A Date object is truthy,
    valid or not, so [!startTime] tests for [null] only; a comparison with
    an invalid date is false. *)
Definition time_block (m : Message) (st : State) : State :=
  match timestamp m with
  | Some t =>
      let s :=
        match st_startTime st with
        | None => Some t
        | Some s0 => if Date.ltb t s0 then Some t else Some s0
        end in
      let e :=
        match st_endTime st with
        | None => Some t
        | Some e0 => if Date.ltb e0 t then Some t else Some e0
        end in
      set_times s e st
  | None => st
  end.

Section WithCostSource.
Variable turn_cost : Message -> option float.

Definition cost_block (m : Message) (st : State) : State :=
  match turn_cost m with
  | Some c => add_turn c st
  | None => st
  end.

(** The body of the [try] for one parsed record. An exception of the
    user block is caught: the rest of the body is skipped and the
    variables stay as the metadata block left them. *)
Definition process (st : State) (m : Message) : State :=
  let st := metadata_block m st in
  match user_block m st with
  | Some st' => time_block m (cost_block m st')
  | None => st
  end.

(** One iteration of the loop: a line that does not parse is caught and
    leaves every variable as it was. *)
Definition step (st : State) (line : Line) : State :=
  match line with
  | Some m => process st m
  | None => st
  end.

(** Lines 68-70 and 794-796: the title chosen after the loop. *)
Definition chosen_title (st : State) : JS.text :=
  if JS.truthy_text (st_conversationTitle st) then st_conversationTitle st
  else JS.text_or (st_summary st)
         (JS.str (JS.string_or (st_firstUserMessage st) "Untitled conversation")).

(** Lines 72-81 and 798-807: the returned object. [conversationId] is the
    base name of the file without [.jsonl]. The statement is outside the
    [try]: when the chosen title is not a string, [conversationTitle.replace]
    is not a function and the call throws a [TypeError]. An invalid start
    or end makes the duration [NaN]. *)
Definition finish (id : string) (st : State) : option Conversation :=
  match chosen_title st with
  | JS.str title =>
      Some {| conversationId := id;
              conversationName := st_conversationName st;
              conversationTitle := JS.substring0 100 (JS.replace_newlines title);
              totalCost := st_totalCost st;
              messageCount := st_messageCount st;
              startTime := st_startTime st;
              endTime := st_endTime st;
              duration :=
                match st_endTime st, st_startTime st with
                | Some e, Some s => Date.minus e s / 1000 / 60
                | _, _ => 0
                end;
              projectName := None |}
  | JS.other => None
  end.

(** [None]: the promise is rejected. *)
Definition parseJSONLFile (id : string) (lines : list Line) : option Conversation :=
  finish id (fold_left step lines initial).
End WithCostSource.

End Parser.

(** ** Aggregation, ranking and the report data

    [aggregateDailyCosts], [getLast30Days], the data [createHTMLReport]
    prepares and the values [displaySummary] prints are the same text in
    both scripts (lines 128-192 and 553-566; lines 868-932 and 1659-1702). *)
Module Aggregator.
Import Log.

Local Open Scope float_scope.

(** A value of the [dailyCosts] object. *)
Record Bucket : Type := {
  date : string;
  bucket_totalCost : float;
  conversationCount : nat;
  conversations : list Conversation
}.

(** One element of [last30DaysData]. *)
Record DayEntry : Type := {
  entry_date : string;
  cost : float;
  entry_conversations : list Conversation
}.

(** What [createHTMLReport] computes before it renders. *)
Record Report : Type := {
  conversationsWithCosts : list Conversation;
  report_totalCost : float;
  last30DaysData : list DayEntry;
  report_average : float
}.

(** What [displaySummary] prints, before formatting. *)
Record Summary : Type := {
  summary_totalCost : float;
  summary_count : nat;
  summary_average : float;
  top5 : list Conversation
}.

Definition has_cost (c : Conversation) : bool := 0 <? totalCost c.

(** [(a, b) => b.totalCost - a.totalCost]. *)
Definition by_cost_descending (a b : Conversation) : float :=
  totalCost b - totalCost a.

(** [conversations.filter(c => c.totalCost > 0).sort(...)]: the ranking. *)
Definition ranking (conversations : list Conversation) : list Conversation :=
  JS.sort by_cost_descending (filter has_cost conversations).

(** [reduce((sum, c) => sum + c.totalCost, 0)]. *)
Definition sum_costs (l : list Conversation) : float :=
  fold_left (fun sum c => sum + totalCost c) l 0.

(** The body of the [forEach] of [aggregateDailyCosts]. A start time is a
    Date object, truthy also when invalid, and [toISOString] throws on an
    invalid one. The keys are ISO dates, which begin with a digit or a
    sign, so none of them is a name inherited from [Object.prototype] and
    an absent key reads as [undefined]. *)
Definition add_conversation (dailyCosts : list (string * Bucket)) (conv : Conversation)
  : option (list (string * Bucket)) :=
  match startTime conv with
  | Some start =>
      if 0 <? totalCost conv then
        match Date.toISODate_of start with
        | Some dateKey =>
            let bucket :=
              match JS.assoc dateKey dailyCosts with
              | Some b => b
              | None =>
                  {| date := dateKey; bucket_totalCost := 0;
                     conversationCount := 0; conversations := [] |}
              end in
            Some (JS.set dateKey
                    {| date := date bucket;
                       bucket_totalCost := bucket_totalCost bucket + totalCost conv;
                       conversationCount := S (conversationCount bucket);
                       conversations := conversations bucket ++ [conv] |}
                    dailyCosts)
        | None => None
        end
      else Some dailyCosts
  | None => Some dailyCosts
  end.

Definition dailyCosts_of (conversations : list Conversation)
  : option (list (string * Bucket)) :=
  JS.forEach add_conversation conversations [].

(** The days of the chart, oldest first: [i] runs from 29 down to 0. *)
Definition offsets : list Z := map Z.of_nat (rev (seq 0 30)).

Section Environment.
(** [String.prototype.localeCompare], which depends on the collation of
    the host, and the time zone of the host. *)
Variable localeCompare : string -> string -> float.
Variable LocalTZA : Z -> bool -> Z.

(** [None]: the call throws. *)
Definition aggregateDailyCosts (conversations : list Conversation) : option (list Bucket) :=
  option_map (fun dailyCosts =>
                JS.sort (fun a b => localeCompare (date a) (date b))
                        (JS.values dailyCosts))
             (dailyCosts_of conversations).

(** [today] is the time value of [new Date()]. *)
Definition getLast30Days (today : Z) : list string :=
  map (fun i => Date.toISODate
                  (Date.setDate LocalTZA today (Date.getDate LocalTZA today - i)))
      offsets.

Definition dailyCostMap_of (dailyData : list Bucket)
  : list (string * (float * list Conversation)) :=
  fold_left (fun m d => JS.set (date d) (bucket_totalCost d, conversations d) m)
            dailyData [].

(** The element of [last30DaysData] for one date; the date is an ISO date,
    so the lookup sees own keys only. *)
Definition day_entry (dailyCostMap : list (string * (float * list Conversation)))
           (d : string) : DayEntry :=
  {| entry_date := d;
     cost := JS.number_or_zero (option_map fst (JS.assoc d dailyCostMap));
     entry_conversations :=
       match JS.assoc d dailyCostMap with
       | Some (_, cs) => cs
       | None => []
       end |}.

(** [None]: the call throws, as [aggregateDailyCosts] did. *)
Definition createHTMLReport (today : Z) (conversations : list Conversation)
  : option Report :=
  let conversationsWithCosts := ranking conversations in
  let totalCost := sum_costs conversationsWithCosts in
  match aggregateDailyCosts conversations with
  | Some dailyData =>
      let last30Days := getLast30Days today in
      let dailyCostMap := dailyCostMap_of dailyData in
      Some {| conversationsWithCosts := conversationsWithCosts;
              report_totalCost := totalCost;
              last30DaysData := map (day_entry dailyCostMap) last30Days;
              report_average :=
                totalCost / JS.number_of_nat (List.length conversationsWithCosts) |}
  | None => None
  end.
End Environment.

Definition displaySummary (conversations : list Conversation) : Summary :=
  let conversationsWithCosts := filter has_cost conversations in
  let totalCost := sum_costs conversationsWithCosts in
  {| summary_totalCost := totalCost;
     summary_count := List.length conversationsWithCosts;
     summary_average :=
       totalCost / JS.number_of_nat (List.length conversationsWithCosts);
     top5 := firstn 5 (JS.sort by_cost_descending conversationsWithCosts) |}.

End Aggregator.

(** ** The corpus scanner ([analyzeAllConversations]) and [main] *)
Module Scanner.
Import Log.

(** The project directories under the root, each with its [.jsonl] files:
    the base name of a file and its lines. *)
Definition Corpus : Type := list (string * list (string * list Line)).

Definition set_projectName (p : string) (c : Conversation) : Conversation :=
  {| conversationId := conversationId c;
     conversationName := conversationName c;
     conversationTitle := conversationTitle c;
     totalCost := totalCost c;
     messageCount := messageCount c;
     startTime := startTime c;
     endTime := endTime c;
     duration := duration c;
     projectName := Some p |}.

Section Scan.
Variable parse : string -> list Line -> option Conversation.
(** Whether the scanner pushes a parsed conversation. *)
Variable retained : Conversation -> bool.

(** Lines 113-120 and 849-860: the body of the loop over the files. A
    rejected parse is caught and the file is left out. *)
Definition scan_file (projectDir : string) (file : string * list Line)
  : list Conversation :=
  match parse (fst file) (snd file) with
  | Some parsed =>
      let conversation := set_projectName projectDir parsed in
      if retained conversation then [conversation] else []
  | None => []
  end.

Definition scan_project (project : string * list (string * list Line))
  : list Conversation :=
  flat_map (scan_file (fst project)) (snd project).

(** [None]: the projects directory does not exist. *)
Definition scan (root : option Corpus) : list Conversation :=
  match root with
  | Some projectDirs => flat_map scan_project projectDirs
  | None => []
  end.
End Scan.

(** Lines 1717-1723 and 581-587: [main] returns early on an empty
    collection, else prints the summary and builds the report; the report
    is [None] when building it throws. *)
Definition main_of (localeCompare : string -> string -> float)
           (LocalTZA : Z -> bool -> Z) (today : Z)
           (conversations : list Conversation)
  : option (Aggregator.Summary * option Aggregator.Report) :=
  match conversations with
  | [] => None
  | _ => Some (Aggregator.displaySummary conversations,
               Aggregator.createHTMLReport localeCompare LocalTZA today conversations)
  end.

End Scanner.

(** ** The cost-field script (lines 1-610) *)
Module CostField.
Import Log.

(** Lines 51-54: [message.type === 'assistant' && message.costUSD]. *)
Definition turn_cost (m : Message) : option float :=
  if is_type m "assistant" then
    match costUSD m with
    | Some c => if JS.truthy_number c then Some c else None
    | None => None
    end
  else None.

Definition parseJSONLFile := Parser.parseJSONLFile turn_cost.

(** Lines 114-117: every parsed file is pushed. *)
Definition analyzeAllConversations : option Scanner.Corpus -> list Conversation :=
  Scanner.scan parseJSONLFile (fun _ => true).

End CostField.

(** ** The pricing script (lines 611-1745) *)
Module UsagePricing.
Import Log.

(** Lines 772-780: an assistant record with [message.usage] and a truthy
    [message.model]. *)
Definition turn_cost (m : Message) : option float :=
  if is_type m "assistant" then
    match message m with
    | Some p =>
        match usage p, JS.truthy_field (model p) with
        | Some u, Some mdl => Some (Pricing.calculateCost (Some u) mdl)
        | _, _ => None
        end
    | None => None
    end
  else None.

Definition parseJSONLFile := Parser.parseJSONLFile turn_cost.

(** Lines 850-857: only conversations that have messages are pushed. *)
Definition analyzeAllConversations : option Scanner.Corpus -> list Conversation :=
  Scanner.scan parseJSONLFile (fun c => Nat.ltb 0 (messageCount c)).

End UsagePricing.

(** ** Order of positive binary64 numbers

    The aggregator only ever compares and subtracts costs that passed the
    test [totalCost > 0]. The rank of such a number is its value in units of
    the smallest positive number, with infinity above every finite one. *)
Module Float64.

Local Open Scope Z_scope.

Definition positive_sf (x : spec_float) : Prop :=
  match x with
  | S754_infinity false | S754_finite false _ _ => True
  | _ => False
  end.

Definition top : Z := 2 ^ (emax - emin).

Definition rank_sf (x : spec_float) : Z :=
  match x with
  | S754_finite _ m e => Z.pos m * 2 ^ (e - emin)
  | S754_infinity _ => top
  | _ => 0
  end.

Definition rank (x : float) : Z := rank_sf (Prim2SF x).

End Float64.

(** ** The statements of the specification, in its own words *)
Module Spec.
Import Log.

Local Open Scope string_scope.

Definition of_option {A} (o : option A) : list A :=
  match o with
  | Some a => [a]
  | None => []
  end.

(** The costs of the turns of a file, in log order, for a given reading of
    "this record is a cost-bearing turn". *)
Definition turn_costs (turn_cost : Message -> option float) (lines : list Line)
  : list float :=
  flat_map (fun l => match l with
                     | Some m => of_option (turn_cost m)
                     | None => []
                     end) lines.

(** A line that fails to parse as a structured record. *)
Definition unparseable (l : Line) : bool :=
  match l with
  | None => true
  | Some _ => false
  end.

(** A valid assistant line bearing usage-and-model cost data. *)
Definition usage_line (l : Line) : bool :=
  match l with
  | Some m =>
      is_type m "assistant" &&
      match message m with
      | Some p =>
          match usage p, model p with
          | Some _, Some mdl => JS.truthy_string mdl
          | _, _ => false
          end
      | None => false
      end
  | None => false
  end.

(** "Both cost sources are supported": a lone assistant record with a direct
    cost counts with that cost; one without it, but with usage and a model,
    counts with the cost computed from the pricing table. *)
Definition supports_both_cost_sources
           (parse : string -> list Line -> option Conversation) : Prop :=
  forall (id : string) (m : Message),
    is_type m "assistant" = true ->
    (forall c, costUSD m = Some c -> JS.truthy_number c = true ->
               option_map totalCost (parse id [Some m]) = Some (0 + c)%float
               /\ option_map messageCount (parse id [Some m]) = Some 1)
    /\ (costUSD m = None ->
        forall u mdl,
          message m = Some {| usage := Some u; model := Some mdl |} ->
          JS.truthy_string mdl = true ->
          option_map totalCost (parse id [Some m])
          = Some (0 + Pricing.calculateCost (Some u) mdl)%float
          /\ option_map messageCount (parse id [Some m]) = Some 1).

(** Title resolution, in the words of the specification. These
    definitions use none of the functions of the embedding: the type of a
    record is compared here, and strings are cut and rewritten here, on
    their lists of characters. *)

(** The record of a line when the line parses and has the given type. *)
Definition record_of_type (t : string) (l : Line) : option Message :=
  match l with
  | Some m =>
      match type m with
      | Some s => if string_dec s t then Some m else None
      | None => None
      end
  | None => None
  end.

(** A value that is given: anything but the empty string. *)
Definition given (v : option JS.text) : list JS.text :=
  match v with
  | Some (JS.str EmptyString) => []
  | Some t => [t]
  | None => []
  end.

(** Explicit thread/summary metadata of one line: the thread summary, then
    the metadata summary, which wins when both are there. *)
Definition metadata_titles (l : Line) : list JS.text :=
  match record_of_type "summary" l with
  | Some m =>
      match metadata m with
      | Some md => given (thread_summary md) ++ given (metadata_summary md)
      | None => []
      end
  | None => []
  end.

(** The free-text summary field of one line. *)
Definition summary_texts (l : Line) : list JS.text :=
  match record_of_type "summary" l with
  | Some m => given (summary m)
  | None => []
  end.

(** The text of one line when it is a user message with a text. *)
Definition user_texts (l : Line) : list string :=
  match record_of_type "user" l with
  | Some m =>
      match text m with
      | Some (JS.str EmptyString) => []
      | Some (JS.str s) => [s]
      | _ => []
      end
  | None => []
  end.

(** The first [n] characters of a string. *)
Definition truncated (n : nat) (s : string) : string :=
  string_of_list_ascii (firstn n (list_ascii_of_string s)).

(** A string with a space for each of its newlines. *)
Definition on_one_line (s : string) : string :=
  string_of_list_ascii
    (map (fun c => if ascii_dec c "010"%char then " "%char else c)
         (list_ascii_of_string s)).

(** The captured title and summary are the last ones written; the captured
    first user message is the first one, truncated. *)
Definition captured_title (lines : list Line) : JS.text :=
  last (flat_map metadata_titles lines) (JS.str "").

Definition captured_summary (lines : list Line) : JS.text :=
  last (flat_map summary_texts lines) (JS.str "").

Definition captured_first_user_message (lines : list Line) : string :=
  match flat_map user_texts lines with
  | t :: _ => truncated 100 t
  | [] => ""
  end.

(** The first candidate that is not empty, else the literal. *)
Fixpoint first_nonempty (candidates : list JS.text) (fallback : string) : JS.text :=
  match candidates with
  | [] => JS.str fallback
  | JS.str EmptyString :: rest => first_nonempty rest fallback
  | c :: _ => c
  end.

(** The title the claim describes; [None] when the candidate that wins is
    not a string, so that there is nothing to rewrite and to cut. *)
Definition resolved_title (lines : list Line) : option string :=
  match first_nonempty
          [captured_title lines; captured_summary lines;
           JS.str (captured_first_user_message lines)]
          "Untitled conversation" with
  | JS.str t => Some (truncated 100 (on_one_line t))
  | JS.other => None
  end.


Fixpoint has_char (c : ascii) (s : string) : bool :=
  match s with
  | EmptyString => false
  | String c' r => Ascii.eqb c' c || has_char c r
  end.

(** A summary a script produced: parsed by one of the two parsers, and
    possibly tagged with its project by the scanner. *)
Inductive produced : Conversation -> Prop :=
| produced_cost_field : forall id lines c,
    CostField.parseJSONLFile id lines = Some c -> produced c
| produced_usage_pricing : forall id lines c,
    UsagePricing.parseJSONLFile id lines = Some c -> produced c
| produced_tagged : forall p c, produced c -> produced (Scanner.set_projectName p c).

(** Today and the 29 preceding UTC days, oldest first, as ISO dates. *)
Definition utc_last_30_days (today : Z) : list string :=
  map (fun i => Date.toISODate (today - i * Date.msPerDay)%Z) Aggregator.offsets.

(** The invariant of a daily bucket: a conversation contributes to the
    bucket of date [k] only if it is one of the collection, has a positive
    cost and began on that date. *)
Definition contributes (convs : list Conversation) (k : string) (c : Conversation) : Prop :=
  In c convs /\ Aggregator.has_cost c = true
  /\ exists t, startTime c = Some (Date.valid t) /\ Date.toISODate t = k.

(** An entry of [dailyCosts]: the bucket carries its key as date and holds
    only conversations that contribute to it. *)
Definition well_formed (convs : list Conversation) (kb : string * Aggregator.Bucket)
  : Prop :=
  Aggregator.date (snd kb) = fst kb
  /\ Forall (contributes convs (fst kb)) (Aggregator.conversations (snd kb)).

(** The scan-time policy that drops the summaries without turns. *)
Definition without_zero_turn (conversations : list Conversation) : list Conversation :=
  filter (fun c => Nat.ltb 0 (messageCount c)) conversations.

End Spec.

(** ** Concrete logs and collections *)
Module Fixtures.
Import Log.

Local Open Scope string_scope.

(** [{}] *)
Definition blank : Message :=
  {| type := None; summary := None; metadata := None; text := None;
     costUSD := None; message := None; timestamp := None |}.

(** [{"type":"assistant","costUSD":0.5}] *)
Definition assistant_with_cost : Message :=
  {| type := Some "assistant"; summary := None; metadata := None; text := None;
     costUSD := Some 0.5%float; message := None; timestamp := None |}.

(** [{"type":"assistant","message":{"model":...,"usage":{"input_tokens":1000000}}}] *)
Definition assistant_with_usage (mdl : string) : Message :=
  {| type := Some "assistant"; summary := None; metadata := None; text := None;
     costUSD := None;
     message := Some {| usage := Some Pricing.million_input; model := Some mdl |};
     timestamp := None |}.

(** [{"type":"assistant","message":{"model":"claude-3-haiku-20240307","usage":{}},
      "timestamp":"2025-11-01T10:00:00.000Z"}]: a turn that costs nothing. *)
Definition free_turn : Message :=
  {| type := Some "assistant"; summary := None; metadata := None; text := None;
     costUSD := None;
     message := Some {| usage := Some {| Pricing.input_tokens := None;
                                         Pricing.output_tokens := None;
                                         Pricing.cache_creation_input_tokens := None;
                                         Pricing.cache_read_input_tokens := None |};
                        model := Some "claude-3-haiku-20240307" |};
     timestamp := Some (Date.valid 1761991200000) |}.

(** [{"type":"user","text":t}] *)
Definition user_says (t : string) : Message :=
  {| type := Some "user"; summary := None; metadata := None; text := Some (JS.str t);
     costUSD := None; message := None; timestamp := None |}.

(** [{"type":"summary","summary":s}], with [metadata] when given. *)
Definition summary_record (s : option string) (md : option Metadata) : Message :=
  {| type := Some "summary"; summary := option_map JS.str s; metadata := md; text := None;
     costUSD := None; message := None; timestamp := None |}.

(** [{"type":"summary","summary":42}] *)
Definition summary_is_a_number : Message :=
  {| type := Some "summary"; summary := Some JS.other; metadata := None; text := None;
     costUSD := None; message := None; timestamp := None |}.

(** [{"type":"user","text":true,"timestamp":...}]: a user message whose
    text is not a string, at 2025-10-26T10:00:00Z. *)
Definition text_is_true : Message :=
  {| type := Some "user"; summary := None; metadata := None; text := Some JS.other;
     costUSD := None; message := None;
     timestamp := Some (Date.valid 1761472800000) |}.



(** [{"cwd":"/home/me/app","thread_summary":ts,"summary":s}] *)
Definition titled (ts s : option string) : Metadata :=
  {| workingDirectory := None; cwd := Some "/home/me/app";
     thread_summary := option_map JS.str ts; metadata_summary := option_map JS.str s |}.

(** The assistant turn of the end-to-end scenario: 500,000 input and
    100,000 output tokens on [claude-3-5-sonnet-20241022]. *)
Definition scenario_turn : Message :=
  {| type := Some "assistant"; summary := None; metadata := None; text := None;
     costUSD := None;
     message := Some {| usage := Some {| Pricing.input_tokens := Some 500000%float;
                                         Pricing.output_tokens := Some 100000%float;
                                         Pricing.cache_creation_input_tokens := None;
                                         Pricing.cache_read_input_tokens := None |};
                        model := Some "claude-3-5-sonnet-20241022" |};
     timestamp := Some (Date.valid 1761472800000) |}.

(** The same turn with a timestamp that is not a date:
    ["timestamp":"soon"]. *)
Definition turn_without_date : Message :=
  {| type := Some "assistant"; summary := None; metadata := None; text := None;
     costUSD := None;
     message := Some {| usage := Some {| Pricing.input_tokens := Some 500000%float;
                                         Pricing.output_tokens := Some 100000%float;
                                         Pricing.cache_creation_input_tokens := None;
                                         Pricing.cache_read_input_tokens := None |};
                        model := Some "claude-3-5-sonnet-20241022" |};
     timestamp := Some Date.invalid |}.

(** Two projects with one file each: file A has the scenario turn, file B
    has no assistant turn. *)
Definition scenario : Scanner.Corpus :=
  [("project-a", [("A", [Some scenario_turn])]);
   ("project-b", [("B", [Some (user_says "hello")])])].

(** What either parser returns for an empty log named [empty]. *)
Definition empty_summary : Conversation :=
  {| conversationId := "empty"; conversationName := "";
     conversationTitle := "Untitled conversation";
     totalCost := 0%float; messageCount := 0;
     startTime := None; endTime := None;
     duration := 0%float; projectName := None |}.

(** A session summary with the given identifier, cost, turns and start. *)
Definition session (id : string) (c : float) (turns : nat) (start : option Z)
  : Conversation :=
  {| conversationId := id; conversationName := ""; conversationTitle := id;
     totalCost := c; messageCount := turns;
     startTime := option_map Date.valid start; endTime := option_map Date.valid start;
     duration := 0%float; projectName := Some "project" |}.

(** A collation that orders strings by their code units. *)
Definition code_unit_compare (a b : string) : float :=
  match String.compare a b with
  | Lt => (-1)%float
  | Eq => 0%float
  | Gt => 1%float
  end.

(** A host in UTC. *)
Definition utc (t : Z) (isUTC : bool) : Z := 0%Z.

(** A host on Central European time in autumn 2025: two hours ahead of UTC
    until 2025-10-26T01:00:00Z (03:00 local), one hour ahead after. *)
Definition central_europe (t : Z) (isUTC : bool) : Z :=
  let change := 1761440400000%Z in
  if isUTC then (if (t <? change)%Z then 7200000 else 3600000)%Z
  else (if (t <? change + 7200000)%Z then 7200000 else 3600000)%Z.

(** 2025-11-03T00:30:00Z, which is 01:30 local time on that host. *)
Definition early_november : Z := 1762129800000%Z.

(** 2025-10-26T10:00:00Z. *)
Definition late_october : Z := 1761472800000%Z.

(** A project with one log whose only line is [free_turn]. *)
Definition free_corpus : Scanner.Corpus :=
  [("project", [("free", [Some free_turn])])].

End Fixtures.

(** ** The rest of the report data ([createHTMLReport], lines 172-200 and
    912-940; the table rows of lines 357-366 and 1263-1281) *)
Module ReportData.
Import Log Aggregator.

Local Open Scope string_scope.

(** [s.split(sep)] for a separator of one character: never an empty array. *)
Fixpoint split (sep : ascii) (s : string) : list string :=
  match s with
  | EmptyString => [EmptyString]
  | String c r =>
      if Ascii.eqb c sep then EmptyString :: split sep r
      else match split sep r with
           | h :: t => String c h :: t
           | [] => [String c EmptyString]
           end
  end.

(** [array.pop()] on a fresh array: its last element, [undefined] when the
    array is empty. *)
Definition pop (l : list string) : option string := last (map Some l) None.

(** [a || b] where [a] may be [undefined]. *)
Definition field_or (a : option string) (b : string) : string :=
  match JS.truthy_field a with
  | Some s => s
  | None => b
  end.

(** [c.conversationTitle || c.conversationName.split('/').pop() || 'Unknown'] *)
Definition label_of (c : Conversation) : string :=
  JS.string_or (conversationTitle c)
    (field_or (pop (split "/" (conversationName c))) "Unknown").

(** [conv.conversationName.split('/').pop() || conv.projectName], the
    project in the console list of both scripts (lines 569 and 1705) and in
    the table of the cost-field script (line 360); [None] is [undefined]. *)
Definition project_column (c : Conversation) : option string :=
  match JS.truthy_field (pop (split "/" (conversationName c))) with
  | Some s => Some s
  | None => projectName c
  end.

(** [(conv.conversationName.split('/').pop() || conv.projectName)
    .replace(/-Users-haleclipse-WorkSpace-/, '')], the project in the table
    of the pricing script (line 1271); [None]: the value is [undefined] and
    the call of [replace] throws. *)
Definition table_project (c : Conversation) : option string :=
  match project_column c with
  | Some shown => Some (JS.remove_first "-Users-haleclipse-WorkSpace-" shown)
  | None => None
  end.

(** [label.substring(0, 50) + (label.length > 50 ? '...' : '')], the label
    on the bar chart. *)
Definition shorten (label : string) : string :=
  JS.substring0 50 label ++ (if Nat.ltb 50 (String.length label) then "..." else "").

Definition same_project (a b : option string) : bool :=
  match a, b with
  | Some x, Some y => String.eqb x y
  | None, None => true
  | _, _ => false
  end.

(** [[...new Set(values)]]: the distinct values in the order they first
    occur. *)
Definition Set_of (values : list (option string)) : list (option string) :=
  fold_left (fun set v => if existsb (same_project v) set then set else (set ++ [v])%list)
            values [].

(** An element of [chartData]. *)
Record Bar : Type := {
  label : string;
  bar_cost : float;
  bar_date : string;
  bar_projectName : option string
}.

Section Locale.
(** [Date.prototype.toLocaleDateString], which depends on the locale and
    the time zone of the host. *)
Variable toLocaleDateString : Z -> string.

Definition bar_of (c : Conversation) : Bar :=
  {| label := label_of c;
     bar_cost := totalCost c;
     bar_date :=
       match startTime c with
       | Some (Date.valid t) => toLocaleDateString t
       | Some Date.invalid => "Invalid Date"
       | None => "Unknown"
       end;
     bar_projectName := projectName c |}.

(** [conversationsWithCosts.slice(0, 20).map(...)]. *)
Definition chartData (conversations : list Conversation) : list Bar :=
  map bar_of (firstn 20 (ranking conversations)).
End Locale.

(** [[...new Set(conversationsWithCosts.map(c => c.projectName))]]. *)
Definition uniqueProjects (conversations : list Conversation) : list (option string) :=
  Set_of (map projectName (ranking conversations)).

End ReportData.

(** ** The project breakdown of the pricing script ([displaySummary],
    lines 1671-1696) *)
Module Breakdown.
Import Log Aggregator.

Local Open Scope string_scope.

(** A value of the [projectStats] object. *)
Record Stats : Type := {
  total : nat;
  withCost : nat;
  stats_totalCost : float
}.

(** The property key [conv.projectName] makes: the string itself, and
    ["undefined"] when the field is absent. *)
Definition project_key (c : Conversation) : string :=
  match projectName c with
  | Some p => p
  | None => "undefined"
  end.

Definition count (s : Stats) (conv : Conversation) : Stats :=
  {| total := S (total s);
     withCost := if has_cost conv then S (withCost s) else withCost s;
     stats_totalCost :=
       if has_cost conv then (stats_totalCost s + totalCost conv)%float
       else stats_totalCost s |}.

(** The body of the [forEach]. When the key is a name inherited from
    [Object.prototype] the object found is truthy, so nothing is created,
    and the counters written are those of the inherited member:
    [projectStats] keeps its own properties. *)
Definition add_stats (projectStats : list (string * Stats)) (conv : Conversation)
  : list (string * Stats) :=
  let k := project_key conv in
  match JS.get projectStats k with
  | JS.own s => JS.set k (count s conv) projectStats
  | JS.undefined =>
      JS.set k (count {| total := 0; withCost := 0; stats_totalCost := 0 |} conv)
             projectStats
  | JS.inherited => projectStats
  end.

Definition projectStats_of (conversations : list Conversation) : list (string * Stats) :=
  fold_left add_stats conversations [].

Definition digit_value (c : ascii) : option N :=
  let n := N_of_ascii c in
  if (48 <=? n)%N && (n <=? 57)%N then Some (n - 48)%N else None.

Fixpoint decimal_value (s : string) (acc : N) : option N :=
  match s with
  | EmptyString => Some acc
  | String c r =>
      match digit_value c with
      | Some d => decimal_value r (10 * acc + d)%N
      | None => None
      end
  end.

(** The array index a property key is, if it is one: a canonical decimal
    numeral below 2^32 - 1. *)
Definition array_index (k : string) : option N :=
  match k with
  | EmptyString => None
  | String c r =>
      if Ascii.eqb c "0" && negb (String.eqb r EmptyString) then None
      else match decimal_value k 0 with
           | Some n => if (n <? 4294967295)%N then Some n else None
           | None => None
           end
  end.

Definition is_index {A} (kv : string * A) : bool :=
  match array_index (fst kv) with
  | Some _ => true
  | None => false
  end.

Definition index_of {A} (kv : string * A) : N :=
  match array_index (fst kv) with
  | Some n => n
  | None => 0%N
  end.

Fixpoint insert_by_index {A} (x : string * A) (l : list (string * A))
  : list (string * A) :=
  match l with
  | [] => [x]
  | y :: r => if (index_of y <? index_of x)%N then y :: insert_by_index x r
              else x :: y :: r
  end.

(** [Object.entries(obj)]: the keys that are array indices in ascending
    order, then the other keys in the order they were created. *)
Definition entries {A} (obj : list (string * A)) : list (string * A) :=
  (fold_right insert_by_index [] (filter is_index obj)
   ++ filter (fun kv => negb (is_index kv)) obj)%list.

(** [(a, b) => b[1].totalCost - a[1].totalCost]. *)
Definition by_project_cost (a b : string * Stats) : float :=
  (stats_totalCost (snd b) - stats_totalCost (snd a))%float.

(** The projects in the order they are printed. *)
Definition breakdown (conversations : list Conversation) : list (string * Stats) :=
  JS.sort by_project_cost (entries (projectStats_of conversations)).

End Breakdown.

(** ** Words for the further properties *)
Module Properties.
Import Log.

Local Open Scope string_scope.

(** A record on which the body of the loop throws before it reaches the
    time range: a user message whose text is a truthy value that is not a
    string, read while no first user message is captured. *)
Definition throws (captured : bool) (m : Message) : bool :=
  negb captured &&
  match type m, text m with
  | Some t, Some JS.other => String.eqb t "user"
  | _, _ => false
  end.

(** A record that captures the first user message. *)
Definition captures (m : Message) : bool :=
  match type m, text m with
  | Some t, Some (JS.str (String _ _)) => String.eqb t "user"
  | _, _ => false
  end.

(** The dates of the timestamps the parser reads, in log order: those of
    the records on which the body of the loop does not throw. [captured]
    tells whether a first user message is captured already. *)
Fixpoint timestamps_from (captured : bool) (lines : list Line) : list Date.object :=
  match lines with
  | [] => []
  | None :: rest => timestamps_from captured rest
  | Some m :: rest =>
      (if throws captured m then [] else Spec.of_option (timestamp m))
      ++ timestamps_from (captured || captures m) rest
  end.

Definition timestamps (lines : list Line) : list Date.object :=
  timestamps_from false lines.

(** The time values of the valid dates of a list. *)
Definition valid_times (dates : list Date.object) : list Z :=
  flat_map (fun d => match d with
                     | Date.valid t => [t]
                     | Date.invalid => []
                     end) dates.

(** The earlier, and the later, of a date that may be [null] and a date. *)
Definition earlier (o : option Date.object) (t : Date.object) : option Date.object :=
  match o with
  | None => Some t
  | Some s => if Date.ltb t s then Some t else Some s
  end.

Definition later (o : option Date.object) (t : Date.object) : option Date.object :=
  match o with
  | None => Some t
  | Some e => if Date.ltb e t then Some t else Some e
  end.

(** The name a summary record with metadata gives the conversation. *)
Definition names (l : Line) : list string :=
  match l with
  | Some m =>
      if is_type m "summary" then
        match metadata m with
        | Some md =>
            [ReportData.field_or (workingDirectory md)
               (ReportData.field_or (cwd md) "Unknown")]
        | None => []
        end
      else []
  | None => []
  end.

(** A conversation that counts for the day of date [k]. *)
Definition on_day (k : string) (c : Conversation) : bool :=
  Aggregator.has_cost c &&
  match startTime c with
  | Some (Date.valid t) => String.eqb (Date.toISODate t) k
  | _ => false
  end.

(** A conversation on which [aggregateDailyCosts] throws: one with a
    positive cost and an invalid start. *)
Definition undatable (c : Conversation) : bool :=
  Aggregator.has_cost c &&
  match startTime c with
  | Some Date.invalid => true
  | _ => false
  end.

(** What the object [dailyCosts] holds once the conversations [seen] have
    been visited. *)
Definition day_invariant (seen : list Conversation) (d : list (string * Aggregator.Bucket)) : Prop :=
  forall k,
    match JS.assoc k d with
    | Some b =>
        Aggregator.date b = k
        /\ Aggregator.conversations b = filter (on_day k) seen
        /\ Aggregator.conversations b <> []
        /\ Aggregator.conversationCount b = List.length (Aggregator.conversations b)
        /\ Aggregator.bucket_totalCost b = Aggregator.sum_costs (Aggregator.conversations b)
    | None => filter (on_day k) seen = []
    end.

(** The UTC dates on which conversations with a positive cost began, in
    the order of the collection. *)
Definition days (convs : list Conversation) : list string :=
  flat_map (fun c =>
              if Aggregator.has_cost c then
                match startTime c with
                | Some (Date.valid t) => [Date.toISODate t]
                | _ => []
                end
              else []) convs.

(** A conversation of the project with key [k]. *)
Definition of_project (k : string) (c : Conversation) : bool :=
  String.eqb (Breakdown.project_key c) k.

(** What the object [projectStats] holds once the conversations [seen]
    have been visited. *)
Definition stats_invariant (seen : list Conversation)
           (d : list (string * Breakdown.Stats)) : Prop :=
  forall k,
    match JS.assoc k d with
    | Some s =>
        ~ In k JS.Object_prototype
        /\ 1 <= Breakdown.total s
        /\ Breakdown.total s = List.length (filter (of_project k) seen)
        /\ Breakdown.withCost s
           = List.length (filter Aggregator.has_cost (filter (of_project k) seen))
        /\ Breakdown.stats_totalCost s
           = Aggregator.sum_costs (filter Aggregator.has_cost (filter (of_project k) seen))
    | None => In k JS.Object_prototype \/ filter (of_project k) seen = []
    end.

(** A number that is [+0] or positive. *)
Definition zero_or_positive (x : float) : Prop :=
  x = 0%float \/ (0 <? x)%float = true.

(** The part of a string after its last occurrence of a character: the
    whole string when the character does not occur. *)
Fixpoint after_last (sep : ascii) (s : string) : string :=
  match s with
  | EmptyString => EmptyString
  | String c r =>
      if Spec.has_char sep r then after_last sep r
      else if Ascii.eqb c sep then r else s
  end.

(** A count of tokens that is missing, zero or positive. *)
Definition natural (x : option float) : Prop :=
  match x with
  | Some v => (0 <=? v)%float = true
  | None => True
  end.

Definition natural_usage (u : Pricing.Usage) : Prop :=
  natural (Pricing.input_tokens u) /\ natural (Pricing.output_tokens u)
  /\ natural (Pricing.cache_creation_input_tokens u)
  /\ natural (Pricing.cache_read_input_tokens u).

(** A line that is no assistant record, or an assistant record whose
    counts are natural and whose model is not a name inherited from
    [Object.prototype]. *)
Definition plain_turn (l : Line) : Prop :=
  match l with
  | Some m =>
      if is_type m "assistant" then
        match message m with
        | Some p =>
            match usage p, model p with
            | Some u, Some mdl => natural_usage u /\ ~ In mdl JS.Object_prototype
            | _, _ => True
            end
        | None => True
        end
      else True
  | None => True
  end.

(** One of the four price lists of the table. *)
Definition listed (p : Pricing.Entry) : Prop :=
  p = Pricing.opus \/ p = Pricing.sonnet \/ p = Pricing.haiku35 \/ p = Pricing.haiku3.

(** The files of a corpus, each with its project directory, in the order
    the scanner visits them. *)
Definition files (corpus : Scanner.Corpus) : list (string * (string * list Line)) :=
  flat_map (fun project => map (fun file => (fst project, file)) (snd project)) corpus.

(** The summary the scanner makes of one file, if its parse returns. *)
Definition summary_of (parse : string -> list Line -> option Conversation)
           (file : string * (string * list Line)) : list Conversation :=
  match parse (fst (snd file)) (snd (snd file)) with
  | Some c => [Scanner.set_projectName (fst file) c]
  | None => []
  end.

(** A file whose title, as the specification resolves it, is a string. *)
Definition has_title (file : string * (string * list Line)) : bool :=
  match Spec.resolved_title (snd (snd file)) with
  | Some _ => true
  | None => false
  end.

(** The sum of the costs of the turns of a file and their number, for a
    given reading of "this record is a turn". *)
Definition turns_of (turn_cost : Message -> option float)
           (file : string * (string * list Line)) : float * nat :=
  (fold_left PrimFloat.add (Spec.turn_costs turn_cost (snd (snd file))) 0%float,
   List.length (Spec.turn_costs turn_cost (snd (snd file)))).

(** The project and the identifier of a summary. *)
Definition origin (c : Conversation) : option string * string :=
  (projectName c, conversationId c).

End Properties.

(** ** Signs of binary64 numbers *)
Module Sign.

(** Zero of either sign, a positive finite number or positive infinity. *)
Definition nonneg_sf (x : spec_float) : Prop :=
  match x with
  | S754_zero _ | S754_infinity false | S754_finite false _ _ => True
  | _ => False
  end.

(** A positive finite number. *)
Definition positive_finite_sf (x : spec_float) : Prop :=
  match x with
  | S754_finite false _ _ => True
  | _ => False
  end.

End Sign.

(** ** Binary64: the sign of a difference and the order of positive numbers *)
Module Binary64.
Import Float64.
Local Open Scope Z_scope.

Lemma digits2_pos_size : forall m, digits2_pos m = Pos.size m.
Proof. induction m; simpl; congruence. Qed.

Lemma digits2_bounds : forall m,
  2 ^ (Z.pos (digits2_pos m) - 1) <= Z.pos m < 2 ^ Z.pos (digits2_pos m).
Proof.
  intros m. rewrite digits2_pos_size.
  pose proof (Pos.size_gt m) as Hgt. pose proof (Pos.size_le m) as Hle.
  assert (E : Z.pos (2 ^ Pos.size m) = 2 ^ Z.pos (Pos.size m)) by apply Pos2Z.inj_pow.
  split.
  - assert (2 ^ Z.pos (Pos.size m) = 2 * 2 ^ (Z.pos (Pos.size m) - 1)).
    { rewrite <- Z.pow_succ_r by lia. f_equal. lia. }
    lia.
  - lia.
Qed.

Lemma shr_1_m : forall r, 0 <= shr_m r -> shr_m (shr_1 r) = shr_m r / 2.
Proof.
  intros [m r s] H. rewrite <- Z.div2_div. simpl in *.
  destruct m as [|[p|p|]|p]; try reflexivity. lia.
Qed.

Lemma iter_shr_1_m : forall p r, 0 <= shr_m r ->
  shr_m (iter_pos shr_1 p r) = shr_m r / 2 ^ Z.pos p.
Proof.
  assert (Hnn : forall r, 0 <= shr_m r -> 0 <= shr_m (shr_1 r)).
  { intros r H. rewrite shr_1_m by assumption. apply Z.div_pos; lia. }
  assert (Hpow : forall p, 0 < 2 ^ Z.pos p) by (intros; apply Z.pow_pos_nonneg; lia).
  induction p as [p IH|p IH|]; intros r H; cbn [iter_pos].
  - assert (H1 : 0 <= shr_m (iter_pos shr_1 p (shr_1 r))).
    { rewrite IH by auto. apply Z.div_pos; auto. }
    rewrite IH by assumption. rewrite IH by auto. rewrite shr_1_m by assumption.
    rewrite !Z.div_div by (pose proof (Hpow p); lia).
    f_equal. replace (Z.pos p~1) with (1 + Z.pos p + Z.pos p) by lia.
    rewrite !Z.pow_add_r by lia. lia.
  - assert (H1 : 0 <= shr_m (iter_pos shr_1 p r)).
    { rewrite IH by auto. apply Z.div_pos; auto. }
    rewrite IH by assumption. rewrite IH by auto.
    rewrite !Z.div_div by (pose proof (Hpow p); lia).
    f_equal. replace (Z.pos p~0) with (Z.pos p + Z.pos p) by lia.
    rewrite Z.pow_add_r by lia. lia.
  - rewrite shr_1_m by assumption. reflexivity.
Qed.

Lemma shr_m_of_loc : forall m l, shr_m (shr_record_of_loc m l) = m.
Proof. intros m [|[]]; reflexivity. Qed.

(** Shifting a positive mantissa to its canonical exponent keeps it
    positive, when the exponent is not below the smallest one. *)
Lemma shr_fexp_positive : forall m e l,
  0 < m -> emin <= e ->
  0 < shr_m (fst (shr_fexp prec emax m e l)) /\ emin <= snd (shr_fexp prec emax m e l).
Proof.
  intros m e l Hm He. unfold shr_fexp, shr, fexp.
  destruct m as [|p|p]; try lia. simpl Zdigits2.
  pose proof (digits2_bounds p) as [Hlo _].
  set (d := Z.pos (digits2_pos p)) in *.
  destruct (Z.max (d + e - prec) emin - e) as [|n|n] eqn:En; simpl fst; simpl snd.
  - rewrite shr_m_of_loc. lia.
  - rewrite iter_shr_1_m by (rewrite shr_m_of_loc; lia).
    rewrite shr_m_of_loc. split; [|lia].
    assert (Hn : Z.pos n = d - prec) by lia.
    assert (Hle : 2 ^ Z.pos n <= Z.pos p).
    { eapply Z.le_trans; [|exact Hlo]. apply Z.pow_le_mono_r; unfold prec in *; lia. }
    apply Z.div_str_pos. split; [apply Z.pow_pos_nonneg; lia | exact Hle].
  - rewrite shr_m_of_loc. lia.
Qed.

Lemma round_nearest_even_positive : forall m l, 0 < m -> 0 < round_nearest_even m l.
Proof.
  intros m [|[]] H; simpl; try lia. destruct (Z.even m); lia.
Qed.

Lemma binary_round_aux_positive : forall m e l,
  0 < m -> emin <= e -> positive_sf (binary_round_aux prec emax false m e l).
Proof.
  intros m e l Hm He. unfold binary_round_aux.
  destruct (shr_fexp_positive m e l Hm He) as [H1 H2].
  destruct (shr_fexp prec emax m e l) as [r1 e1]. simpl fst in *; simpl snd in *.
  pose proof (round_nearest_even_positive _ (loc_of_shr_record r1) H1) as H3.
  destruct (shr_fexp_positive _ e1 loc_Exact H3 H2) as [H4 _].
  destruct (shr_fexp prec emax _ e1 loc_Exact) as [r2 e2]. simpl fst in *.
  destruct (shr_m r2); try lia.
  destruct (e2 <=? emax - prec); exact I.
Qed.

Lemma shl_align_exponent : forall m e e', emin <= e -> emin <= e' ->
  emin <= snd (shl_align m e e').
Proof. intros m e e' H H'. unfold shl_align. destruct (e' - e); simpl; lia. Qed.

Lemma binary_round_positive : forall m e,
  emin <= e -> positive_sf (binary_round prec emax false m e).
Proof.
  intros m e He. unfold binary_round.
  pose proof (shl_align_exponent m e (fexp prec emax (Z.pos (digits2_pos m) + e)) He) as H.
  destruct (shl_align m e _) as [mz ez]. simpl in H.
  apply binary_round_aux_positive; [lia|].
  apply H. unfold fexp. lia.
Qed.

(** The result of rounding carries the sign it was given. *)
Lemma binary_round_negative : forall m e,
  SFltb (S754_zero false) (binary_round prec emax true m e) = false.
Proof.
  intros m e. unfold binary_round.
  destruct (shl_align m e _) as [mz ez]. unfold binary_round_aux.
  destruct (shr_fexp prec emax (Z.pos mz) ez loc_Exact) as [r1 e1].
  destruct (shr_fexp prec emax _ e1 loc_Exact) as [r2 e2].
  destruct (shr_m r2); try reflexivity.
  destruct (e2 <=? emax - prec); reflexivity.
Qed.

Lemma positive_sf_ltb : forall x, positive_sf x <-> SFltb (S754_zero false) x = true.
Proof.
  intros [[]|[]| |[] m e]; simpl; split; intros H; try discriminate; try exact I; try contradiction; reflexivity.
Qed.

Lemma bounded_canonical : forall m e,
  bounded prec emax m e = true ->
  emin <= e /\ Z.pos (digits2_pos m) <= prec
  /\ (emin < e -> Z.pos (digits2_pos m) = prec).
Proof.
  intros m e H. unfold bounded, canonical_mantissa, fexp in H.
  apply andb_true_iff in H. destruct H as [H _]. apply Z.eqb_eq in H. lia.
Qed.

Lemma shl_align_value : forall m e e', e' <= e ->
  Z.pos (fst (shl_align m e e')) = Z.pos m * 2 ^ (e - e').
Proof.
  intros m e e' H. unfold shl_align.
  destruct (e' - e) as [|d|d] eqn:E; simpl fst.
  - replace (e - e') with 0 by lia. lia.
  - lia.
  - change (Pos.iter xO m d) with (shift_pos d m).
    rewrite shift_pos_correct. change (Z.pow_pos 2 d) with (2 ^ Z.pos d).
    replace (e - e') with (Z.pos d) by lia. lia.
Qed.

(** A canonical number with the smaller exponent is the smaller number. *)
Lemma canonical_lt : forall ma ea mb eb,
  bounded prec emax ma ea = true -> bounded prec emax mb eb = true ->
  ea < eb -> Z.pos ma < Z.pos mb * 2 ^ (eb - ea).
Proof.
  intros ma ea mb eb Ha Hb Hlt.
  destruct (bounded_canonical _ _ Ha) as (Ha1 & Ha2 & _).
  destruct (bounded_canonical _ _ Hb) as (_ & _ & Hb3).
  specialize (Hb3 ltac:(lia)).
  pose proof (digits2_bounds ma) as [_ Hma].
  pose proof (digits2_bounds mb) as [Hmb _]. rewrite Hb3 in Hmb.
  assert (H1 : 2 ^ Z.pos (digits2_pos ma) <= 2 ^ prec) by (apply Z.pow_le_mono_r; lia).
  assert (H2 : 2 ^ 1 <= 2 ^ (eb - ea)) by (apply Z.pow_le_mono_r; lia).
  assert (H3 : 2 ^ prec = 2 ^ (prec - 1) * 2 ^ 1) by reflexivity.
  assert (H4 : 2 ^ (prec - 1) * 2 ^ 1 <= Z.pos mb * 2 ^ (eb - ea)).
  { apply Z.mul_le_mono_nonneg; lia. }
  lia.
Qed.

(** Comparing two positive canonical numbers is comparing their mantissas
    once aligned on the smaller exponent. *)
Lemma compare_aligned : forall ma ea mb eb,
  bounded prec emax ma ea = true -> bounded prec emax mb eb = true ->
  SFcompare (S754_finite false ma ea) (S754_finite false mb eb)
  = Some (Z.pos (fst (shl_align ma ea (Z.min ea eb)))
          ?= Z.pos (fst (shl_align mb eb (Z.min ea eb)))).
Proof.
  intros ma ea mb eb Ha Hb. unfold SFcompare. f_equal.
  rewrite !shl_align_value by lia.
  destruct (Z.compare_spec ea eb) as [E|E|E].
  - subst eb. rewrite Z.min_id, Z.sub_diag, !Z.mul_1_r.
    rewrite Pos.compare_cont_spec. now destruct (ma ?= mb)%positive eqn:C; simpl; rewrite C.
  - rewrite Z.min_l by lia. rewrite Z.sub_diag, Z.mul_1_r.
    symmetry. apply Z.compare_lt_iff. now apply canonical_lt.
  - rewrite Z.min_r by lia. rewrite Z.sub_diag, Z.mul_1_r.
    symmetry. apply Z.compare_gt_iff. now apply canonical_lt.
Qed.

(** The sign of a difference of positive numbers tells their order. *)
Lemma SFsub_sign : forall a b,
  valid_binary a = true -> valid_binary b = true ->
  positive_sf a -> positive_sf b ->
  SFltb (S754_zero false) (SF64sub b a) = SFltb a b.
Proof.
  intros [[]|[]| |[] ma ea] [[]|[]| |[] mb eb] Va Vb Pa Pb;
    try contradiction; try reflexivity.
  simpl in Va, Vb.
  unfold SFltb at 2. rewrite (compare_aligned _ _ _ _ Va Vb).
  unfold SF64sub, SFsub, cond_Zopp. rewrite Z.min_comm.
  set (A := Z.pos (fst (shl_align ma ea (Z.min ea eb)))).
  set (B := Z.pos (fst (shl_align mb eb (Z.min ea eb)))).
  destruct (bounded_canonical _ _ Va) as (Ea & _).
  destruct (bounded_canonical _ _ Vb) as (Eb & _).
  destruct (B - A) as [|p|p] eqn:E; unfold binary_normalize.
  - replace (A ?= B) with Eq by (symmetry; apply Z.compare_eq_iff; lia). reflexivity.
  - replace (A ?= B) with Lt by (symmetry; apply Z.compare_lt_iff; lia).
    apply positive_sf_ltb, binary_round_positive. lia.
  - replace (A ?= B) with Gt by (symmetry; apply Z.compare_gt_iff; lia).
    apply binary_round_negative.
Qed.

Lemma finite_below_top : forall m e,
  bounded prec emax m e = true -> Z.pos m * 2 ^ (e - emin) < top.
Proof.
  intros m e H. destruct (bounded_canonical _ _ H) as (H1 & H2 & _).
  unfold bounded in H. apply andb_true_iff in H. destruct H as [_ H3].
  apply Z.leb_le in H3.
  pose proof (digits2_bounds m) as [_ Hm].
  assert (Hp : 2 ^ Z.pos (digits2_pos m) <= 2 ^ prec) by (apply Z.pow_le_mono_r; lia).
  assert (Hk : 0 < 2 ^ (e - emin)) by (apply Z.pow_pos_nonneg; lia).
  assert (Hq : 2 ^ prec * 2 ^ (e - emin) <= top).
  { assert (0 <= prec) by (unfold prec; lia).
    unfold top. rewrite <- Z.pow_add_r by lia.
    apply Z.pow_le_mono_r; lia. }
  nia.
Qed.

Lemma compare_rank_sf : forall a b,
  valid_binary a = true -> valid_binary b = true ->
  positive_sf a -> positive_sf b ->
  SFcompare a b = Some (rank_sf a ?= rank_sf b).
Proof.
  intros [[]|[]| |[] ma ea] [[]|[]| |[] mb eb] Va Vb Pa Pb; try contradiction.
  - cbn [SFcompare rank_sf]. now rewrite Z.compare_refl.
  - simpl in Vb. cbn [SFcompare rank_sf]. f_equal. symmetry.
    apply Z.compare_gt_iff. now apply finite_below_top.
  - simpl in Va. cbn [SFcompare rank_sf]. f_equal. symmetry.
    apply Z.compare_lt_iff. now apply finite_below_top.
  - simpl in Va, Vb. rewrite (compare_aligned _ _ _ _ Va Vb). f_equal.
    destruct (bounded_canonical _ _ Va) as (Ea & _).
    destruct (bounded_canonical _ _ Vb) as (Eb & _).
    rewrite !shl_align_value by lia. cbn [rank_sf].
    set (ez := Z.min ea eb).
    assert (Hk : 2 ^ (ez - emin) > 0) by (apply Z.lt_gt, Z.pow_pos_nonneg; lia).
    rewrite (Zmult_compare_compat_r _ _ _ Hk).
    rewrite <- !Z.mul_assoc, <- !Z.pow_add_r by lia.
    now replace (ea - ez + (ez - emin)) with (ea - emin) by lia;
      replace (eb - ez + (ez - emin)) with (eb - emin) by lia.
Qed.

End Binary64.

(** Facts about the numbers of the scripts. *)
Module Number.
Import Float64.
Local Open Scope float_scope.

Lemma zero_sf : Prim2SF 0 = S754_zero false.
Proof. reflexivity. Qed.

Lemma positive_sf_iff : forall x, (0 <? x) = true <-> positive_sf (Prim2SF x).
Proof.
  intros x. rewrite ltb_spec, zero_sf. symmetry. apply Binary64.positive_sf_ltb.
Qed.

Lemma sub_sign : forall a b, (0 <? a) = true -> (0 <? b) = true ->
  (0 <? b - a) = (a <? b).
Proof.
  intros a b Ha Hb. rewrite !ltb_spec, sub_spec, zero_sf.
  apply Binary64.SFsub_sign; auto using Prim2SF_valid; now apply positive_sf_iff.
Qed.

Lemma compare_rank : forall a b, (0 <? a) = true -> (0 <? b) = true ->
  SFcompare (Prim2SF a) (Prim2SF b) = Some (rank a ?= rank b)%Z.
Proof.
  intros a b Ha Hb.
  apply Binary64.compare_rank_sf; auto using Prim2SF_valid; now apply positive_sf_iff.
Qed.

Lemma ltb_rank : forall a b, (0 <? a) = true -> (0 <? b) = true ->
  (a <? b) = (rank a <? rank b)%Z.
Proof.
  intros a b Ha Hb. rewrite ltb_spec. unfold SFltb, Z.ltb.
  rewrite (compare_rank a b Ha Hb). reflexivity.
Qed.

Lemma leb_rank : forall a b, (0 <? a) = true -> (0 <? b) = true ->
  (a <=? b) = (rank a <=? rank b)%Z.
Proof.
  intros a b Ha Hb. rewrite leb_spec. unfold SFleb, Z.leb.
  rewrite (compare_rank a b Ha Hb). now destruct (rank a ?= rank b)%Z.
Qed.

Lemma eqb_rank : forall a b, (0 <? a) = true -> (0 <? b) = true ->
  (a =? b) = (rank a =? rank b)%Z.
Proof.
  intros a b Ha Hb. rewrite eqb_spec. unfold SFeqb.
  rewrite (compare_rank a b Ha Hb).
  destruct (Z.compare_spec (rank a) (rank b)); symmetry;
    [apply Z.eqb_eq | apply Z.eqb_neq | apply Z.eqb_neq]; lia.
Qed.

Lemma mul_nan : forall x, x * nan = nan.
Proof.
  intros x. apply Prim2SF_inj. rewrite mul_spec.
  change (Prim2SF nan) with S754_nan. unfold SF64mul, SFmul.
  now destruct (Prim2SF x).
Qed.

Lemma div_nan : forall x, nan / x = nan.
Proof.
  intros x. apply Prim2SF_inj. rewrite div_spec.
  change (Prim2SF nan) with S754_nan. reflexivity.
Qed.

Lemma add_nan_l : forall x, nan + x = nan.
Proof.
  intros x. apply Prim2SF_inj. rewrite add_spec.
  change (Prim2SF nan) with S754_nan. reflexivity.
Qed.

End Number.

(** ** Objects used as maps *)
Module ObjectFacts.

Lemma assoc_In : forall {A} k (v : A) obj, JS.assoc k obj = Some v -> In (k, v) obj.
Proof.
  induction obj as [|[k' v'] r IH]; simpl; intros H; [discriminate|].
  destruct (String.eqb_spec k k').
  - inversion H; subst. now left.
  - right. auto.
Qed.

Lemma In_assoc : forall {A} k (v : A) obj,
  NoDup (map fst obj) -> In (k, v) obj -> JS.assoc k obj = Some v.
Proof.
  intros A k v. induction obj as [|[k0 v0] r IH]; cbn [map fst JS.assoc In]; intros Hn Hin.
  - contradiction.
  - inversion Hn as [|? ? Hk Hr]; subst.
    destruct Hin as [E|Hin].
    + inversion E; subst. now rewrite String.eqb_refl.
    + destruct (String.eqb_spec k k0) as [->|Hne]; [|auto].
      exfalso. apply Hk. apply in_map_iff. now exists (k0, v).
Qed.

Lemma assoc_None : forall {A} k (obj : list (string * A)),
  JS.assoc k obj = None <-> ~ In k (map fst obj).
Proof.
  induction obj as [|[k' v'] r IH]; simpl.
  - split; auto.
  - destruct (String.eqb_spec k k').
    + split; [discriminate | intros H; exfalso; apply H; left; congruence].
    + rewrite IH. split; intros H; [intros [E|E]; [congruence | auto] | auto].
Qed.

Lemma set_In : forall {A} k (v : A) k' v' obj,
  In (k', v') (JS.set k v obj) -> (k', v') = (k, v) \/ In (k', v') obj.
Proof.
  intros A k v k' v'. induction obj as [|[k0 v0] r IH]; simpl.
  - intros [H|[]]; auto.
  - destruct (String.eqb k k0); simpl; intros [H|H]; auto.
    destruct (IH H); auto.
Qed.

Lemma assoc_set_same : forall {A} k (v : A) obj, JS.assoc k (JS.set k v obj) = Some v.
Proof.
  intros A k v. induction obj as [|[k0 v0] r IH]; simpl.
  - now rewrite String.eqb_refl.
  - destruct (String.eqb k k0) eqn:E; simpl; [now rewrite String.eqb_refl|].
    now rewrite E.
Qed.

Lemma assoc_set_other : forall {A} k k' (v : A) obj,
  k' <> k -> JS.assoc k' (JS.set k v obj) = JS.assoc k' obj.
Proof.
  intros A k k' v obj H. induction obj as [|[k0 v0] r IH]; simpl.
  - destruct (String.eqb_spec k' k); congruence.
  - destruct (String.eqb_spec k k0); simpl.
    + subst k0. destruct (String.eqb_spec k' k); congruence.
    + now rewrite IH.
Qed.

Lemma set_keys_NoDup : forall {A} k (v : A) obj,
  NoDup (map fst obj) -> NoDup (map fst (JS.set k v obj)).
Proof.
  intros A k v. induction obj as [|[k0 v0] r IH]; cbn [JS.set map fst]; intros H.
  - constructor; [auto | constructor].
  - inversion H as [|? ? Hn Hr]; subst.
    destruct (String.eqb_spec k k0) as [->|Hk]; cbn [map fst]; [now constructor|].
    constructor; [|auto].
    intros Hin. apply in_map_iff in Hin. destruct Hin as [[k' v'] [E Hin]].
    cbn [fst] in E. subst k'. apply set_In in Hin. destruct Hin as [E|Hin].
    + inversion E. congruence.
    + apply Hn. apply in_map_iff. now exists (k0, v').
Qed.

End ObjectFacts.

(** ** Pricing *)
Module PricingFacts.
Import Pricing.
Local Open Scope float_scope.
Local Open Scope string_scope.

Lemma default_is_own : JS.get CLAUDE_PRICING "default" = JS.own sonnet.
Proof. reflexivity. Qed.

Lemma pricing_of_defined : forall model, pricing_of model <> JS.undefined.
Proof.
  intros model. unfold pricing_of.
  destruct (JS.get CLAUDE_PRICING model) eqn:E; try discriminate.
Qed.

Lemma pricing_of_key : forall model p,
  In (model, p) CLAUDE_PRICING -> pricing_of model = JS.own p.
Proof.
  intros model p H. unfold CLAUDE_PRICING in H. simpl in H.
  repeat (destruct H as [H|H]; [inversion H; subst; reflexivity|]).
  contradiction.
Qed.

Lemma number_or_zero_idem : forall x,
  JS.number_or_zero (Some (JS.number_or_zero x)) = JS.number_or_zero x.
Proof.
  intros [v|]; [|reflexivity]. unfold JS.number_or_zero at 2 3.
  destruct (JS.truthy_number v) eqn:E; [|reflexivity].
  unfold JS.number_or_zero. now rewrite E.
Qed.

Ltac float_absurd C :=
  apply (f_equal (fun x => (x =? 3)%float)) in C; vm_compute in C; discriminate C.

(** C1. For a model of the pricing table the cost of a usage record is the
    formula over its four counts, a missing count being zero: each count
    times its price per million, divided by a million, in binary64
    arithmetic, the four quotients added in order. A million input tokens
    and nothing else, at 3.00 per million, cost exactly 3. *)
Theorem calculateCost_of_table_entry :
  forall (u : Usage) (model : string) (p : Entry),
    In (model, p) CLAUDE_PRICING ->
    calculateCost (Some u) model
    = cost_formula (JS.number_or_zero (input_tokens u))
                   (JS.number_or_zero (output_tokens u))
                   (JS.number_or_zero (cache_creation_input_tokens u))
                   (JS.number_or_zero (cache_read_input_tokens u)) p
    /\ calculateCost (Some u) model = calculateCost (Some (with_zeros u)) model
    /\ (input p = 3.0 -> calculateCost (Some million_input) model = 3.0).
Proof.
  intros u model p H.
  split; [|split].
  - unfold calculateCost. rewrite (pricing_of_key _ _ H). reflexivity.
  - unfold calculateCost, with_zeros.
    cbn [input_tokens output_tokens cache_creation_input_tokens cache_read_input_tokens].
    now rewrite !number_or_zero_idem.
  - unfold CLAUDE_PRICING in H. simpl in H.
    repeat (destruct H as [H|H];
            [inversion H; subst; intros C; first [reflexivity | float_absurd C]|]).
    contradiction.
Qed.
(** C1 at the default model of the table. *)
Lemma calculateCost_of_table_entry_witness :
  In ("claude-3-5-sonnet-20241022", sonnet) CLAUDE_PRICING
  /\ calculateCost (Some million_input) "claude-3-5-sonnet-20241022" = 3.0.
Proof.
  assert (H : In ("claude-3-5-sonnet-20241022", sonnet) CLAUDE_PRICING).
  { do 4 right. left. reflexivity. }
  split; [exact H|].
  apply (proj2 (proj2 (calculateCost_of_table_entry million_input _ _ H))).
  reflexivity.
Defined.

(** A model that is neither a key of the table nor a name inherited from
    [Object.prototype] is priced as [default]; the empty string is one. *)
Lemma unknown_model_is_priced_by_default : forall model,
  ~ In model (map fst CLAUDE_PRICING) -> ~ In model JS.Object_prototype ->
  pricing_of model = JS.own sonnet
  /\ forall u, calculateCost u model = calculateCost u "default".
Proof.
  intros model Hk Hp.
  assert (E : pricing_of model = JS.own sonnet).
  { unfold pricing_of, JS.get.
    rewrite (proj2 (ObjectFacts.assoc_None model CLAUDE_PRICING) Hk).
    destruct (existsb (String.eqb model) JS.Object_prototype) eqn:X; [|reflexivity].
    apply existsb_exists in X. destruct X as [k [Hin Hk']].
    apply String.eqb_eq in Hk'. subst k. contradiction. }
  split; [exact E|]. intros [u|]; [|reflexivity].
  unfold calculateCost. rewrite E. reflexivity.
Qed.

Lemma empty_model_is_priced_by_default : pricing_of "" = JS.own sonnet.
Proof. reflexivity. Qed.

(** A name inherited from [Object.prototype] is looked up successfully, and
    the prices read from what is found are not numbers. *)
Lemma inherited_name_costs_nan : forall name u,
  In name JS.Object_prototype ->
  pricing_of name = JS.inherited /\ calculateCost (Some u) name = nan.
Proof.
  intros name u H.
  assert (E : pricing_of name = JS.inherited).
  { unfold JS.Object_prototype in H. simpl in H.
    repeat (destruct H as [H|H]; [subst name; reflexivity|]). contradiction. }
  split; [exact E|]. unfold calculateCost. rewrite E. cbn [JS.number_field].
  now rewrite !Number.mul_nan, !Number.div_nan, !Number.add_nan_l.
Qed.

(** C2, at a failing input. ["constructor"] is not a key of the table, yet
    its lookup does not fall back to [default]: it finds the member every
    object inherits, so the cost of any usage record under it is [NaN],
    where the default entry gives 3 for a million input tokens. The parser
    passes such a model on as it is. *)
Theorem inherited_name_bypasses_default :
  ~ In "constructor" (map fst CLAUDE_PRICING)
  /\ pricing_of "constructor" = JS.inherited
  /\ pricing_of "default" = JS.own sonnet
  /\ (forall u, calculateCost (Some u) "constructor" = nan)
  /\ calculateCost (Some million_input) "default" = 3.0
  /\ option_map (fun c => PrimFloat.is_nan (Log.totalCost c))
                (UsagePricing.parseJSONLFile "a"
                   [Some (Fixtures.assistant_with_usage "constructor")])
     = Some true.
Proof.
  split; [|split; [|split; [|split; [|split]]]]; try reflexivity.
  - intros H. simpl in H. repeat (destruct H as [H|H]; [discriminate H|]). exact H.
  - intros u. apply inherited_name_costs_nan. now left.
Qed.

End PricingFacts.

(** ** The sort of the host *)
Module SortFacts.
Local Open Scope float_scope.

Section Generic.
Context {A : Type}.
Variable comparefn : A -> A -> float.

Lemma insert_perm : forall x l, Permutation (JS.insert comparefn x l) (x :: l).
Proof.
  intros x l. induction l as [|y r IH]; simpl; [reflexivity|].
  destruct (0 <? comparefn x y); [|reflexivity].
  rewrite IH. apply perm_swap.
Qed.

Lemma sort_perm : forall l, Permutation (JS.sort comparefn l) l.
Proof.
  induction l as [|x l IH]; simpl; [reflexivity|].
  rewrite insert_perm. now constructor.
Qed.

Lemma sort_In : forall x l, In x (JS.sort comparefn l) <-> In x l.
Proof.
  intros x l. split; apply Permutation_in; [|symmetry]; apply sort_perm.
Qed.

(** Elements that never compare positive among themselves keep their
    order: this is stability. *)
Lemma filter_insert : forall (P : A -> bool) x l,
  (forall y, In y l -> P x = true -> P y = true -> (0 <? comparefn x y) = false) ->
  filter P (JS.insert comparefn x l) = filter P (x :: l).
Proof.
  intros P x l. induction l as [|y r IH]; intros H; [reflexivity|].
  cbn [JS.insert]. destruct (0 <? comparefn x y) eqn:C; [|reflexivity].
  cbn [filter]. rewrite IH by (intros; apply H; simpl; auto). cbn [filter].
  destruct (P x) eqn:Px, (P y) eqn:Py; try reflexivity.
  rewrite H in C by (simpl; auto). discriminate.
Qed.

Lemma filter_sort : forall (P : A -> bool) l,
  (forall x y, In x l -> In y l -> P x = true -> P y = true ->
               (0 <? comparefn x y) = false) ->
  filter P (JS.sort comparefn l) = filter P l.
Proof.
  intros P l. induction l as [|x l IH]; intros H; [reflexivity|].
  cbn [JS.sort fold_right]. fold (JS.sort comparefn l).
  rewrite filter_insert.
  - cbn [filter]. rewrite IH by (intros; apply H; simpl; auto). reflexivity.
  - intros y Hy. apply H; simpl; auto. right. now apply sort_In.
Qed.

(** When the comparator is positive exactly where a key increases, the
    sorted list descends along the key. *)
Variable key : A -> Z.
Variable domain : A -> Prop.
Hypothesis comparefn_key : forall x y, domain x -> domain y ->
  (0 <? comparefn x y) = (key x <? key y)%Z.

Lemma insert_descending : forall x l,
  domain x -> Forall domain l ->
  StronglySorted (fun a b => (key b <= key a)%Z) l ->
  StronglySorted (fun a b => (key b <= key a)%Z) (JS.insert comparefn x l).
Proof.
  intros x l Dx. induction l as [|y r IH]; intros Dl Hs; simpl.
  - repeat constructor.
  - inversion Dl as [|? ? Dy Dr]; subst.
    inversion Hs as [|? ? Hr Hy]; subst.
    rewrite (comparefn_key _ _ Dx Dy).
    destruct (Z.ltb_spec (key x) (key y)) as [L|L].
    + constructor; [now apply IH|].
      apply Forall_forall. intros z Hz.
      apply (Permutation_in _ (insert_perm x r)) in Hz. destruct Hz as [<-|Hz]; [lia|].
      rewrite Forall_forall in Hy. now apply Hy.
    + constructor; [assumption|].
      constructor; [assumption|].
      rewrite Forall_forall in *. intros z Hz. specialize (Hy z Hz). lia.
Qed.

Lemma sort_descending : forall l,
  Forall domain l ->
  StronglySorted (fun a b => (key b <= key a)%Z) (JS.sort comparefn l).
Proof.
  induction l as [|x l IH]; intros D; simpl; [constructor|].
  inversion D as [|? ? Dx Dl]; subst.
  apply insert_descending; [exact Dx | | exact (IH Dl)].
  apply Forall_forall. intros z Hz. apply (proj1 (sort_In z l)) in Hz.
  rewrite Forall_forall in Dl. auto.
Qed.
End Generic.

End SortFacts.

(** ** Loops that can throw *)
Module ThrowFacts.
Import Log Aggregator Properties.
Local Open Scope float_scope.

Lemma forEach_cons : forall {A S} (f : S -> A -> option S) a l s,
  JS.forEach f (a :: l) s
  = match f s a with
    | Some s' => JS.forEach f l s'
    | None => None
    end.
Proof.
  intros A S f a l s. unfold JS.forEach. cbn [fold_left].
  destruct (f s a); [reflexivity|].
  induction l as [|x l IH]; [reflexivity | exact IH].
Qed.

Lemma forEach_app : forall {A S} (f : S -> A -> option S) l1 l2 s,
  JS.forEach f (l1 ++ l2) s
  = match JS.forEach f l1 s with
    | Some s' => JS.forEach f l2 s'
    | None => None
    end.
Proof.
  intros A S f. induction l1 as [|a l1 IH]; intros l2 s; [reflexivity|].
  cbn [app]. rewrite !forEach_cons. destruct (f s a); [apply IH | reflexivity].
Qed.

(** A property of the elements seen and of the state that every step
    keeps holds at the end of a loop that does not throw. *)
Lemma forEach_invariant : forall {A S} (f : S -> A -> option S)
                                 (P : list A -> S -> Prop),
  (forall seen s a s', P seen s -> f s a = Some s' -> P (seen ++ [a]) s') ->
  forall rest seen s s',
    P seen s -> JS.forEach f rest s = Some s' -> P (seen ++ rest) s'.
Proof.
  intros A S f P Hstep. induction rest as [|a rest IH]; intros seen s s' Hs Hf.
  - inversion Hf; subst. now rewrite app_nil_r.
  - rewrite forEach_cons in Hf. destruct (f s a) as [s1|] eqn:E; [|discriminate Hf].
    replace (seen ++ a :: rest) with ((seen ++ [a]) ++ rest) by now rewrite <- app_assoc.
    apply (IH _ s1); [now apply (Hstep seen s a) | exact Hf].
Qed.

Lemma add_conversation_throws : forall d c,
  add_conversation d c = None <-> undatable c = true.
Proof.
  intros d c. unfold add_conversation, undatable, has_cost.
  destruct (startTime c) as [[t|]|]; destruct (0 <? totalCost c);
    cbn [Date.toISODate_of andb]; split; intros H; try discriminate H; reflexivity.
Qed.

Lemma forEach_throws : forall convs d,
  JS.forEach add_conversation convs d = None <-> existsb undatable convs = true.
Proof.
  induction convs as [|c convs IH]; intros d.
  - cbn. split; intros H; discriminate H.
  - rewrite forEach_cons. cbn [existsb].
    destruct (add_conversation d c) as [d'|] eqn:E.
    + destruct (undatable c) eqn:U.
      * apply (add_conversation_throws d) in U. rewrite U in E. discriminate E.
      * cbn [orb]. apply IH.
    + apply add_conversation_throws in E. rewrite E. cbn [orb]. tauto.
Qed.

(** [aggregateDailyCosts] throws exactly when some conversation has a
    positive cost and an invalid start. *)
Lemma aggregate_throws : forall localeCompare convs,
  aggregateDailyCosts localeCompare convs = None <-> existsb undatable convs = true.
Proof.
  intros lc convs. unfold aggregateDailyCosts, dailyCosts_of.
  rewrite <- (forEach_throws convs []).
  destruct (JS.forEach add_conversation convs []); cbn [option_map];
    split; intros H; try discriminate H; reflexivity.
Qed.

Lemma report_throws : forall localeCompare LocalTZA today convs,
  createHTMLReport localeCompare LocalTZA today convs = None
  <-> existsb undatable convs = true.
Proof.
  intros lc tz today convs. rewrite <- (aggregate_throws lc). unfold createHTMLReport.
  destruct (aggregateDailyCosts lc convs); split; intros H; try discriminate H; reflexivity.
Qed.

End ThrowFacts.

(** ** The ranking *)
Module RankingFacts.
Import Log Aggregator Float64.
Local Open Scope float_scope.

Lemma by_cost_key : forall x y,
  has_cost x = true -> has_cost y = true ->
  (0 <? by_cost_descending x y) = (rank (totalCost x) <? rank (totalCost y))%Z.
Proof.
  intros x y Hx Hy. unfold by_cost_descending.
  rewrite Number.sub_sign by assumption. now apply Number.ltb_rank.
Qed.

Lemma eqb_positive : forall a x, (0 <? a) = true -> (a =? x) = true -> (0 <? x) = true.
Proof.
  intros a x Ha E. apply Number.positive_sf_iff. apply Number.positive_sf_iff in Ha.
  rewrite eqb_spec in E. unfold SFeqb in E.
  destruct (Prim2SF a) as [[]|[]| |[] ma ea]; try contradiction;
    destruct (Prim2SF x) as [[]|[]| |[] mx ex]; try discriminate; exact I.
Qed.

Lemma equal_costs_tie : forall x y v,
  has_cost x = true -> has_cost y = true ->
  (totalCost x =? v) = true -> (totalCost y =? v) = true ->
  (0 <? by_cost_descending x y) = false.
Proof.
  intros x y v Hx Hy Ex Ey. rewrite by_cost_key by assumption.
  pose proof (eqb_positive _ _ Hx Ex) as Hv.
  rewrite Number.eqb_rank in Ex, Ey by assumption.
  apply Z.eqb_eq in Ex, Ey. apply Z.ltb_ge. lia.
Qed.

Lemma StronglySorted_on : forall {A} (D : A -> Prop) (R1 R2 : A -> A -> Prop) l,
  (forall a b, D a -> D b -> R1 a b -> R2 a b) ->
  Forall D l -> StronglySorted R1 l -> StronglySorted R2 l.
Proof.
  intros A D R1 R2 l HR. induction l as [|x l IH]; intros HD HS; [constructor|].
  inversion HD as [|? ? Dx Dl]; subst. inversion HS as [|? ? Hl Hx]; subst.
  constructor; [auto|].
  rewrite Forall_forall in *. intros z Hz. apply HR; auto.
Qed.

Lemma ranking_has_cost : forall convs, Forall (fun c => has_cost c = true) (ranking convs).
Proof.
  intros convs. apply Forall_forall. intros c Hc.
  apply SortFacts.sort_In in Hc. now apply filter_In in Hc.
Qed.

(** C4. The ranking holds exactly the conversations of the collection
    whose cost is strictly positive, each as often as the collection does;
    it descends along the cost; and the conversations of any one cost stand
    in it in the order the collection has them. It is the list of the
    report, whenever the report is built, and its first five are the ones
    the summary prints. *)
Theorem ranking_sorted_stable : forall convs,
  (forall c, In c (ranking convs) <-> In c convs /\ (0 <? totalCost c) = true)
  /\ Permutation (ranking convs) (filter (fun c => 0 <? totalCost c) convs)
  /\ StronglySorted (fun a b => (totalCost b <=? totalCost a) = true) (ranking convs)
  /\ (forall v,
        filter (fun c => totalCost c =? v) (ranking convs)
        = filter (fun c => totalCost c =? v) (filter (fun c => 0 <? totalCost c) convs))
  /\ top5 (displaySummary convs) = firstn 5 (ranking convs)
  /\ (forall localeCompare LocalTZA today,
        match createHTMLReport localeCompare LocalTZA today convs with
        | Some report => conversationsWithCosts report = ranking convs
        | None => existsb Properties.undatable convs = true
        end).
Proof.
  intros convs.
  split.
  { intros c. unfold ranking. rewrite SortFacts.sort_In. apply filter_In. }
  split; [apply SortFacts.sort_perm|].
  split.
  { apply StronglySorted_on with
      (D := fun c => has_cost c = true)
      (R1 := fun a b => (rank (totalCost b) <= rank (totalCost a))%Z).
    - intros a b Ha Hb H. rewrite Number.leb_rank by assumption. now apply Z.leb_le.
    - apply ranking_has_cost.
    - apply SortFacts.sort_descending with (domain := fun c => has_cost c = true).
      + apply by_cost_key.
      + apply Forall_forall. intros c Hc. now apply filter_In in Hc. }
  split.
  { intros v. apply SortFacts.filter_sort.
    intros x y Hx Hy Ex Ey. apply filter_In in Hx, Hy.
    now apply equal_costs_tie with (v := v). }
  split; [reflexivity|].
  intros lc tz today.
  destruct (createHTMLReport lc tz today convs) as [report|] eqn:E.
  - unfold createHTMLReport in E.
    destruct (aggregateDailyCosts lc convs); [|discriminate E].
    inversion E. reflexivity.
  - now apply ThrowFacts.report_throws in E.
Qed.

End RankingFacts.

(** ** The session parser *)
Module ParserFacts.
Import Log Parser Spec.
Local Open Scope string_scope.

(** What the blocks that do not look at costs leave alone. *)
Lemma metadata_block_cost : forall m st,
  st_totalCost (metadata_block m st) = st_totalCost st
  /\ st_messageCount (metadata_block m st) = st_messageCount st
  /\ st_firstUserMessage (metadata_block m st) = st_firstUserMessage st.
Proof.
  intros m st. unfold metadata_block, assign_if.
  destruct (is_type m "summary"); [|auto].
  destruct (JS.truthy_value (summary m)), (metadata m) as [md|]; simpl; auto;
    destruct (JS.truthy_value (thread_summary md)),
             (JS.truthy_value (metadata_summary md)); simpl; auto.
Qed.

Lemma user_block_cost : forall m st st',
  user_block m st = Some st' ->
  st_totalCost st' = st_totalCost st
  /\ st_messageCount st' = st_messageCount st
  /\ st_conversationTitle st' = st_conversationTitle st
  /\ st_summary st' = st_summary st.
Proof.
  intros m st st'. unfold user_block.
  destruct (is_type m "user" && _); [|intros H; inversion H; auto].
  destruct (JS.truthy_value (text m)) as [[t|]|]; intros H; inversion H; simpl; auto.
Qed.

(** The user block throws only on a user record. *)
Lemma user_block_throws : forall m st,
  user_block m st = None -> is_type m "user" = true.
Proof.
  intros m st. unfold user_block.
  destruct (is_type m "user"); [reflexivity|]. cbn [andb]. discriminate.
Qed.

Lemma time_block_fields : forall m st,
  st_totalCost (time_block m st) = st_totalCost st
  /\ st_messageCount (time_block m st) = st_messageCount st
  /\ st_conversationTitle (time_block m st) = st_conversationTitle st
  /\ st_summary (time_block m st) = st_summary st
  /\ st_firstUserMessage (time_block m st) = st_firstUserMessage st.
Proof.
  intros m st. unfold time_block. destruct (timestamp m); simpl; auto.
Qed.

Lemma truthy_substring0 : forall t,
  JS.truthy_string t = true -> JS.truthy_string (JS.substring0 100 t) = true.
Proof. intros [|c r] H; [discriminate | reflexivity]. Qed.

(** A record has one type. *)
Lemma one_type : forall m a b,
  is_type m a = true -> is_type m b = true -> a = b.
Proof.
  intros m a b. unfold is_type. destruct (type m) as [s|]; [|discriminate].
  intros Ha Hb. apply String.eqb_eq in Ha, Hb. congruence.
Qed.

(** The words of the specification and the functions of the scripts. *)
Lemma record_of_type_is_type : forall t m,
  record_of_type t (Some m) = if is_type m t then Some m else None.
Proof.
  intros t m. unfold record_of_type, is_type. destruct (type m) as [s|]; [|reflexivity].
  destruct (string_dec s t) as [E|E], (String.eqb_spec s t); congruence.
Qed.

Lemma given_truthy : forall v, given v = of_option (JS.truthy_value v).
Proof. intros [[[|c s]|]|]; reflexivity. Qed.

Lemma substring0_truncated : forall n s, JS.substring0 n s = truncated n s.
Proof.
  unfold JS.substring0, truncated.
  induction n as [|n IH]; intros [|c s]; cbn; try reflexivity. now rewrite IH.
Qed.


Lemma chosen_title_first_nonempty : forall st,
  chosen_title st
  = first_nonempty
      [st_conversationTitle st; st_summary st; JS.str (st_firstUserMessage st)]
      "Untitled conversation".
Proof.
  intros st. unfold chosen_title, JS.text_or, JS.string_or.
  destruct (st_conversationTitle st) as [[|c1 s1]|], (st_summary st) as [[|c2 s2]|],
    (st_firstUserMessage st) as [|c3 s3]; reflexivity.
Qed.

Section WithCostSource.
Variable turn_cost : Message -> option float.

Lemma cost_block_fields : forall m st,
  st_conversationTitle (cost_block turn_cost m st) = st_conversationTitle st
  /\ st_summary (cost_block turn_cost m st) = st_summary st
  /\ st_firstUserMessage (cost_block turn_cost m st) = st_firstUserMessage st.
Proof.
  intros m st. unfold cost_block. destruct (turn_cost m); simpl; auto.
Qed.

(** Lines that do not parse change nothing. *)
Lemma fold_skip_unparseable : forall lines st,
  fold_left (step turn_cost) lines st
  = fold_left (step turn_cost) (filter (fun l => negb (unparseable l)) lines) st.
Proof.
  induction lines as [|[m|] lines IH]; intros st; cbn [filter unparseable negb fold_left step];
    auto.
Qed.

(** The title candidates after one record. *)
Lemma process_titles : forall st m,
  st_conversationTitle (process turn_cost st m)
  = last (metadata_titles (Some m)) (st_conversationTitle st)
  /\ st_summary (process turn_cost st m)
     = last (summary_texts (Some m)) (st_summary st)
  /\ st_firstUserMessage (process turn_cost st m)
     = if JS.truthy_string (st_firstUserMessage st) then st_firstUserMessage st
       else match user_texts (Some m) with
            | t :: _ => truncated 100 t
            | [] => st_firstUserMessage st
            end.
Proof.
  intros st m.
  assert (Hm : st_conversationTitle (metadata_block m st)
               = last (metadata_titles (Some m)) (st_conversationTitle st)
               /\ st_summary (metadata_block m st)
                  = last (summary_texts (Some m)) (st_summary st)).
  { unfold metadata_block, metadata_titles, summary_texts, assign_if.
    rewrite record_of_type_is_type.
    destruct (is_type m "summary"); [|auto].
    rewrite !given_truthy.
    destruct (JS.truthy_value (summary m)), (metadata m) as [md|]; simpl; auto;
      rewrite !given_truthy;
      destruct (JS.truthy_value (thread_summary md)),
               (JS.truthy_value (metadata_summary md)); auto. }
  destruct Hm as [Ht Hs]. destruct (metadata_block_cost m st) as (_ & _ & Hf).
  unfold process.
  destruct (user_block m (metadata_block m st)) as [st'|] eqn:U.
  - destruct (time_block_fields m (cost_block turn_cost m st')) as (_ & _ & -> & -> & ->).
    destruct (cost_block_fields m st') as (-> & -> & ->).
    destruct (user_block_cost _ _ _ U) as (_ & _ & -> & ->).
    split; [exact Ht | split; [exact Hs|]].
    revert U. unfold user_block, user_texts. rewrite Hf, record_of_type_is_type.
    destruct (is_type m "user"), (JS.truthy_string (st_firstUserMessage st));
      cbn [andb negb]; try (intros U; inversion U; exact Hf).
    destruct (text m) as [[[|c s]|]|]; cbn; intros U; inversion U;
      try exact Hf. cbn. now rewrite substring0_truncated.
  - split; [exact Ht | split; [exact Hs|]]. rewrite Hf.
    revert U. unfold user_block, user_texts. rewrite Hf, record_of_type_is_type.
    destruct (is_type m "user"), (JS.truthy_string (st_firstUserMessage st));
      cbn [andb negb]; try discriminate.
    destruct (text m) as [[[|c s]|]|]; cbn; try discriminate. reflexivity.
Qed.

Lemma last_ignores_default : forall {A} (l : list A) d d', l <> [] -> last l d = last l d'.
Proof.
  induction l as [|x [|y l] IH]; intros d d' H; [contradiction|reflexivity|].
  apply IH. discriminate.
Qed.

Lemma last_app_default : forall {A} (l1 l2 : list A) d,
  last (l1 ++ l2) d = last l2 (last l1 d).
Proof.
  intros A l1. induction l1 as [|x l1 IH]; intros l2 d; [reflexivity|].
  destruct l1 as [|y l1].
  - destruct l2 as [|a l2]; [reflexivity|].
    change (last (a :: l2) d = last (a :: l2) x).
    apply last_ignores_default. discriminate.
  - change (last ((x :: y :: l1) ++ l2) d) with (last ((y :: l1) ++ l2) d).
    rewrite IH. reflexivity.
Qed.

Lemma user_texts_truthy : forall l t, In t (user_texts l) -> JS.truthy_string t = true.
Proof.
  intros l t. unfold user_texts. destruct (record_of_type "user" l) as [m|]; [|contradiction].
  destruct (text m) as [[[|c s]|]|]; cbn [In]; try contradiction.
  intros [<-|[]]. reflexivity.
Qed.

Lemma truncated_truthy : forall n t,
  JS.truthy_string t = true -> JS.truthy_string (truncated (S n) t) = true.
Proof. intros n [|c r] H; [discriminate | reflexivity]. Qed.

Lemma fold_titles : forall lines st,
  st_conversationTitle (fold_left (step turn_cost) lines st)
  = last (flat_map metadata_titles lines) (st_conversationTitle st)
  /\ st_summary (fold_left (step turn_cost) lines st)
     = last (flat_map summary_texts lines) (st_summary st)
  /\ st_firstUserMessage (fold_left (step turn_cost) lines st)
     = if JS.truthy_string (st_firstUserMessage st) then st_firstUserMessage st
       else match flat_map user_texts lines with
            | t :: _ => truncated 100 t
            | [] => st_firstUserMessage st
            end.
Proof.
  induction lines as [|[m|] lines IH]; intros st; cbn [fold_left step].
  - cbn. destruct (JS.truthy_string _); auto.
  - destruct (IH (process turn_cost st m)) as (-> & -> & ->).
    destruct (process_titles st m) as (-> & -> & ->).
    cbn [flat_map]. rewrite !last_app_default.
    split; [reflexivity | split; [reflexivity|]].
    destruct (JS.truthy_string (st_firstUserMessage st)) eqn:T.
    + now rewrite T.
    + destruct (user_texts (Some m)) as [|t ts] eqn:U.
      * rewrite T. reflexivity.
      * cbn [app]. rewrite (truncated_truthy 99 t); [reflexivity|].
        apply (user_texts_truthy (Some m)). rewrite U. now left.
  - apply IH.
Qed.

(** The title the parser chooses is the one the specification describes. *)
Lemma chosen_title_spec : forall lines,
  chosen_title (fold_left (step turn_cost) lines initial)
  = first_nonempty
      [captured_title lines; captured_summary lines;
       JS.str (captured_first_user_message lines)]
      "Untitled conversation".
Proof.
  intros lines. rewrite chosen_title_first_nonempty.
  destruct (fold_titles lines initial) as (-> & -> & ->). reflexivity.
Qed.

(** What [parseJSONLFile] returns, when it returns. *)
Lemma parse_inv : forall id lines c,
  parseJSONLFile turn_cost id lines = Some c ->
  let st := fold_left (step turn_cost) lines initial in
  exists title,
    chosen_title st = JS.str title
    /\ conversationId c = id
    /\ conversationName c = st_conversationName st
    /\ conversationTitle c = JS.substring0 100 (JS.replace_newlines title)
    /\ totalCost c = st_totalCost st
    /\ messageCount c = st_messageCount st
    /\ startTime c = st_startTime st
    /\ endTime c = st_endTime st
    /\ duration c
       = match st_endTime st, st_startTime st with
         | Some e, Some s => (Date.minus e s / 1000 / 60)%float
         | _, _ => 0%float
         end
    /\ projectName c = None.
Proof.
  intros id lines c. unfold parseJSONLFile, finish.
  destruct (chosen_title _) as [title|]; [|discriminate].
  intros H. inversion H. exists title. repeat split.
Qed.

(** It returns unless the title it chose is not a string. *)
Lemma parse_returns : forall id lines,
  parseJSONLFile turn_cost id lines = None <-> resolved_title lines = None.
Proof.
  intros id lines. unfold parseJSONLFile, finish, resolved_title.
  rewrite chosen_title_spec.
  destruct (first_nonempty _ _); split; intros H; try discriminate H; reflexivity.
Qed.


(** From here on the cost block is one of the two of the scripts: it
    counts assistant records only. *)
Hypothesis turn_is_assistant : forall m c,
  turn_cost m = Some c -> is_type m "assistant" = true.

(** One record adds its cost and counts once when it is a turn, and
    changes neither the total nor the count when it is not. *)
Lemma process_cost : forall st m,
  st_totalCost (process turn_cost st m)
  = match turn_cost m with
    | Some c => (st_totalCost st + c)%float
    | None => st_totalCost st
    end
  /\ st_messageCount (process turn_cost st m)
     = match turn_cost m with
       | Some _ => S (st_messageCount st)
       | None => st_messageCount st
       end.
Proof.
  intros st m. unfold process.
  destruct (metadata_block_cost m st) as (Hc' & Hn' & _).
  destruct (user_block m (metadata_block m st)) as [st'|] eqn:U.
  - destruct (time_block_fields m (cost_block turn_cost m st')) as (-> & -> & _).
    destruct (user_block_cost _ _ _ U) as (Hc & Hn & _).
    unfold cost_block. destruct (turn_cost m); simpl; rewrite ?Hc, ?Hn, ?Hc', ?Hn'; auto.
  - apply user_block_throws in U.
    destruct (turn_cost m) as [c|] eqn:T; [|auto].
    apply turn_is_assistant in T.
    pose proof (one_type m _ _ U T) as E. discriminate E.
Qed.

Lemma fold_cost : forall lines st,
  st_totalCost (fold_left (step turn_cost) lines st)
  = fold_left PrimFloat.add (turn_costs turn_cost lines) (st_totalCost st)
  /\ st_messageCount (fold_left (step turn_cost) lines st)
     = List.length (turn_costs turn_cost lines) + st_messageCount st.
Proof.
  induction lines as [|[m|] lines IH]; intros st; cbn [fold_left step]; [auto| |apply IH].
  destruct (IH (process turn_cost st m)) as [-> ->].
  destruct (process_cost st m) as [-> ->].
  unfold turn_costs. cbn [flat_map]. fold (turn_costs turn_cost lines).
  destruct (turn_cost m); cbn [of_option app fold_left List.length]; split; auto; lia.
Qed.

(** The total and the count of a parsed file. *)
Lemma parse_cost : forall id lines c,
  parseJSONLFile turn_cost id lines = Some c ->
  totalCost c = fold_left PrimFloat.add (turn_costs turn_cost lines) 0%float
  /\ messageCount c = List.length (turn_costs turn_cost lines).
Proof.
  intros id lines c H. destruct (parse_inv id lines c H) as (t & _ & _ & _ & _ & -> & -> & _).
  destruct (fold_cost lines initial) as [-> ->]. cbn [initial st_totalCost st_messageCount].
  split; [reflexivity | lia].
Qed.

(** A file without turns has cost zero. *)
Lemma no_turn_no_cost : forall id lines c,
  parseJSONLFile turn_cost id lines = Some c ->
  messageCount c = 0 -> totalCost c = 0%float.
Proof.
  intros id lines c Hp H. destruct (parse_cost id lines c Hp) as [Hc Hn].
  rewrite Hn in H. rewrite Hc.
  destruct (turn_costs turn_cost lines); [reflexivity | discriminate].
Qed.
End WithCostSource.

End ParserFacts.

(** ** Strings of the title *)
Module TitleFacts.
Import Spec.

Lemma substring0_length : forall n s, String.length (JS.substring0 n s) <= n.
Proof.
  unfold JS.substring0. induction n as [|n IH]; intros [|c r]; simpl; try lia.
  specialize (IH r). lia.
Qed.



(** A prefix of a string: the string cut somewhere. *)
Lemma substring0_prefix : forall n s,
  exists rest, s = (JS.substring0 n s ++ rest)%string
               /\ (String.length s <= n -> rest = EmptyString).
Proof.
  unfold JS.substring0. induction n as [|n IH]; intros [|c r].
  - exists EmptyString. auto.
  - exists (String c r). split; [reflexivity|]. cbn. lia.
  - exists EmptyString. auto.
  - destruct (IH r) as [rest [E H]]. exists rest. cbn [String.substring String.append].
    split; [now rewrite <- E|]. cbn [String.length]. intros L. apply H. lia.
Qed.

End TitleFacts.

(** ** The parsers of the two scripts *)
Module ScriptFacts.
Import Log Parser Spec.
Local Open Scope string_scope.

Lemma cost_field_turn : forall m c,
  CostField.turn_cost m = Some c
  <-> is_type m "assistant" = true /\ costUSD m = Some c /\ JS.truthy_number c = true.
Proof.
  intros m c. unfold CostField.turn_cost.
  destruct (is_type m "assistant"); [|intuition congruence].
  destruct (costUSD m) as [v|]; [|intuition congruence].
  destruct (JS.truthy_number v) eqn:T; split.
  - intros H. inversion H; subst. auto.
  - intros (_ & H & _). exact H.
  - intros H. discriminate H.
  - intros (_ & H & T'). inversion H; subst. congruence.
Qed.

Lemma usage_pricing_turn : forall m c,
  UsagePricing.turn_cost m = Some c
  <-> is_type m "assistant" = true
      /\ exists p u mdl,
           message m = Some p /\ usage p = Some u /\ model p = Some mdl
           /\ JS.truthy_string mdl = true
           /\ c = Pricing.calculateCost (Some u) mdl.
Proof.
  intros m c. unfold UsagePricing.turn_cost, JS.truthy_field. split.
  - destruct (is_type m "assistant"); [|intros H; discriminate H].
    destruct (message m) as [p|]; [|intros H; discriminate H].
    destruct (usage p) as [u|] eqn:U; [|intros H; discriminate H].
    destruct (model p) as [mdl|] eqn:M; [|intros H; discriminate H].
    destruct (JS.truthy_string mdl) eqn:T; [|intros H; discriminate H].
    intros H. inversion H; subst. split; [reflexivity|]. exists p, u, mdl. auto.
  - intros (-> & p & u & mdl & -> & -> & -> & -> & ->). reflexivity.
Qed.

Lemma cost_field_is_assistant : forall m c,
  CostField.turn_cost m = Some c -> is_type m "assistant" = true.
Proof. intros m c H. now apply cost_field_turn in H. Qed.

Lemma usage_pricing_is_assistant : forall m c,
  UsagePricing.turn_cost m = Some c -> is_type m "assistant" = true.
Proof. intros m c H. now apply usage_pricing_turn in H. Qed.

Lemma cost_field_parse_cost : forall id lines c,
  CostField.parseJSONLFile id lines = Some c ->
  totalCost c = fold_left PrimFloat.add (turn_costs CostField.turn_cost lines) 0%float
  /\ messageCount c = List.length (turn_costs CostField.turn_cost lines).
Proof. exact (ParserFacts.parse_cost _ cost_field_is_assistant). Qed.

Lemma usage_pricing_parse_cost : forall id lines c,
  UsagePricing.parseJSONLFile id lines = Some c ->
  totalCost c = fold_left PrimFloat.add (turn_costs UsagePricing.turn_cost lines) 0%float
  /\ messageCount c = List.length (turn_costs UsagePricing.turn_cost lines).
Proof. exact (ParserFacts.parse_cost _ usage_pricing_is_assistant). Qed.

Lemma usage_turn_count : forall lines,
  List.length (turn_costs UsagePricing.turn_cost lines)
  = List.length (filter usage_line lines).
Proof.
  induction lines as [|[m|] lines IH]; [reflexivity| |exact IH].
  unfold turn_costs. cbn [flat_map filter]. fold (turn_costs UsagePricing.turn_cost lines).
  rewrite length_app, IH.
  unfold usage_line, UsagePricing.turn_cost, JS.truthy_field.
  destruct (is_type m "assistant"); [|reflexivity]. cbn [andb].
  destruct (message m) as [p|]; [|reflexivity].
  destruct (usage p), (model p) as [mdl|]; try reflexivity.
  destruct (JS.truthy_string mdl); reflexivity.
Qed.

(** C6, as amended. Each script reads one cost source. For either script
    a parse returns unless the title it chose is not a string; the total it
    returns is the sum, in log order, of the costs of its turns and the
    count is their number; in the cost-field script a record is a turn
    exactly when it is an assistant record with a truthy [costUSD], which is
    its cost; in the pricing script exactly when it is an assistant record
    whose message has usage and a non-empty model, and its cost is
    [calculateCost] of the two. *)
Theorem each_script_reads_one_cost_source : forall id lines,
  match CostField.parseJSONLFile id lines with
  | Some c =>
      totalCost c
      = fold_left PrimFloat.add (turn_costs CostField.turn_cost lines) 0%float
      /\ messageCount c = List.length (turn_costs CostField.turn_cost lines)
  | None => resolved_title lines = None
  end
  /\ match UsagePricing.parseJSONLFile id lines with
     | Some c =>
         totalCost c
         = fold_left PrimFloat.add (turn_costs UsagePricing.turn_cost lines) 0%float
         /\ messageCount c = List.length (turn_costs UsagePricing.turn_cost lines)
     | None => resolved_title lines = None
     end
  /\ (forall m c,
        CostField.turn_cost m = Some c
        <-> is_type m "assistant" = true /\ costUSD m = Some c
            /\ JS.truthy_number c = true)
  /\ (forall m c,
        UsagePricing.turn_cost m = Some c
        <-> is_type m "assistant" = true
            /\ exists p u mdl,
                 message m = Some p /\ usage p = Some u /\ model p = Some mdl
                 /\ JS.truthy_string mdl = true
                 /\ c = Pricing.calculateCost (Some u) mdl).
Proof.
  intros id lines. split; [|split; [|split; [exact cost_field_turn | exact usage_pricing_turn]]].
  - destruct (CostField.parseJSONLFile id lines) as [c|] eqn:E.
    + now apply (cost_field_parse_cost id).
    + now apply ParserFacts.parse_returns in E.
  - destruct (UsagePricing.parseJSONLFile id lines) as [c|] eqn:E.
    + now apply (usage_pricing_parse_cost id).
    + now apply ParserFacts.parse_returns in E.
Qed.

(** C6, as stated, fails for both scripts: the cost-field script does not
    count an assistant record that has usage and a model but no [costUSD],
    and the pricing script does not count one that has only [costUSD]. *)
Lemma neither_script_supports_both_sources :
  ~ supports_both_cost_sources CostField.parseJSONLFile
  /\ ~ supports_both_cost_sources UsagePricing.parseJSONLFile.
Proof.
  split; intros H.
  - destruct (H "a" (Fixtures.assistant_with_usage "claude-3-5-sonnet-20241022")
                eq_refl) as [_ H2].
    destruct (H2 eq_refl _ _ eq_refl eq_refl) as [_ C]. vm_compute in C. discriminate.
  - destruct (H "a" Fixtures.assistant_with_cost eq_refl) as [H1 _].
    destruct (H1 _ eq_refl eq_refl) as [_ C]. vm_compute in C. discriminate.
Qed.

(** A file of assistant lines and of lines that do not parse has no title
    candidate, so its parse returns. *)
Lemma untitled : forall lines,
  Forall (fun l => usage_line l = true \/ unparseable l = true) lines ->
  resolved_title lines = Some "Untitled conversation".
Proof.
  intros lines H.
  assert (E : flat_map metadata_titles lines = [] /\ flat_map summary_texts lines = []
              /\ flat_map user_texts lines = []).
  { induction H as [|l lines Hl _ IH]; [auto|]. destruct IH as (I1 & I2 & I3).
    cbn [flat_map]. rewrite I1, I2, I3, !app_nil_r.
    destruct l as [m|]; [|auto]. destruct Hl as [Hl|Hl]; [|discriminate Hl].
    unfold usage_line in Hl. apply andb_true_iff in Hl. destruct Hl as [Ht _].
    unfold metadata_titles, summary_texts, user_texts.
    rewrite !ParserFacts.record_of_type_is_type.
    destruct (is_type m "summary") eqn:S;
      [pose proof (ParserFacts.one_type m _ _ S Ht) as C; discriminate C|].
    destruct (is_type m "user") eqn:U;
      [pose proof (ParserFacts.one_type m _ _ U Ht) as C; discriminate C|].
    auto. }
  destruct E as (E1 & E2 & E3).
  unfold resolved_title, captured_title, captured_summary, captured_first_user_message.
  rewrite E1, E2, E3. reflexivity.
Qed.

(** C7. The turn count of a file is the number of its valid assistant
    lines with usage and model; the lines that do not parse change nothing
    of the result, in either script; so a file of N such lines and M
    unparseable ones is parsed to the end and has turn count N. *)
Theorem malformed_lines_are_skipped : forall id lines,
  match UsagePricing.parseJSONLFile id lines with
  | Some c => messageCount c = List.length (filter usage_line lines)
  | None => resolved_title lines = None
  end
  /\ UsagePricing.parseJSONLFile id lines
     = UsagePricing.parseJSONLFile id (filter (fun l => negb (unparseable l)) lines)
  /\ CostField.parseJSONLFile id lines
     = CostField.parseJSONLFile id (filter (fun l => negb (unparseable l)) lines)
  /\ (forall N M,
        Forall (fun l => usage_line l = true \/ unparseable l = true) lines ->
        List.length (filter usage_line lines) = N ->
        List.length (filter unparseable lines) = M ->
        List.length lines = N + M
        /\ option_map messageCount (UsagePricing.parseJSONLFile id lines) = Some N).
Proof.
  intros id lines.
  assert (Hn : match UsagePricing.parseJSONLFile id lines with
               | Some c => messageCount c = List.length (filter usage_line lines)
               | None => resolved_title lines = None
               end).
  { destruct (UsagePricing.parseJSONLFile id lines) as [c|] eqn:E.
    - rewrite (proj2 (usage_pricing_parse_cost id lines c E)). apply usage_turn_count.
    - now apply ParserFacts.parse_returns in E. }
  split; [exact Hn | split; [|split]].
  - unfold UsagePricing.parseJSONLFile, parseJSONLFile.
    now rewrite ParserFacts.fold_skip_unparseable.
  - unfold CostField.parseJSONLFile, parseJSONLFile.
    now rewrite ParserFacts.fold_skip_unparseable.
  - intros N M HF HN HM. split.
    + subst N M. clear Hn. induction HF as [|l lines Hl HF IH]; [reflexivity|].
      cbn [filter List.length].
      destruct l as [m|].
      * destruct Hl as [Hl|Hl]; [|discriminate]. rewrite Hl.
        cbn [unparseable List.length]. lia.
      * cbn [usage_line unparseable List.length]. lia.
    + pose proof (untitled lines HF) as Ht.
      destruct (UsagePricing.parseJSONLFile id lines) as [c|]; [|congruence].
      cbn [option_map]. congruence.
Qed.

(** C7 on a file of two valid lines and two that do not parse. *)
Lemma malformed_lines_are_skipped_witness :
  let lines := [None; Some (Fixtures.assistant_with_usage "claude-3-opus-latest");
                None; Some (Fixtures.assistant_with_usage "unknown-model")] in
  Forall (fun l => usage_line l = true \/ unparseable l = true) lines
  /\ List.length lines = 2 + 2
  /\ option_map messageCount (UsagePricing.parseJSONLFile "a" lines) = Some 2.
Proof.
  intros lines.
  assert (H : Forall (fun l => usage_line l = true \/ unparseable l = true) lines).
  { constructor; [right; reflexivity|].
    constructor; [left; reflexivity|].
    constructor; [right; reflexivity|].
    constructor; [left; reflexivity | constructor]. }
  split; [exact H|].
  exact (proj2 (proj2 (proj2 (malformed_lines_are_skipped "a" lines)))
               2 2 H eq_refl eq_refl).
Defined.






End ScriptFacts.

(** ** Daily aggregation *)
Module AggregatorFacts.
Import Log Aggregator Spec Properties.
Local Open Scope float_scope.

Lemma sum_costs_snoc : forall l c, sum_costs (l ++ [c]) = sum_costs l + totalCost c.
Proof. intros l c. unfold sum_costs. now rewrite fold_left_app. Qed.

Lemma on_day_key : forall c t k,
  startTime c = Some (Date.valid t) -> (0 <? totalCost c) = true ->
  on_day k c = String.eqb (Date.toISODate t) k.
Proof. intros c t k St Hc. unfold on_day, has_cost. now rewrite St, Hc. Qed.

(** A conversation the loop of [aggregateDailyCosts] passes over: one
    without a positive cost or without a start time. *)
Lemma add_conversation_skips : forall d c,
  (0 <? totalCost c) = false \/ startTime c = None -> add_conversation d c = Some d.
Proof.
  intros d c H. unfold add_conversation. destruct H as [H|H]; rewrite H; [|reflexivity].
  now destruct (startTime c).
Qed.

Lemma skipped_off_day : forall c,
  (0 <? totalCost c) = false \/ startTime c = None -> forall k, on_day k c = false.
Proof.
  intros c H k. unfold on_day, has_cost. destruct H as [H|H]; rewrite H.
  - reflexivity.
  - apply andb_false_r.
Qed.

Lemma add_conversation_invariant : forall seen d c d',
  day_invariant seen d -> add_conversation d c = Some d' ->
  day_invariant (seen ++ [c]) d'.
Proof.
  intros seen d c d' Hd.
  assert (Hskip : (forall k, on_day k c = false) -> day_invariant (seen ++ [c]) d).
  { intros Hoff k. specialize (Hd k). rewrite filter_app. cbn [filter].
    rewrite Hoff, app_nil_r. exact Hd. }
  unfold add_conversation.
  destruct (startTime c) as [[t|]|] eqn:St.
  - destruct (0 <? totalCost c) eqn:Hc.
    + cbn [Date.toISODate_of]. intros E. inversion E; subst d'. clear E.
      intros k. rewrite filter_app. cbn [filter]. rewrite (on_day_key c t k St Hc).
      destruct (String.eqb_spec (Date.toISODate t) k) as [E|E].
      * subst k. rewrite ObjectFacts.assoc_set_same.
        cbn [date conversations conversationCount bucket_totalCost].
        specialize (Hd (Date.toISODate t)).
        destruct (JS.assoc (Date.toISODate t) d) as [b|].
        -- destruct Hd as (H1 & H2 & H3 & H4 & H5).
           repeat split.
           ++ exact H1.
           ++ now rewrite H2.
           ++ intros H. now apply app_eq_nil in H.
           ++ rewrite length_app, H4. cbn [List.length]. lia.
           ++ now rewrite sum_costs_snoc, H5.
        -- cbn [date conversations conversationCount bucket_totalCost].
           rewrite Hd. repeat split. discriminate.
      * rewrite ObjectFacts.assoc_set_other by congruence.
        rewrite app_nil_r. apply Hd.
    + intros E. inversion E; subst d'. apply Hskip, skipped_off_day. now left.
  - destruct (0 <? totalCost c) eqn:Hc; cbn [Date.toISODate_of]; [discriminate|].
    intros E. inversion E; subst d'. apply Hskip, skipped_off_day. now left.
  - intros E. inversion E; subst d'. apply Hskip, skipped_off_day. now right.
Qed.

Lemma dailyCosts_invariant : forall convs d,
  dailyCosts_of convs = Some d -> day_invariant convs d.
Proof.
  intros convs d H.
  apply (ThrowFacts.forEach_invariant add_conversation day_invariant
           add_conversation_invariant convs [] [] d); [|exact H].
  intros k. reflexivity.
Qed.

Lemma dailyCosts_keys_NoDup : forall convs d,
  dailyCosts_of convs = Some d -> NoDup (map fst d).
Proof.
  intros convs d H.
  apply (ThrowFacts.forEach_invariant add_conversation
           (fun _ d => NoDup (map fst d))) with (rest := convs) (seen := []) (s := []);
    [|constructor|exact H].
  intros _ s c s' Hs. unfold add_conversation.
  destruct (startTime c) as [start|]; [|intros E; inversion E; now subst].
  destruct (0 <? totalCost c); [|intros E; inversion E; now subst].
  destruct (Date.toISODate_of start); [|discriminate].
  intros E. inversion E; subst. now apply ObjectFacts.set_keys_NoDup.
Qed.

(** What [aggregateDailyCosts] returns, when it returns. *)
Lemma aggregate_inv : forall localeCompare convs buckets,
  aggregateDailyCosts localeCompare convs = Some buckets ->
  exists d, dailyCosts_of convs = Some d
            /\ buckets = JS.sort (fun a b => localeCompare (date a) (date b)) (JS.values d).
Proof.
  intros lc convs buckets. unfold aggregateDailyCosts.
  destruct (dailyCosts_of convs) as [d|]; [|discriminate].
  intros E. inversion E. now exists d.
Qed.

Lemma bucket_of_day : forall localeCompare convs buckets,
  aggregateDailyCosts localeCompare convs = Some buckets ->
  exists d, dailyCosts_of convs = Some d
            /\ forall b, In b buckets <-> JS.assoc (date b) d = Some b.
Proof.
  intros lc convs buckets H. destruct (aggregate_inv lc convs buckets H) as (d & Hd & ->).
  exists d. split; [exact Hd|]. intros b.
  rewrite SortFacts.sort_In. unfold JS.values. rewrite in_map_iff. split.
  - intros [[k b'] [E Hin]]. cbn [snd] in E. subst b'.
    pose proof (ObjectFacts.In_assoc k b _ (dailyCosts_keys_NoDup convs d Hd) Hin) as Ha.
    pose proof (dailyCosts_invariant convs d Hd k) as Hi. rewrite Ha in Hi.
    destruct Hi as [Hk _]. now rewrite Hk.
  - intros Ha. exists (date b, b). split; [reflexivity|].
    now apply ObjectFacts.assoc_In.
Qed.

Lemma bucket_contents : forall localeCompare convs buckets b,
  aggregateDailyCosts localeCompare convs = Some buckets ->
  In b buckets ->
  conversations b = filter (on_day (date b)) convs
  /\ conversations b <> []
  /\ conversationCount b = List.length (conversations b)
  /\ bucket_totalCost b = sum_costs (conversations b).
Proof.
  intros lc convs buckets b H Hb.
  destruct (bucket_of_day lc convs buckets H) as (d & Hd & Hiff).
  apply Hiff in Hb.
  pose proof (dailyCosts_invariant convs d Hd (date b)) as Hi. rewrite Hb in Hi. tauto.
Qed.

Lemma day_without_bucket : forall localeCompare convs buckets k,
  aggregateDailyCosts localeCompare convs = Some buckets ->
  (forall b, In b buckets -> date b <> k) ->
  filter (on_day k) convs = [].
Proof.
  intros lc convs buckets k H Hno.
  destruct (bucket_of_day lc convs buckets H) as (d & Hd & Hiff).
  pose proof (dailyCosts_invariant convs d Hd k) as Hi.
  destruct (JS.assoc k d) as [b|] eqn:Ha; [|exact Hi].
  exfalso. destruct Hi as [Hk _]. apply (Hno b); [|exact Hk].
  apply Hiff. now rewrite Hk.
Qed.

Lemma on_day_contributes : forall convs k c,
  In c (filter (on_day k) convs) -> contributes convs k c.
Proof.
  intros convs k c Hc. apply filter_In in Hc. destruct Hc as [Hin Hon].
  unfold on_day in Hon. apply andb_true_iff in Hon. destruct Hon as [Hcost Hd].
  split; [exact Hin | split; [exact Hcost|]].
  destruct (startTime c) as [[t|]|]; try discriminate Hd.
  exists t. split; [reflexivity | now apply String.eqb_eq].
Qed.

(** Every conversation of every bucket has a positive cost and a start
    time on the date of the bucket. *)
Lemma bucket_members : forall localeCompare convs buckets b c,
  aggregateDailyCosts localeCompare convs = Some buckets ->
  In b buckets ->
  In c (conversations b) ->
  contributes convs (date b) c.
Proof.
  intros lc convs buckets b c H Hb Hc.
  destruct (bucket_contents lc convs buckets b H Hb) as (Hcs & _).
  rewrite Hcs in Hc. now apply on_day_contributes.
Qed.

(** No two buckets have the same date. *)
Lemma aggregate_dates_NoDup : forall localeCompare convs buckets,
  aggregateDailyCosts localeCompare convs = Some buckets ->
  NoDup (map date buckets).
Proof.
  intros lc convs buckets H. destruct (aggregate_inv lc convs buckets H) as (d & Hd & ->).
  apply (Permutation_NoDup (l := map date (JS.values d))).
  { apply Permutation_map. symmetry. apply SortFacts.sort_perm. }
  replace (map date (JS.values d)) with (map fst d);
    [exact (dailyCosts_keys_NoDup convs d Hd)|].
  unfold JS.values. rewrite map_map. apply map_ext_in.
  intros [k b] Hin. cbn [fst snd].
  pose proof (ObjectFacts.In_assoc k b _ (dailyCosts_keys_NoDup convs d Hd) Hin) as Ha.
  pose proof (dailyCosts_invariant convs d Hd k) as Hi. rewrite Ha in Hi.
  symmetry. apply Hi.
Qed.

(** A conversation without cost leaves the buckets as they are. *)
Lemma add_conversation_no_cost : forall d c,
  has_cost c = false -> add_conversation d c = Some d.
Proof. intros d c H. apply add_conversation_skips. now left. Qed.

Lemma fold_filter : forall (P : Conversation -> bool) l d,
  (forall c, In c l -> P c = false -> has_cost c = false) ->
  JS.forEach add_conversation (filter P l) d = JS.forEach add_conversation l d.
Proof.
  intros P. induction l as [|c l IH]; intros d H; [reflexivity|].
  cbn [filter].
  destruct (P c) eqn:Pc.
  - rewrite !ThrowFacts.forEach_cons. destruct (add_conversation d c); [|reflexivity].
    apply IH. intros; apply H; simpl; auto.
  - rewrite ThrowFacts.forEach_cons.
    rewrite (add_conversation_no_cost d c) by (apply H; simpl; auto).
    apply IH. intros; apply H; simpl; auto.
Qed.

Lemma filter_filter_has_cost : forall (P : Conversation -> bool) l,
  (forall c, In c l -> P c = false -> has_cost c = false) ->
  filter has_cost (filter P l) = filter has_cost l.
Proof.
  intros P. induction l as [|c l IH]; intros H; [reflexivity|].
  cbn [filter]. destruct (P c) eqn:Pc; cbn [filter].
  - rewrite IH by (intros; apply H; simpl; auto). reflexivity.
  - rewrite (H c) by (simpl; auto). apply IH. intros; apply H; simpl; auto.
Qed.

Lemma zero_has_no_cost : forall c, totalCost c = 0 -> has_cost c = false.
Proof. intros c H. unfold has_cost. now rewrite H. Qed.

(** The aggregation and the ranking of a collection without one of its
    conversations that the loop passes over. *)
Lemma aggregate_without_skipped : forall localeCompare before c after,
  (0 <? totalCost c) = false \/ startTime c = None ->
  aggregateDailyCosts localeCompare (before ++ c :: after)
  = aggregateDailyCosts localeCompare (before ++ after).
Proof.
  intros lc before c after H. unfold aggregateDailyCosts, dailyCosts_of.
  rewrite !ThrowFacts.forEach_app.
  destruct (JS.forEach add_conversation before []) as [d|]; [|reflexivity].
  now rewrite ThrowFacts.forEach_cons, add_conversation_skips.
Qed.

Lemma ranking_without_costless : forall before c after,
  (0 <? totalCost c) = false ->
  ranking (before ++ c :: after) = ranking (before ++ after).
Proof.
  intros before c after H. unfold ranking. rewrite !filter_app. cbn [filter].
  unfold has_cost at 2. now rewrite H.
Qed.

(** The scanner of the pricing script is the other scanner followed by
    the removal of the summaries without turns. *)
Lemma scan_without_zero_turn : forall parse root,
  Scanner.scan parse (fun c => Nat.ltb 0 (messageCount c)) root
  = without_zero_turn (Scanner.scan parse (fun _ => true) root).
Proof.
  intros parse [projects|]; [|reflexivity]. unfold Scanner.scan, without_zero_turn.
  induction projects as [|[p files] projects IH]; [reflexivity|].
  cbn [flat_map]. rewrite filter_app, <- IH. f_equal.
  unfold Scanner.scan_project. cbn [fst snd]. clear IH.
  induction files as [|f files IHf]; [reflexivity|].
  cbn [flat_map]. rewrite filter_app, <- IHf. f_equal.
  unfold Scanner.scan_file. destruct (parse (fst f) (snd f)); reflexivity.
Qed.

Lemma without_zero_turn_immaterial : forall localeCompare convs,
  (forall c, In c convs -> messageCount c = 0%nat -> totalCost c = 0) ->
  aggregateDailyCosts localeCompare (without_zero_turn convs)
  = aggregateDailyCosts localeCompare convs
  /\ ranking (without_zero_turn convs) = ranking convs.
Proof.
  intros lc convs H.
  assert (H' : forall c, In c convs ->
                 Nat.ltb 0 (messageCount c) = false -> has_cost c = false).
  { intros c Hc Hn. apply zero_has_no_cost, H; [exact Hc|].
    apply Nat.ltb_ge in Hn. lia. }
  split.
  - unfold aggregateDailyCosts, dailyCosts_of, without_zero_turn.
    now rewrite fold_filter.
  - unfold ranking, without_zero_turn. now rewrite filter_filter_has_cost.
Qed.

(** C10. When every summary without turns has cost zero, the daily
    aggregation and the ranking of the full collection are those of the
    collection without the summaries that have no turn; and dropping them
    at scan time is what the pricing script's scanner does to the
    collection the other scanner keeps. *)
Theorem retention_policies_agree : forall localeCompare convs,
  (forall c, In c convs -> messageCount c = 0%nat -> totalCost c = 0) ->
  aggregateDailyCosts localeCompare (without_zero_turn convs)
  = aggregateDailyCosts localeCompare convs
  /\ ranking (without_zero_turn convs) = ranking convs
  /\ (forall parse root,
        Scanner.scan parse (fun c => Nat.ltb 0 (messageCount c)) root
        = without_zero_turn (Scanner.scan parse (fun _ => true) root)).
Proof.
  intros lc convs H.
  destruct (without_zero_turn_immaterial lc convs H) as [H1 H2].
  split; [exact H1 | split; [exact H2 | apply scan_without_zero_turn]].
Qed.

(** A summary a script produced without a turn has cost zero. *)
Lemma produced_no_turn_no_cost : forall c,
  produced c -> messageCount c = 0%nat -> totalCost c = 0.
Proof.
  intros c Hp. induction Hp as [id lines c E|id lines c E|p c Hp IH]; intros Hn.
  - now apply (ParserFacts.no_turn_no_cost _ ScriptFacts.cost_field_is_assistant id lines).
  - now apply (ParserFacts.no_turn_no_cost _ ScriptFacts.usage_pricing_is_assistant id lines).
  - apply IH. exact Hn.
Qed.

(** C10 on a collection of one session with turns and one without. *)
Lemma retention_policies_agree_witness :
  let convs := [Fixtures.session "a" 3 2 (Some Fixtures.late_october);
                Fixtures.session "b" 0 0 None] in
  (forall c, In c convs -> messageCount c = 0%nat -> totalCost c = 0)
  /\ aggregateDailyCosts Fixtures.code_unit_compare (without_zero_turn convs)
     = aggregateDailyCosts Fixtures.code_unit_compare convs
  /\ ranking (without_zero_turn convs) = ranking convs.
Proof.
  intros convs.
  assert (H : forall c, In c convs -> messageCount c = 0%nat -> totalCost c = 0).
  { intros c [<-|[<-|[]]]; simpl; intros E; [discriminate E | reflexivity]. }
  split; [exact H|].
  destruct (retention_policies_agree Fixtures.code_unit_compare convs H) as (H1 & H2 & _).
  split; [exact H1 | exact H2].
Defined.

(** C8. A summary a script produced with no turn is in no ranking and in
    no daily bucket, and the ranking and the daily aggregation are what
    they are without it. No summary without a positive cost, or without a
    start time, is in a daily bucket, and the daily aggregation is what it
    is without it: the same buckets with the same conversations, counts
    and totals. The count of a bucket is the number of its conversations
    and its total is the sum of their costs, each of them positive. *)
Theorem costless_sessions_are_excluded : forall localeCompare convs c,
  (produced c -> messageCount c = 0%nat ->
   ~ In c (ranking convs)
   /\ (forall buckets b,
         aggregateDailyCosts localeCompare convs = Some buckets ->
         In b buckets -> ~ In c (conversations b))
   /\ (forall before after, convs = before ++ c :: after ->
         ranking convs = ranking (before ++ after)
         /\ aggregateDailyCosts localeCompare convs
            = aggregateDailyCosts localeCompare (before ++ after)))
  /\ ((0 <? totalCost c) = false \/ startTime c = None ->
      (forall buckets b,
         aggregateDailyCosts localeCompare convs = Some buckets ->
         In b buckets -> ~ In c (conversations b))
      /\ (forall before after, convs = before ++ c :: after ->
            aggregateDailyCosts localeCompare convs
            = aggregateDailyCosts localeCompare (before ++ after)))
  /\ (forall buckets,
        aggregateDailyCosts localeCompare convs = Some buckets ->
        Forall (fun b =>
                  conversationCount b = List.length (conversations b)
                  /\ bucket_totalCost b
                     = fold_left (fun sum x => sum + totalCost x) (conversations b) 0
                  /\ Forall (fun x => (0 <? totalCost x) = true
                                      /\ exists t, startTime x = Some (Date.valid t)
                                                   /\ Date.toISODate t = date b)
                            (conversations b))
               buckets).
Proof.
  intros lc convs c.
  assert (Hb : (0 <? totalCost c) = false \/ startTime c = None ->
               (forall buckets b, aggregateDailyCosts lc convs = Some buckets ->
                                  In b buckets -> ~ In c (conversations b))
               /\ (forall before after, convs = before ++ c :: after ->
                     aggregateDailyCosts lc convs
                     = aggregateDailyCosts lc (before ++ after))).
  { intros Hc. split.
    - intros buckets b H Hin Hmem.
      destruct (bucket_members lc convs buckets b c H Hin Hmem) as (_ & Hpos & t & Ht & _).
      unfold has_cost in Hpos. destruct Hc; congruence.
    - intros before after ->. now apply aggregate_without_skipped. }
  split; [|split; [exact Hb|]].
  - intros Hp Hn. pose proof (produced_no_turn_no_cost c Hp Hn) as Hz.
    assert (Hcost : (0 <? totalCost c) = false) by now rewrite Hz.
    destruct (Hb (or_introl Hcost)) as [Hb1 Hb2].
    split; [|split; [exact Hb1|]].
    + intros Hin. pose proof (RankingFacts.ranking_has_cost convs) as Hr.
      rewrite Forall_forall in Hr. specialize (Hr c Hin).
      unfold has_cost in Hr. congruence.
    + intros before after E. split; [|now apply Hb2].
      rewrite E. now apply ranking_without_costless.
  - intros buckets H. apply Forall_forall. intros b Hin.
    destruct (bucket_contents lc convs buckets b H Hin) as (_ & _ & Hn & Ht).
    split; [exact Hn | split; [exact Ht|]].
    apply Forall_forall. intros x Hx.
    destruct (bucket_members lc convs buckets b x H Hin Hx) as (_ & Hpos & t & Hs & Hd).
    split; [exact Hpos | now exists t].
Qed.

Lemma scanned_is_produced : forall parse retained root c,
  (forall id lines x, parse id lines = Some x -> produced x) ->
  In c (Scanner.scan parse retained root) -> produced c.
Proof.
  intros parse retained [projects|] c Hp Hin; [|contradiction].
  unfold Scanner.scan in Hin. apply in_flat_map in Hin.
  destruct Hin as [[p files] [_ Hin]]. unfold Scanner.scan_project in Hin.
  apply in_flat_map in Hin. destruct Hin as [[id lines] [_ Hin]].
  unfold Scanner.scan_file in Hin. cbn [fst snd] in Hin.
  destruct (parse id lines) as [x|] eqn:E; [|contradiction].
  destruct (retained _); [|contradiction]. destruct Hin as [<-|[]].
  apply produced_tagged, (Hp id lines), E.
Qed.

(** For the logs of a corpus the condition of C10 holds, so what the
    pricing script aggregates and ranks is what it would aggregate and rank
    had its scanner kept every summary. *)
Corollary pricing_script_retention_is_immaterial : forall localeCompare root,
  let kept := Scanner.scan UsagePricing.parseJSONLFile (fun _ => true) root in
  aggregateDailyCosts localeCompare (UsagePricing.analyzeAllConversations root)
  = aggregateDailyCosts localeCompare kept
  /\ ranking (UsagePricing.analyzeAllConversations root) = ranking kept.
Proof.
  intros lc root kept. unfold UsagePricing.analyzeAllConversations.
  rewrite scan_without_zero_turn. fold kept.
  apply without_zero_turn_immaterial.
  intros c Hin. apply produced_no_turn_no_cost.
  apply (scanned_is_produced _ _ _ _ produced_usage_pricing Hin).
Qed.

(** C8 on a collection that holds the summary of an empty log. *)
Lemma costless_sessions_are_excluded_witness :
  let c := Fixtures.empty_summary in
  let a := Fixtures.session "a" 3 2 (Some Fixtures.late_october) in
  UsagePricing.parseJSONLFile "empty" [] = Some c
  /\ messageCount c = 0%nat
  /\ ~ In c (ranking [c; a])
  /\ ranking [c; a] = ranking [a]
  /\ aggregateDailyCosts Fixtures.code_unit_compare [c; a]
     = aggregateDailyCosts Fixtures.code_unit_compare [a]
  /\ option_map (map (fun b => (date b, conversationCount b, bucket_totalCost b)))
                (aggregateDailyCosts Fixtures.code_unit_compare [c; a])
     = Some [("2025-10-26"%string, 1%nat, 0 + 3)].
Proof.
  intros c a.
  assert (Hp : produced c) by now apply (produced_usage_pricing "empty" []).
  destruct (proj1 (costless_sessions_are_excluded Fixtures.code_unit_compare [c; a] c)
                  Hp eq_refl) as (H1 & _ & H3).
  destruct (H3 [] [a] eq_refl) as [H4 H5].
  split; [reflexivity|]. split; [reflexivity|]. split; [exact H1|].
  split; [exact H4|]. split; [exact H5|]. reflexivity.
Defined.

End AggregatorFacts.

(** ** The calendar *)
Module DateFacts.
Import Date.
Local Open Scope Z_scope.

Lemma year_of_era_bounds : forall doe, 0 <= doe < 146097 ->
  let yoe := (doe - doe / 1460 + doe / 36524 - doe / 146096) / 365 in
  let doy := doe - (365 * yoe + yoe / 4 - yoe / 100) in
  0 <= yoe <= 399 /\ 0 <= doy <= 365.
Proof.
  intros doe H yoe doy. subst doy yoe. Z.div_mod_to_equations. lia.
Qed.

(** The day a date names does not depend on how its day of month is
    reached: [MakeDay] of the year, month and day of month of a day, moved
    by [k] days of the month, is that day moved by [k]. *)
Lemma MakeDay_shift : forall t k,
  MakeDay (YearFromTime t) (MonthFromTime t) (DateFromTime t + k) = Day t + k.
Proof.
  intros t k. unfold MakeDay, YearFromTime, MonthFromTime, DateFromTime.
  generalize (Day t). intros z. unfold civil_of_day, day_of_civil. cbn [fst snd].
  set (era := (z + 719468) / 146097).
  set (doe := z + 719468 - era * 146097).
  assert (Hdoe : 0 <= doe < 146097) by (subst doe era; Z.div_mod_to_equations; lia).
  destruct (year_of_era_bounds doe Hdoe) as [Hy Hd].
  set (yoe := (doe - doe / 1460 + doe / 36524 - doe / 146096) / 365) in *.
  set (doy := doe - (365 * yoe + yoe / 4 - yoe / 100)) in *.
  set (mp := (5 * doy + 2) / 153).
  assert (Hmp : 0 <= mp <= 11) by (subst mp; Z.div_mod_to_equations; lia).
  assert (Hera : (yoe + era * 400) / 400 = era) by (Z.div_mod_to_equations; lia).
  destruct (Z.ltb_spec mp 10) as [L|L].
  - replace ((mp + 3 - 1) / 12) with 0 by (Z.div_mod_to_equations; lia).
    replace ((mp + 3 - 1) mod 12 + 1) with (mp + 3) by (Z.div_mod_to_equations; lia).
    destruct (Z.leb_spec (mp + 3) 2) as [L2|L2]; [lia|].
    destruct (Z.ltb_spec 2 (mp + 3)) as [L3|L3]; [|lia].
    rewrite Z.add_0_r, Z.add_0_r, Hera.
    replace (mp + 3 - 3) with mp by lia.
    replace (yoe + era * 400 - era * 400) with yoe by lia.
    subst doy doe. lia.
  - replace ((mp - 9 - 1) / 12) with 0 by (Z.div_mod_to_equations; lia).
    replace ((mp - 9 - 1) mod 12 + 1) with (mp - 9) by (Z.div_mod_to_equations; lia).
    destruct (Z.leb_spec (mp - 9) 2) as [L2|L2]; [|lia].
    destruct (Z.ltb_spec 2 (mp - 9)) as [L3|L3]; [lia|].
    rewrite Z.add_0_r.
    replace (yoe + era * 400 + 1 - 1) with (yoe + era * 400) by lia. rewrite Hera.
    replace (mp - 9 + 9) with mp by lia.
    replace (yoe + era * 400 - era * 400) with yoe by lia.
    subst doy doe. lia.
Qed.

Lemma day_decomposition : forall t, Day t * msPerDay + TimeWithinDay t = t.
Proof.
  intros t. unfold Day, TimeWithinDay, msPerDay. Z.div_mod_to_equations. lia.
Qed.

(** On a host whose offset from UTC never changes, [setDate] of the
    current day of the month minus [i] goes back [i] days exactly. *)
Lemma setDate_fixed_offset : forall offset t i,
  setDate (fun _ _ => offset) t (getDate (fun _ _ => offset) t - i) = t - i * msPerDay.
Proof.
  intros offset t i. unfold setDate, getDate, LocalTime, UTC, MakeDate.
  replace (DateFromTime (t + offset) - i) with (DateFromTime (t + offset) + - i) by lia.
  rewrite MakeDay_shift.
  pose proof (day_decomposition (t + offset)). lia.
Qed.

End DateFacts.

(** ** The report data and the printed summary *)
Module ReportFacts.
Import Log Aggregator Spec Fixtures.
Local Open Scope float_scope.
Local Open Scope string_scope.

(** What [createHTMLReport] computes, when it does not throw. *)
Lemma report_inv : forall localeCompare LocalTZA today convs report,
  createHTMLReport localeCompare LocalTZA today convs = Some report ->
  exists dailyData,
    aggregateDailyCosts localeCompare convs = Some dailyData
    /\ conversationsWithCosts report = ranking convs
    /\ report_totalCost report = sum_costs (ranking convs)
    /\ last30DaysData report
       = map (day_entry (dailyCostMap_of dailyData)) (getLast30Days LocalTZA today)
    /\ report_average report
       = (sum_costs (ranking convs)
          / JS.number_of_nat (List.length (ranking convs)))%float.
Proof.
  intros lc tz today convs report. unfold createHTMLReport.
  destruct (aggregateDailyCosts lc convs) as [dailyData|]; [|discriminate].
  intros E. inversion E. exists dailyData. repeat split.
Qed.

(** The series has thirty entries, whatever the collection, the clock and
    the time zone. *)
Lemma last30DaysData_length : forall localeCompare LocalTZA today convs report,
  createHTMLReport localeCompare LocalTZA today convs = Some report ->
  List.length (last30DaysData report) = 30%nat.
Proof.
  intros lc tz today convs report H.
  destruct (report_inv _ _ _ _ _ H) as (dailyData & _ & _ & _ & -> & _).
  unfold getLast30Days. now rewrite !length_map.
Qed.

(** On a host with a fixed offset from UTC the days of the series are
    today and the 29 UTC days before it, oldest first. *)
Lemma getLast30Days_fixed_offset : forall offset today,
  getLast30Days (fun _ _ => offset) today = utc_last_30_days today.
Proof.
  intros offset today. unfold getLast30Days, utc_last_30_days.
  apply map_ext. intros i. now rewrite DateFacts.setDate_fixed_offset.
Qed.

Lemma dailyCostMap_absent : forall data m d,
  (forall b, In b data -> date b <> d) ->
  JS.assoc d (fold_left (fun m b => JS.set (date b) (bucket_totalCost b, conversations b) m)
                        data m)
  = JS.assoc d m.
Proof.
  induction data as [|b data IH]; intros m d H; [reflexivity|].
  cbn [fold_left]. rewrite IH by (intros; apply H; simpl; auto).
  apply ObjectFacts.assoc_set_other. intros E. apply (H b); simpl; auto.
Qed.

(** A date of the series that has no bucket gets cost zero and no
    conversation. *)
Lemma day_entry_absent : forall data d,
  (forall b, In b data -> date b <> d) ->
  day_entry (dailyCostMap_of data) d
  = {| entry_date := d; cost := 0; entry_conversations := [] |}.
Proof.
  intros data d H. unfold day_entry, dailyCostMap_of.
  rewrite dailyCostMap_absent by exact H. reflexivity.
Qed.

(** A date that has one bucket gets the cost and the conversations of
    that bucket. *)
Lemma day_entry_present : forall data b,
  In b data -> NoDup (map date data) ->
  day_entry (dailyCostMap_of data) (date b)
  = {| entry_date := date b;
       cost := JS.number_or_zero (Some (bucket_totalCost b));
       entry_conversations := conversations b |}.
Proof.
  intros data b Hin Hnd. unfold day_entry, dailyCostMap_of.
  assert (H : forall m,
             JS.assoc (date b)
               (fold_left (fun m b => JS.set (date b) (bucket_totalCost b, conversations b) m)
                          data m)
             = Some (bucket_totalCost b, conversations b)).
  { induction data as [|b0 data IH]; intros m; [contradiction|].
    cbn [fold_left]. inversion Hnd as [|? ? Hn Hnd']; subst.
    destruct Hin as [->|Hin].
    - rewrite dailyCostMap_absent.
      + apply ObjectFacts.assoc_set_same.
      + intros b' Hb' E. apply Hn. rewrite <- E. now apply in_map.
    - now apply IH. }
  rewrite H. reflexivity.
Qed.

(** On a host with a fixed offset from UTC the series is what the
    specification describes: thirty entries, for today and the 29 UTC days
    before it, oldest first; a date without a bucket has cost zero and no
    conversation, a date with a bucket has its conversations and its cost. *)
Lemma daily_series_on_fixed_offset_host :
  forall localeCompare offset today convs dailyData report,
  aggregateDailyCosts localeCompare convs = Some dailyData ->
  createHTMLReport localeCompare (fun _ _ => offset) today convs = Some report ->
  let series := last30DaysData report in
  List.length series = 30%nat
  /\ map entry_date series = utc_last_30_days today
  /\ (forall e, In e series ->
        (forall b, In b dailyData -> date b <> entry_date e) ->
        cost e = 0 /\ entry_conversations e = [])
  /\ (forall e b, In e series -> In b dailyData -> date b = entry_date e ->
        cost e = JS.number_or_zero (Some (bucket_totalCost b))
        /\ entry_conversations e = conversations b).
Proof.
  intros lc offset today convs dailyData report Ha Hr series.
  assert (Hs : series = map (day_entry (dailyCostMap_of dailyData)) (utc_last_30_days today)).
  { subst series. destruct (report_inv _ _ _ _ _ Hr) as (dd & Ha' & _ & _ & -> & _).
    rewrite getLast30Days_fixed_offset. congruence. }
  split; [now apply (last30DaysData_length lc (fun _ _ => offset) today convs)|].
  split; [rewrite Hs, map_map; cbn [day_entry entry_date]; apply map_id|].
  split.
  - intros e He Hb. rewrite Hs in He. apply in_map_iff in He.
    destruct He as [d [<- _]]. cbn [day_entry entry_date] in Hb.
    rewrite (day_entry_absent _ _ Hb). auto.
  - intros e b He Hb Hd. rewrite Hs in He. apply in_map_iff in He.
    destruct He as [d [<- _]]. cbn [day_entry entry_date] in Hd. subst d.
    rewrite (day_entry_present _ _ Hb
               (AggregatorFacts.aggregate_dates_NoDup lc convs dailyData Ha)).
    auto.
Qed.

(** C3, at a failing input. On a host on Central European time, at
    2025-11-03T00:30:00Z, the thirty days of the series begin with
    2025-10-04 and leave out 2025-10-26, one of the 29 UTC days before
    today; a session of cost 3 that began on that day is in the daily
    aggregation and in no entry of the series. *)
Theorem last_30_days_skip_a_utc_day :
  In "2025-10-26" (utc_last_30_days early_november)
  /\ ~ In "2025-10-26" (getLast30Days central_europe early_november)
  /\ hd "" (getLast30Days central_europe early_november) = "2025-10-04"
  /\ hd "" (utc_last_30_days early_november) = "2025-10-05"
  /\ (forall localeCompare,
        option_map (map date)
                   (aggregateDailyCosts localeCompare [session "s" 3 1 (Some late_october)])
        = Some ["2025-10-26"]
        /\ option_map (fun report => map cost (last30DaysData report))
                      (createHTMLReport localeCompare central_europe early_november
                         [session "s" 3 1 (Some late_october)])
           = Some (repeat 0 30)).
Proof.
  split; [|split; [|split; [|split]]].
  - vm_compute. tauto.
  - intros H. vm_compute in H. repeat (destruct H as [H|H]; [discriminate H|]). exact H.
  - vm_compute. reflexivity.
  - vm_compute. reflexivity.
  - intros lc. split; vm_compute; reflexivity.
Qed.

(** The average of a collection without any cost-bearing session is not a
    number. *)
Lemma average_without_cost : forall convs,
  filter has_cost convs = [] ->
  summary_average (displaySummary convs) = nan.
Proof.
  intros convs H. unfold displaySummary. cbn [summary_average]. rewrite H. reflexivity.
Qed.

(** C5, at a failing input. A log whose only turn costs nothing gives the
    pricing script a collection of one session, and an empty log gives the
    cost-field script one too; [main] does not return early on either, and
    the average it prints and the average of the report are [NaN]. *)
Theorem average_is_nan_without_cost_bearing_session :
  forall localeCompare LocalTZA today,
    option_map (fun sr => (PrimFloat.is_nan (summary_average (fst sr)),
                           option_map (fun report =>
                                         PrimFloat.is_nan (report_average report))
                                      (snd sr)))
               (Scanner.main_of localeCompare LocalTZA today
                  (UsagePricing.analyzeAllConversations (Some free_corpus)))
    = Some (true, Some true)
    /\ option_map (fun sr => (PrimFloat.is_nan (summary_average (fst sr)),
                              option_map (fun report =>
                                            PrimFloat.is_nan (report_average report))
                                         (snd sr)))
                  (Scanner.main_of localeCompare LocalTZA today
                     (CostField.analyzeAllConversations
                        (Some [("project", [("empty", [])])])))
       = Some (true, Some true).
Proof.
  intros lc tz today. split; reflexivity.
Qed.

End ReportFacts.

(** ** The scripts on concrete logs *)
Module Examples.
Import Log Aggregator Fixtures.
Local Open Scope string_scope.

(** The end-to-end scenario: file A costs 1.5 + 1.5 = 3, file B has no
    turn; the ranking has one entry and the total is 3. *)
Example scenario_pricing_script :
  let convs := UsagePricing.analyzeAllConversations (Some scenario) in
  map conversationId convs = ["A"]
  /\ map totalCost convs = [3.0%float]
  /\ List.length (ranking convs) = 1
  /\ summary_totalCost (displaySummary convs) = 3.0%float
  /\ summary_average (displaySummary convs) = 3.0%float.
Proof. repeat split; reflexivity. Qed.

(** The scanner that keeps every summary gives the same ranking. *)
Example scenario_retaining_scanner :
  let kept := Scanner.scan UsagePricing.parseJSONLFile (fun _ => true) (Some scenario) in
  map conversationId kept = ["A"; "B"]
  /\ map conversationId (ranking kept) = ["A"].
Proof. split; reflexivity. Qed.

(** Four logs with less and less title information. *)
Example title_from_metadata :
  option_map conversationTitle
    (UsagePricing.parseJSONLFile "a"
       [Some (user_says "first question");
        Some (summary_record (Some "free text") (Some (titled (Some "thread") (Some "meta"))));
        None])
  = Some "meta".
Proof. reflexivity. Qed.

Example title_from_summary :
  option_map conversationTitle
    (UsagePricing.parseJSONLFile "a"
       [Some (user_says "first question");
        Some (summary_record (Some "free text") (Some (titled None None)))])
  = Some "free text".
Proof. reflexivity. Qed.

Example title_from_first_user_message :
  option_map conversationTitle
    (CostField.parseJSONLFile "a"
       [Some blank; Some (user_says ("first" ++ String "010" "question"));
        Some (user_says "second question")])
  = Some "first question".
Proof. reflexivity. Qed.

Example title_untitled :
  option_map conversationTitle (CostField.parseJSONLFile "a" [None; Some blank])
  = Some "Untitled conversation".
Proof. reflexivity. Qed.

(** Equal costs keep the order of the collection. *)
Example ranking_of_ties :
  map conversationId
      (ranking [session "a" 1 1 None; session "b" 2 1 None; session "c" 1 1 None;
                session "d" 2 1 None; session "e" 0 1 None; session "f" 5 1 None])
  = ["f"; "b"; "d"; "a"; "c"].
Proof. reflexivity. Qed.

(** On a host in UTC the series of the failing clock of C3 is complete. *)
Example series_on_utc_host :
  getLast30Days utc early_november = Spec.utc_last_30_days early_november
  /\ option_map (fun report => map cost (last30DaysData report))
                (createHTMLReport code_unit_compare utc early_november
                   [session "s" 3 1 (Some late_october)])
     = Some (repeat 0%float 21 ++ [3.0%float] ++ repeat 0%float 8)%list.
Proof. split; reflexivity. Qed.

(** A file whose summary is a number is rejected by the parser and left
    out by the scanner, with the turn it has; the other files are kept. *)
Example rejected_file_is_left_out :
  UsagePricing.parseJSONLFile "C" [Some scenario_turn; Some summary_is_a_number] = None
  /\ map conversationId
         (UsagePricing.analyzeAllConversations
            (Some [("project-a", [("A", [Some scenario_turn]);
                                  ("C", [Some scenario_turn; Some summary_is_a_number])])]))
     = ["A"]
  /\ map conversationId
         (CostField.analyzeAllConversations
            (Some [("project-a", [("C", [Some summary_is_a_number]); ("B", [])])]))
     = ["B"].
Proof. repeat split; reflexivity. Qed.

(** A user message whose text is not a string ends the work on its line
    before the time range, as long as no first user message is captured:
    its timestamp, 2025-10-26, is read in the second log only. *)
Example text_that_is_not_a_string :
  option_map startTime
    (UsagePricing.parseJSONLFile "a" [Some text_is_true; Some free_turn])
  = Some (Some (Date.valid 1761991200000))
  /\ option_map startTime
       (UsagePricing.parseJSONLFile "a"
          [Some (user_says "hello"); Some text_is_true; Some free_turn])
     = Some (Some (Date.valid 1761472800000)).
Proof. split; reflexivity. Qed.

(** A first timestamp that is not a date stays as start and end, and the
    duration is not a number; with a positive cost the daily aggregation
    and the report throw, after the summary is printed. *)
Example timestamp_that_is_not_a_date :
  let parsed := UsagePricing.parseJSONLFile "a" [Some turn_without_date; Some scenario_turn] in
  option_map (fun c => (startTime c, endTime c, PrimFloat.is_nan (duration c))) parsed
  = Some (Some Date.invalid, Some Date.invalid, true)
  /\ (forall localeCompare LocalTZA today,
        let convs :=
          UsagePricing.analyzeAllConversations
            (Some [("project", [("a", [Some turn_without_date; Some scenario_turn])])]) in
        aggregateDailyCosts localeCompare convs = None
        /\ option_map (fun sr => (summary_totalCost (fst sr), snd sr))
                      (Scanner.main_of localeCompare LocalTZA today convs)
           = Some (6.0%float, None)).
Proof. split; [reflexivity | intros; split; reflexivity]. Qed.

End Examples.


(** ** Binary64: what keeps a number from being negative or [NaN] *)
Module SignFacts.
Import Sign.
Local Open Scope Z_scope.

Lemma shr_fexp_nonneg : forall m e l,
  0 <= m -> 0 <= shr_m (fst (shr_fexp prec emax m e l)).
Proof.
  intros m e l Hm. unfold shr_fexp, shr.
  destruct (fexp prec emax (Zdigits2 m + e) - e) as [|n|n]; simpl fst.
  - now rewrite Binary64.shr_m_of_loc.
  - rewrite Binary64.iter_shr_1_m by (now rewrite Binary64.shr_m_of_loc).
    rewrite Binary64.shr_m_of_loc. apply Z.div_pos; [exact Hm|].
    apply Z.pow_pos_nonneg; lia.
  - now rewrite Binary64.shr_m_of_loc.
Qed.

Lemma round_nearest_even_nonneg : forall m l, 0 <= m -> 0 <= round_nearest_even m l.
Proof.
  intros m [|[]] H; simpl; try lia. destruct (Z.even m); lia.
Qed.

(** Rounding a mantissa that is not negative, with the positive sign. *)
Lemma binary_round_aux_nonneg : forall m e l,
  0 <= m -> nonneg_sf (binary_round_aux prec emax false m e l).
Proof.
  intros m e l Hm. unfold binary_round_aux.
  pose proof (shr_fexp_nonneg m e l Hm) as H1.
  destruct (shr_fexp prec emax m e l) as [r1 e1]. simpl fst in H1.
  pose proof (round_nearest_even_nonneg _ (loc_of_shr_record r1) H1) as H2.
  pose proof (shr_fexp_nonneg _ e1 loc_Exact H2) as H3.
  destruct (shr_fexp prec emax _ e1 loc_Exact) as [r2 e2]. simpl fst in H3.
  destruct (shr_m r2); try lia; [exact I|].
  destruct (e2 <=? emax - prec); exact I.
Qed.

Lemma binary_round_nonneg : forall m e, nonneg_sf (binary_round prec emax false m e).
Proof.
  intros m e. unfold binary_round. destruct (shl_align m e _) as [mz ez].
  apply binary_round_aux_nonneg. lia.
Qed.

Lemma SFmul_nonneg : forall a p,
  nonneg_sf a -> positive_finite_sf p -> nonneg_sf (SF64mul a p).
Proof.
  intros [sa|[]| |[] ma ea] [sp|[]| |[] mp ep] Ha Hp; try contradiction.
  - destruct sa; exact I.
  - exact I.
  - unfold SF64mul, SFmul. cbn [xorb]. apply binary_round_aux_nonneg. lia.
Qed.

Lemma SFdiv_core_nonneg : forall m1 e1 m2 e2,
  0 <= fst (fst (SFdiv_core_binary prec emax (Z.pos m1) e1 (Z.pos m2) e2)).
Proof.
  intros m1 e1 m2 e2. unfold SFdiv_core_binary.
  set (s := e1 - e2 - _).
  set (m' := match s with Z.pos _ => Z.shiftl (Z.pos m1) s | 0 => Z.pos m1 | Z.neg _ => 0 end).
  assert (Hm : 0 <= m').
  { subst m'. destruct s; try lia. apply Z.shiftl_nonneg. lia. }
  pose proof (Z.div_pos m' (Z.pos m2) Hm ltac:(lia)) as Hq.
  unfold Z.div in Hq. destruct (Z.div_eucl m' (Z.pos m2)) as [q r]. exact Hq.
Qed.

Lemma SFdiv_nonneg : forall a p,
  nonneg_sf a -> positive_finite_sf p -> nonneg_sf (SF64div a p).
Proof.
  intros [sa|[]| |[] ma ea] [sp|[]| |[] mp ep] Ha Hp; try contradiction.
  - destruct sa; exact I.
  - exact I.
  - unfold SF64div, SFdiv. cbn [xorb].
    pose proof (SFdiv_core_nonneg ma ea mp ep) as H.
    destruct (SFdiv_core_binary prec emax (Z.pos ma) ea (Z.pos mp) ep) as [[mz ez] lz].
    apply binary_round_aux_nonneg. exact H.
Qed.

(** A positive finite number divided by zero, a positive number or
    positive infinity. *)
Lemma SFdiv_finite_nonneg : forall a d,
  positive_finite_sf a -> d = S754_zero false \/ Float64.positive_sf d ->
  nonneg_sf (SF64div a d).
Proof.
  intros [sa|[]| |[] ma ea] d Ha Hd; try contradiction.
  destruct Hd as [->|Hd]; [exact I|].
  destruct d as [sd|[]| |[] md ed]; try contradiction; [exact I|].
  unfold SF64div, SFdiv. cbn [xorb].
  pose proof (SFdiv_core_nonneg ma ea md ed) as H.
  destruct (SFdiv_core_binary prec emax (Z.pos ma) ea (Z.pos md) ed) as [[mz ez] lz].
  apply binary_round_aux_nonneg. exact H.
Qed.

Lemma SFadd_nonneg : forall a b,
  nonneg_sf a -> nonneg_sf b -> nonneg_sf (SF64add a b).
Proof.
  intros [sa|[]| |[] ma ea] [sb|[]| |[] mb eb] Ha Hb; try contradiction; try exact I.
  - destruct sa, sb; exact I.
  - unfold SF64add, SFadd, cond_Zopp. cbn [binary_normalize Z.add].
    apply binary_round_nonneg.
Qed.

(** The sum of two positive numbers is positive. *)
Lemma SFadd_positive : forall a b,
  valid_binary a = true -> valid_binary b = true ->
  Float64.positive_sf a -> Float64.positive_sf b ->
  Float64.positive_sf (SF64add a b).
Proof.
  intros [sa|[]| |[] ma ea] [sb|[]| |[] mb eb] Va Vb Ha Hb; try contradiction;
    try exact I.
  unfold SF64add, SFadd, cond_Zopp. cbn [binary_normalize Z.add].
  apply Binary64.binary_round_positive.
  destruct (Binary64.bounded_canonical _ _ Va) as (Ea & _).
  destruct (Binary64.bounded_canonical _ _ Vb) as (Eb & _).
  lia.
Qed.

Lemma nonneg_sf_leb : forall x, nonneg_sf x <-> SFleb (S754_zero false) x = true.
Proof.
  intros [[]|[]| |[] m e]; simpl; split; intros H;
    try discriminate H; try exact I; try contradiction; reflexivity.
Qed.

End SignFacts.

(** ** Numbers of the scripts that are never negative *)
Module NonNegative.
Import Sign.
Local Open Scope float_scope.

Lemma nonneg_iff : forall x, (0 <=? x) = true <-> nonneg_sf (Prim2SF x).
Proof.
  intros x. rewrite leb_spec, Number.zero_sf. symmetry. apply SignFacts.nonneg_sf_leb.
Qed.

Lemma positive_nonneg : forall x, (0 <? x) = true -> (0 <=? x) = true.
Proof.
  intros x H. apply nonneg_iff. apply Number.positive_sf_iff in H.
  destruct (Prim2SF x) as [[]|[]| |[] m e]; try contradiction; exact I.
Qed.

Lemma nonneg_not_nan : forall x, (0 <=? x) = true -> PrimFloat.is_nan x = false.
Proof.
  intros x H. apply nonneg_iff in H. unfold PrimFloat.is_nan.
  rewrite eqb_spec. unfold SFeqb.
  destruct (Prim2SF x) as [[]|[]| |[] m e]; try contradiction; try reflexivity.
  cbn [SFcompare]. rewrite Z.compare_refl, Pos.compare_cont_refl. reflexivity.
Qed.

Lemma add_nonneg : forall x y,
  (0 <=? x) = true -> (0 <=? y) = true -> (0 <=? x + y) = true.
Proof.
  intros x y Hx Hy. apply nonneg_iff. rewrite add_spec.
  apply SignFacts.SFadd_nonneg; now apply nonneg_iff.
Qed.

Lemma add_positive : forall x y,
  (0 <? x) = true -> (0 <? y) = true -> (0 <? x + y) = true.
Proof.
  intros x y Hx Hy. apply Number.positive_sf_iff. rewrite add_spec.
  apply SignFacts.SFadd_positive; auto using Prim2SF_valid;
    now apply Number.positive_sf_iff.
Qed.

Lemma zero_add_positive : forall y, (0 <? y) = true -> (0 <? 0 + y) = true.
Proof.
  intros y Hy. apply Number.positive_sf_iff. rewrite add_spec, Number.zero_sf.
  apply Number.positive_sf_iff in Hy.
  destruct (Prim2SF y) as [[]|[]| |[] m e]; try contradiction; exact I.
Qed.

(** A count times a price per million, divided by a million. *)
Lemma priced_nonneg : forall n p,
  (0 <=? n) = true -> positive_finite_sf (Prim2SF p) ->
  (0 <=? n * p / 1000000) = true.
Proof.
  intros n p Hn Hp. apply nonneg_iff. rewrite div_spec, mul_spec.
  apply SignFacts.SFdiv_nonneg; [|exact I].
  apply SignFacts.SFmul_nonneg; [now apply nonneg_iff | exact Hp].
Qed.

Lemma div_nonneg : forall x p,
  (0 <=? x) = true -> positive_finite_sf (Prim2SF p) -> (0 <=? x / p) = true.
Proof.
  intros x p Hx Hp. apply nonneg_iff. rewrite div_spec.
  apply SignFacts.SFdiv_nonneg; [now apply nonneg_iff | exact Hp].
Qed.

Lemma number_or_zero_nonneg : forall x,
  Properties.natural x -> (0 <=? JS.number_or_zero x) = true.
Proof.
  intros [v|] H; [|reflexivity]. unfold JS.number_or_zero.
  destruct (JS.truthy_number v); [exact H | reflexivity].
Qed.


(** The number a length becomes is zero or positive. *)
Lemma number_of_nat_sign : forall n,
  Prim2SF (JS.number_of_nat n) = S754_zero false
  \/ Float64.positive_sf (Prim2SF (JS.number_of_nat n)).
Proof.
  intros n. unfold JS.number_of_nat. rewrite of_uint63_spec.
  pose proof (Uint63.to_Z_bounded (Uint63.of_Z (Z.of_nat n))) as [H _].
  destruct (Uint63.to_Z (Uint63.of_Z (Z.of_nat n))) as [|p|p]; [now left| |lia].
  right. cbn [binary_normalize]. apply Binary64.binary_round_positive.
  unfold emin, emax, prec. simpl. lia.
Qed.

End NonNegative.

(** ** More on the session parser *)
Module SessionFacts.
Import Log Parser Spec Properties.
Local Open Scope string_scope.

Lemma metadata_block_times : forall m st,
  st_startTime (metadata_block m st) = st_startTime st
  /\ st_endTime (metadata_block m st) = st_endTime st.
Proof.
  intros m st. unfold metadata_block, assign_if.
  destruct (is_type m "summary"); [|auto].
  destruct (JS.truthy_value (summary m)), (metadata m) as [md|]; simpl; auto;
    destruct (JS.truthy_value (thread_summary md)),
             (JS.truthy_value (metadata_summary md)); simpl; auto.
Qed.

(** The user block throws on the records [throws] tells, and otherwise
    leaves the times and the name alone and captures what [captures]
    tells. *)
Lemma user_block_spec : forall m st,
  (throws (JS.truthy_string (st_firstUserMessage st)) m = true /\ user_block m st = None /\ captures m = false)
  \/ (throws (JS.truthy_string (st_firstUserMessage st)) m = false
      /\ exists st', user_block m st = Some st'
                     /\ st_startTime st' = st_startTime st
                     /\ st_endTime st' = st_endTime st
                     /\ st_conversationName st' = st_conversationName st
                     /\ JS.truthy_string (st_firstUserMessage st')
                        = JS.truthy_string (st_firstUserMessage st) || captures m).
Proof.
  intros m st. unfold user_block, throws, captures, is_type.
  destruct (type m) as [ty|]; [destruct (String.eqb ty "user")|];
    destruct (JS.truthy_string (st_firstUserMessage st)) eqn:C; cbn [andb negb];
    destruct (text m) as [[[|c s]|]|]; cbn;
    try (left; repeat split; reflexivity);
    right; (split; [reflexivity|]); eexists; (split; [reflexivity|]);
    cbn; rewrite ?C; auto.
Qed.

Lemma time_block_name : forall m st,
  st_conversationName (time_block m st) = st_conversationName st.
Proof. intros m st. unfold time_block. destruct (timestamp m); reflexivity. Qed.

Lemma metadata_block_name : forall m st,
  st_conversationName (metadata_block m st)
  = last (names (Some m)) (st_conversationName st).
Proof.
  intros m st. unfold metadata_block, names, assign_if, ReportData.field_or.
  destruct (is_type m "summary"); [|reflexivity].
  destruct (JS.truthy_value (summary m)), (metadata m) as [md|]; simpl; auto;
    destruct (JS.truthy_value (thread_summary md)),
             (JS.truthy_value (metadata_summary md)); reflexivity.
Qed.

Section WithCostSource.
Variable turn_cost : Message -> option float.

Lemma cost_block_times : forall m st,
  st_startTime (cost_block turn_cost m st) = st_startTime st
  /\ st_endTime (cost_block turn_cost m st) = st_endTime st
  /\ st_conversationName (cost_block turn_cost m st) = st_conversationName st.
Proof.
  intros m st. unfold cost_block. destruct (turn_cost m); simpl; auto.
Qed.

Lemma process_times : forall st m,
  let read := if throws (JS.truthy_string (st_firstUserMessage st)) m then [] else of_option (timestamp m) in
  st_startTime (process turn_cost st m) = fold_left earlier read (st_startTime st)
  /\ st_endTime (process turn_cost st m) = fold_left later read (st_endTime st)
  /\ st_conversationName (process turn_cost st m)
     = last (names (Some m)) (st_conversationName st)
  /\ JS.truthy_string (st_firstUserMessage (process turn_cost st m)) = JS.truthy_string (st_firstUserMessage st) || captures m.
Proof.
  intros st m read. subst read. unfold process.
  destruct (metadata_block_times m st) as (Ms & Me).
  destruct (ParserFacts.metadata_block_cost m st) as (_ & _ & Mf).
  pose proof (metadata_block_name m st) as Mn.
  destruct (user_block_spec m (metadata_block m st)) as [(T & -> & C)|(T & st' & -> & Us & Ue & Un & Uc)];
    rewrite Mf in T; rewrite T.
  - cbn [fold_left]. rewrite Ms, Me, Mn, Mf, C, orb_false_r. auto.
  - destruct (cost_block_times m st') as (Cs & Ce & Cn).
    destruct (ParserFacts.cost_block_fields turn_cost m st') as (_ & _ & Cf).
    destruct (ParserFacts.time_block_fields m (cost_block turn_cost m st'))
      as (_ & _ & _ & _ & Tf).
    rewrite time_block_name, Cn, Un, Mn, Tf, Cf, Uc, Mf.
    unfold time_block. destruct (timestamp m) as [t|]; cbn [of_option fold_left].
    + cbn [set_times st_startTime st_endTime]. rewrite Cs, Ce, Us, Ue, Ms, Me. auto.
    + rewrite Cs, Ce, Us, Ue, Ms, Me. auto.
Qed.

Lemma fold_times : forall lines st,
  st_startTime (fold_left (step turn_cost) lines st)
  = fold_left earlier (timestamps_from (JS.truthy_string (st_firstUserMessage st)) lines) (st_startTime st)
  /\ st_endTime (fold_left (step turn_cost) lines st)
     = fold_left later (timestamps_from (JS.truthy_string (st_firstUserMessage st)) lines) (st_endTime st)
  /\ st_conversationName (fold_left (step turn_cost) lines st)
     = last (flat_map names lines) (st_conversationName st).
Proof.
  induction lines as [|[m|] lines IH]; intros st; cbn [fold_left step timestamps_from].
  - auto.
  - destruct (IH (process turn_cost st m)) as (-> & -> & ->).
    destruct (process_times st m) as (-> & -> & -> & ->).
    cbn [flat_map]. rewrite !fold_left_app.
    rewrite ParserFacts.last_app_default. auto.
  - apply IH.
Qed.
End WithCostSource.

(** An invalid start stays: no date is before it. *)
Lemma earlier_invalid : forall ds,
  fold_left earlier ds (Some Date.invalid) = Some Date.invalid.
Proof.
  induction ds as [|d ds IH]; [reflexivity|]. cbn [fold_left earlier].
  destruct d; exact IH.
Qed.

Lemma later_invalid : forall ds,
  fold_left later ds (Some Date.invalid) = Some Date.invalid.
Proof.
  induction ds as [|d ds IH]; [reflexivity|]. cbn [fold_left later].
  destruct d; exact IH.
Qed.

(** A valid start moves to the least of the valid dates that follow. *)
Lemma earlier_valid : forall ds s0,
  fold_left earlier ds (Some (Date.valid s0))
  = Some (Date.valid (fold_left Z.min (valid_times ds) s0)).
Proof.
  induction ds as [|d ds IH]; intros s0; [reflexivity|].
  cbn [fold_left earlier valid_times flat_map]. destruct d as [t|].
  - cbn [Date.ltb app fold_left]. rewrite <- IH.
    destruct (Z.ltb_spec t s0); do 3 f_equal; lia.
  - cbn [Date.ltb app]. apply IH.
Qed.

Lemma later_valid : forall ds e0,
  fold_left later ds (Some (Date.valid e0))
  = Some (Date.valid (fold_left Z.max (valid_times ds) e0)).
Proof.
  induction ds as [|d ds IH]; intros e0; [reflexivity|].
  cbn [fold_left later valid_times flat_map]. destruct d as [t|].
  - cbn [Date.ltb app fold_left]. rewrite <- IH.
    destruct (Z.ltb_spec e0 t); do 3 f_equal; lia.
  - cbn [Date.ltb app]. apply IH.
Qed.

Lemma least_spec : forall l s0,
  let s := fold_left Z.min l s0 in
  In s (s0 :: l) /\ forall t, In t (s0 :: l) -> (s <= t)%Z.
Proof.
  induction l as [|x l IH]; intros s0; cbn [fold_left].
  - split; [now left | intros t [<-|[]]; lia].
  - destruct (IH (Z.min s0 x)) as [H1 H2]. split.
    + destruct H1 as [H1|H1]; [|right; now right].
      rewrite <- H1. destruct (Z.min_spec s0 x) as [[_ ->]|[_ ->]];
        [now left | right; now left].
    + intros t Ht. pose proof (H2 (Z.min s0 x) (or_introl eq_refl)) as H0.
      destruct Ht as [<-|[<-|Ht]]; [lia | lia | apply H2; now right].
Qed.

Lemma greatest_spec : forall l e0,
  let e := fold_left Z.max l e0 in
  In e (e0 :: l) /\ forall t, In t (e0 :: l) -> (t <= e)%Z.
Proof.
  induction l as [|x l IH]; intros e0; cbn [fold_left].
  - split; [now left | intros t [<-|[]]; lia].
  - destruct (IH (Z.max e0 x)) as [H1 H2]. split.
    + destruct H1 as [H1|H1]; [|right; now right].
      rewrite <- H1. destruct (Z.max_spec e0 x) as [[_ ->]|[_ ->]];
        [right; now left | now left].
    + intros t Ht. pose proof (H2 (Z.max e0 x) (or_introl eq_refl)) as H0.
      destruct Ht as [<-|[<-|Ht]]; [lia | lia | apply H2; now right].
Qed.

End SessionFacts.

(** ** What a session summary records besides its cost *)
Module SummaryFacts.
Import Log Parser Spec Properties.
Local Open Scope string_scope.

Lemma parsed_times : forall turn_cost id lines c,
  parseJSONLFile turn_cost id lines = Some c ->
  startTime c = fold_left earlier (timestamps lines) None
  /\ endTime c = fold_left later (timestamps lines) None.
Proof.
  intros turn_cost id lines c H.
  destruct (ParserFacts.parse_inv turn_cost id lines c H)
    as (t & _ & _ & _ & _ & _ & _ & -> & -> & _).
  destruct (SessionFacts.fold_times turn_cost lines initial) as (-> & -> & _). auto.
Qed.

(** The time range of a parsed file, by the first date read. *)
Lemma time_range : forall turn_cost id lines c,
  parseJSONLFile turn_cost id lines = Some c ->
  match timestamps lines with
  | [] => startTime c = None /\ endTime c = None
  | Date.invalid :: _ =>
      startTime c = Some Date.invalid /\ endTime c = Some Date.invalid
  | Date.valid _ :: _ =>
      exists s e,
        startTime c = Some (Date.valid s) /\ endTime c = Some (Date.valid e)
        /\ In s (valid_times (timestamps lines))
        /\ In e (valid_times (timestamps lines))
        /\ forall t, In t (valid_times (timestamps lines)) -> (s <= t <= e)%Z
  end.
Proof.
  intros turn_cost id lines c H. destruct (parsed_times turn_cost id lines c H) as [-> ->].
  destruct (timestamps lines) as [|[t0|] ds]; cbn [fold_left earlier later].
  - auto.
  - rewrite SessionFacts.earlier_valid, SessionFacts.later_valid.
    destruct (SessionFacts.least_spec (valid_times ds) t0) as [S1 S2].
    destruct (SessionFacts.greatest_spec (valid_times ds) t0) as [E1 E2].
    eexists; eexists. split; [reflexivity|]. split; [reflexivity|].
    cbn [valid_times flat_map app]. fold (valid_times ds).
    split; [exact S1 | split; [exact E1|]]. intros t Ht. split; auto.
  - now rewrite SessionFacts.earlier_invalid, SessionFacts.later_invalid.
Qed.

(** X1. The time range of a parsed session depends on the first date the
    parser reads. Without any, start and end are [null]. When it is a
    valid date, start and end are the earliest and the latest of the valid
    dates read, whatever their order, and invalid ones are ignored. When
    it is an invalid date, start and end are that invalid date, whatever
    follows. The dates read are those of the records on which the body of
    the loop does not throw. *)
Theorem time_range_spans_the_timestamps : forall turn_cost id lines,
  match parseJSONLFile turn_cost id lines with
  | Some c =>
      match timestamps lines with
      | [] => startTime c = None /\ endTime c = None
      | Date.invalid :: _ =>
          startTime c = Some Date.invalid /\ endTime c = Some Date.invalid
      | Date.valid _ :: _ =>
          exists s e,
            startTime c = Some (Date.valid s) /\ endTime c = Some (Date.valid e)
            /\ In s (valid_times (timestamps lines))
            /\ In e (valid_times (timestamps lines))
            /\ forall t, In t (valid_times (timestamps lines)) -> (s <= t <= e)%Z
      end
  | None => resolved_title lines = None
  end.
Proof.
  intros turn_cost id lines.
  destruct (parseJSONLFile turn_cost id lines) as [c|] eqn:E.
  - now apply (time_range turn_cost id).
  - now apply ParserFacts.parse_returns in E.
Qed.

Lemma number_of_Z_nonneg : forall z, (0 <= z)%Z -> (0 <=? JS.number_of_Z z)%float = true.
Proof.
  intros z Hz. unfold JS.number_of_Z.
  destruct (Z.ltb_spec z 0) as [L|_]; [lia|].
  apply NonNegative.nonneg_iff. rewrite of_uint63_spec.
  destruct (Uint63.to_Z (Uint63.of_Z z)) as [|p|p] eqn:E; cbn [binary_normalize].
  - exact I.
  - apply SignFacts.binary_round_nonneg.
  - pose proof (Uint63.to_Z_bounded (Uint63.of_Z z)) as [H _]. rewrite E in H. lia.
Qed.

(** X2. The duration of a parsed session is zero when the parser reads no
    date; it is a number, zero or more, when the first date read is valid;
    and it is [NaN] when the first date read is invalid. *)
Theorem duration_is_never_negative : forall turn_cost id lines,
  match parseJSONLFile turn_cost id lines with
  | Some c =>
      match timestamps lines with
      | [] => duration c = 0%float
      | Date.invalid :: _ => PrimFloat.is_nan (duration c) = true
      | Date.valid _ :: _ =>
          (0 <=? duration c)%float = true /\ PrimFloat.is_nan (duration c) = false
      end
  | None => resolved_title lines = None
  end.
Proof.
  intros turn_cost id lines.
  destruct (parseJSONLFile turn_cost id lines) as [c|] eqn:E;
    [|now apply ParserFacts.parse_returns in E].
  pose proof (time_range turn_cost id lines c E) as Hr.
  destruct (ParserFacts.parse_inv turn_cost id lines c E)
    as (t & _ & _ & _ & _ & _ & _ & Hs & He & -> & _).
  rewrite <- Hs, <- He.
  destruct (timestamps lines) as [|[t0|] ds].
  - destruct Hr as [-> ->]. reflexivity.
  - destruct Hr as (s & e & -> & -> & Hin & _ & Hle). cbn [Date.minus].
    assert (H : (0 <=? JS.number_of_Z (e - s) / 1000 / 60)%float = true).
    { do 2 (apply NonNegative.div_nonneg; [|exact I]).
      apply number_of_Z_nonneg. specialize (Hle s Hin). lia. }
    split; [exact H | now apply NonNegative.nonneg_not_nan].
  - destruct Hr as [-> ->]. reflexivity.
Qed.

Lemma last_In : forall {A} (l : list A) d, l <> [] -> In (last l d) l.
Proof.
  induction l as [|x [|y l] IH]; intros d H; [contradiction | now left |].
  right. apply IH. discriminate.
Qed.

Lemma field_or_truthy : forall a b,
  JS.truthy_string b = true -> JS.truthy_string (ReportData.field_or a b) = true.
Proof.
  intros a b Hb. unfold ReportData.field_or, JS.truthy_field.
  destruct a as [s|]; [|exact Hb]. destruct (JS.truthy_string s) eqn:E; [exact E | exact Hb].
Qed.

Lemma names_truthy : forall l n, In n (names l) -> JS.truthy_string n = true.
Proof.
  intros [m|] n H; [|contradiction]. unfold names in H.
  destruct (is_type m "summary"); [|contradiction].
  destruct (metadata m) as [md|]; [|contradiction].
  destruct H as [<-|[]]. apply field_or_truthy, field_or_truthy. reflexivity.
Qed.

(** X3. The name of a parsed session is the one given by the last summary
    record that carries metadata (its working directory, else its cwd, else
    "Unknown"); it is empty exactly when no summary record carries
    metadata. *)
Theorem conversation_name_is_the_last_given : forall turn_cost id lines,
  match parseJSONLFile turn_cost id lines with
  | Some c =>
      conversationName c = last (flat_map names lines) ""
      /\ (JS.truthy_string (conversationName c) = false <-> flat_map names lines = [])
  | None => resolved_title lines = None
  end.
Proof.
  intros turn_cost id lines.
  destruct (parseJSONLFile turn_cost id lines) as [c|] eqn:P;
    [|now apply ParserFacts.parse_returns in P].
  assert (E : conversationName c = last (flat_map names lines) "").
  { destruct (ParserFacts.parse_inv turn_cost id lines c P) as (t & _ & _ & -> & _).
    now destruct (SessionFacts.fold_times turn_cost lines initial) as (_ & _ & ->). }
  split; [exact E|]. rewrite E. split.
  - intros H. destruct (flat_map names lines) as [|n ns] eqn:F; [reflexivity|].
    assert (Hin : In (last (n :: ns) "") (flat_map names lines)).
    { rewrite F. apply last_In. discriminate. }
    apply in_flat_map in Hin. destruct Hin as [l [_ Hn]].
    apply names_truthy in Hn. congruence.
  - intros ->. reflexivity.
Qed.

Lemma replace_newlines_truthy : forall s,
  JS.truthy_string s = true -> JS.truthy_string (JS.replace_newlines s) = true.
Proof. intros [|c r] H; [discriminate H | reflexivity]. Qed.

Lemma substring0_truthy : forall n s,
  JS.truthy_string s = true -> JS.truthy_string (JS.substring0 (S n) s) = true.
Proof. intros n [|c r] H; [discriminate H | reflexivity]. Qed.

Lemma truthy_length : forall s, JS.truthy_string s = true -> 1 <= String.length s.
Proof. intros [|c r] H; [discriminate H | simpl; lia]. Qed.

(** The title chosen after the loop is never the empty string. *)
Lemma chosen_title_truthy : forall st, JS.truthy_text (chosen_title st) = true.
Proof.
  intros st. unfold chosen_title, JS.text_or, JS.string_or.
  destruct (JS.truthy_text (st_conversationTitle st)) eqn:T; [exact T|].
  destruct (JS.truthy_text (st_summary st)) eqn:S; [exact S|].
  cbn [JS.truthy_text].
  destruct (JS.truthy_string (st_firstUserMessage st)) eqn:F; [exact F | reflexivity].
Qed.

(** X4. The title of a parsed session is never empty and has at most 100
    characters, so the label of its bar in the chart is the title itself,
    never the name of the directory or "Unknown". *)
Theorem title_is_never_empty : forall turn_cost id lines,
  match parseJSONLFile turn_cost id lines with
  | Some c =>
      1 <= String.length (conversationTitle c) <= 100
      /\ ReportData.label_of c = conversationTitle c
  | None => resolved_title lines = None
  end.
Proof.
  intros turn_cost id lines.
  destruct (parseJSONLFile turn_cost id lines) as [c|] eqn:P;
    [|now apply ParserFacts.parse_returns in P].
  destruct (ParserFacts.parse_inv turn_cost id lines c P) as (t & Ht & _ & _ & Hc & _).
  assert (T : JS.truthy_string (conversationTitle c) = true).
  { rewrite Hc. apply (substring0_truthy 99), replace_newlines_truthy.
    pose proof (chosen_title_truthy (fold_left (step turn_cost) lines initial)) as H.
    now rewrite Ht in H. }
  split; [split|].
  - now apply truthy_length.
  - rewrite Hc. apply TitleFacts.substring0_length.
  - unfold ReportData.label_of, JS.string_or. now rewrite T.
Qed.

End SummaryFacts.

(** ** More on the cost of a turn *)
Module CostFacts.
Import Log Pricing Spec Properties Sign.
Local Open Scope float_scope.
Local Open Scope string_scope.

(** X5. A model that is neither a key of the pricing table nor a name
    inherited from [Object.prototype] costs what the default entry costs,
    for every usage record and for a missing one. *)
Theorem unlisted_model_costs_as_default : forall model u,
  ~ In model (map fst CLAUDE_PRICING) -> ~ In model JS.Object_prototype ->
  calculateCost u model = calculateCost u "default".
Proof.
  intros model u Hk Hp.
  now apply (PricingFacts.unknown_model_is_priced_by_default model Hk Hp).
Qed.

(** X5 for the model of synthetic messages. *)
Lemma unlisted_model_costs_as_default_witness :
  calculateCost (Some million_input) "<synthetic>" = 3.0%float.
Proof.
  rewrite (unlisted_model_costs_as_default "<synthetic>" (Some million_input)).
  - reflexivity.
  - intros H. simpl in H. repeat (destruct H as [H|H]; [discriminate H|]). exact H.
  - intros H. simpl in H. repeat (destruct H as [H|H]; [discriminate H|]). exact H.
Defined.

Lemma priced_by_an_entry : forall model,
  ~ In model JS.Object_prototype -> exists p, pricing_of model = JS.own p /\ Properties.listed p.
Proof.
  intros model Hp. unfold pricing_of, JS.get.
  destruct (JS.assoc model CLAUDE_PRICING) as [p|] eqn:E.
  - exists p. split; [reflexivity|].
    apply ObjectFacts.assoc_In in E. unfold CLAUDE_PRICING in E. simpl in E. unfold Properties.listed.
    repeat (destruct E as [E|E]; [inversion E; subst; tauto|]). contradiction.
  - destruct (existsb (String.eqb model) JS.Object_prototype) eqn:X.
    + apply existsb_exists in X. destruct X as [k [Hin Hk]].
      apply String.eqb_eq in Hk. subst k. contradiction.
    + exists sonnet. split; [reflexivity | unfold Properties.listed; tauto].
Qed.

Lemma listed_prices : forall p, Properties.listed p ->
  positive_finite_sf (Prim2SF (input p)) /\ positive_finite_sf (Prim2SF (output p))
  /\ positive_finite_sf (Prim2SF (cache_write p))
  /\ positive_finite_sf (Prim2SF (cache_read p)).
Proof.
  intros p [->|[->|[->| ->]]]; repeat split; exact I.
Qed.

Lemma turn_is_never_negative : forall u model,
  natural_usage u -> ~ In model JS.Object_prototype ->
  (0 <=? calculateCost (Some u) model)%float = true.
Proof.
  intros u model (Hi & Ho & Hw & Hr) Hp.
  destruct (priced_by_an_entry model Hp) as [p [E Hl]].
  destruct (listed_prices p Hl) as (Pi & Po & Pw & Pr).
  unfold calculateCost. rewrite E. cbn [JS.number_field].
  repeat apply NonNegative.add_nonneg;
    apply NonNegative.priced_nonneg; auto using NonNegative.number_or_zero_nonneg.
Qed.

(** X6. When every token count of a usage record is missing, zero or
    positive and the model is not a name inherited from [Object.prototype],
    the cost is a number and is not negative; and it is zero when no count
    is given. *)
Theorem cost_is_never_negative : forall u model,
  natural_usage u -> ~ In model JS.Object_prototype ->
  (0 <=? calculateCost (Some u) model)%float = true
  /\ PrimFloat.is_nan (calculateCost (Some u) model) = false
  /\ (JS.number_or_zero (input_tokens u) = 0%float ->
      JS.number_or_zero (output_tokens u) = 0%float ->
      JS.number_or_zero (cache_creation_input_tokens u) = 0%float ->
      JS.number_or_zero (cache_read_input_tokens u) = 0%float ->
      calculateCost (Some u) model = 0%float).
Proof.
  intros u model Hu Hp.
  pose proof (turn_is_never_negative u model Hu Hp) as H.
  split; [exact H | split; [now apply NonNegative.nonneg_not_nan|]].
  intros Ei Eo Ew Er. destruct (priced_by_an_entry model Hp) as [p [E Hl]].
  unfold calculateCost. rewrite E, Ei, Eo, Ew, Er. cbn [JS.number_field].
  destruct Hl as [->|[->|[->| ->]]]; reflexivity.
Qed.

(** X6 for a million input tokens on a listed model. *)
Lemma cost_is_never_negative_witness :
  natural_usage million_input
  /\ (0 <=? calculateCost (Some million_input) "claude-3-opus-latest")%float = true.
Proof.
  assert (Hu : natural_usage million_input) by (repeat split; reflexivity).
  split; [exact Hu|].
  refine (proj1 (cost_is_never_negative million_input "claude-3-opus-latest" Hu _)).
  intros H. simpl in H. repeat (destruct H as [H|H]; [discriminate H|]). exact H.
Defined.

Lemma fold_add_nonneg : forall costs acc,
  (0 <=? acc)%float = true -> Forall (fun c => (0 <=? c)%float = true) costs ->
  (0 <=? fold_left PrimFloat.add costs acc)%float = true.
Proof.
  induction costs as [|c costs IH]; intros acc Ha Hc; [exact Ha|].
  inversion Hc; subst. cbn [fold_left]. apply IH; [|assumption].
  now apply NonNegative.add_nonneg.
Qed.

Lemma plain_turn_costs : forall lines,
  Forall plain_turn lines ->
  Forall (fun c => (0 <=? c)%float = true) (turn_costs UsagePricing.turn_cost lines).
Proof.
  induction lines as [|l lines IH]; intros H; [constructor|].
  inversion H as [|? ? Hl Hls]; subst. unfold turn_costs. cbn [flat_map].
  apply Forall_app. split; [|now apply IH].
  destruct l as [m|]; [|constructor]. unfold UsagePricing.turn_cost, JS.truthy_field.
  unfold plain_turn in Hl.
  destruct (is_type m "assistant"); [|constructor].
  destruct (message m) as [p|]; [|constructor].
  destruct (usage p) as [u|]; [|constructor].
  destruct (model p) as [mdl|]; [|constructor].
  destruct (JS.truthy_string mdl); [|constructor].
  constructor; [|constructor]. destruct Hl. now apply turn_is_never_negative.
Qed.

(** X7. In the pricing script, when every assistant turn of a log has
    token counts that are missing, zero or positive and a model that is not
    a name inherited from [Object.prototype], the accumulated cost of the
    session the parser returns is a number and is not negative. *)
Theorem session_cost_is_never_negative : forall id lines,
  Forall plain_turn lines ->
  match UsagePricing.parseJSONLFile id lines with
  | Some c =>
      (0 <=? totalCost c)%float = true /\ PrimFloat.is_nan (totalCost c) = false
  | None => resolved_title lines = None
  end.
Proof.
  intros id lines H.
  destruct (UsagePricing.parseJSONLFile id lines) as [c|] eqn:E;
    [|now apply ParserFacts.parse_returns in E].
  assert (Hn : (0 <=? totalCost c)%float = true).
  { rewrite (proj1 (ScriptFacts.usage_pricing_parse_cost id lines c E)).
    apply fold_add_nonneg; [reflexivity | now apply plain_turn_costs]. }
  split; [exact Hn | now apply NonNegative.nonneg_not_nan].
Qed.

(** X7 for a log of one turn and one line that does not parse. *)
Lemma session_cost_is_never_negative_witness :
  let lines := [Some (Fixtures.assistant_with_usage "some-model"); None] in
  Forall plain_turn lines
  /\ option_map (fun c => (0 <=? totalCost c)%float)
                (UsagePricing.parseJSONLFile "a" lines) = Some true.
Proof.
  intros lines.
  assert (H : Forall plain_turn lines).
  { constructor; [|constructor; [exact I | constructor]].
    split; [repeat split; reflexivity|].
    intros H. simpl in H. repeat (destruct H as [H|H]; [discriminate H|]). exact H. }
  split; [exact H|].
  pose proof (session_cost_is_never_negative "a" lines H) as T.
  destruct (UsagePricing.parseJSONLFile "a" lines) as [c|]; [|discriminate T].
  cbn [option_map]. now rewrite (proj1 T).
Defined.

End CostFacts.

(** ** The corpus scanner *)
Module ScanFacts.
Import Log Spec Properties.
Local Open Scope string_scope.

Lemma scan_is_a_filter : forall parse retained corpus,
  Scanner.scan parse retained (Some corpus)
  = filter retained (flat_map (summary_of parse) (files corpus)).
Proof.
  intros parse retained corpus. unfold Scanner.scan, files.
  induction corpus as [|[p fs] corpus IH]; [reflexivity|].
  cbn [flat_map]. rewrite flat_map_app, filter_app, <- IH. f_equal.
  unfold Scanner.scan_project. cbn [fst snd]. clear IH.
  induction fs as [|f fs IHf]; [reflexivity|].
  cbn [flat_map map]. rewrite filter_app, <- IHf. f_equal.
  unfold Scanner.scan_file, summary_of. cbn [fst snd].
  destruct (parse (fst f) (snd f)) as [c|]; [|reflexivity].
  cbn [filter]. now destruct (retained _).
Qed.

Lemma filter_all : forall {A} (l : list A), filter (fun _ => true) l = l.
Proof. induction l as [|x l IH]; [reflexivity|]. cbn [filter]. now f_equal. Qed.

Section WithCostSource.
Variable turn_cost : Message -> option float.
Hypothesis turn_is_assistant : forall m c,
  turn_cost m = Some c -> is_type m "assistant" = true.

(** The summary of a file: none when its title is not a string, else one
    with the base name of the file, its directory, and the sum and the
    number of its turns. *)
Lemma summary_of_file : forall file,
  if has_title file then
    exists c, summary_of (Parser.parseJSONLFile turn_cost) file = [c]
              /\ origin c = (Some (fst file), fst (snd file))
              /\ (totalCost c, messageCount c) = turns_of turn_cost file
  else summary_of (Parser.parseJSONLFile turn_cost) file = [].
Proof.
  intros [p [id lines]]. unfold has_title, summary_of. cbn [fst snd].
  pose proof (ParserFacts.parse_returns turn_cost id lines) as Hr.
  destruct (Parser.parseJSONLFile turn_cost id lines) as [c|] eqn:E.
  - destruct (resolved_title lines) as [t|]; [|destruct Hr as [_ Hr]; discriminate (Hr eq_refl)].
    eexists. split; [reflexivity|].
    destruct (ParserFacts.parse_inv turn_cost id lines c E) as (t' & _ & Hid & _).
    destruct (ParserFacts.parse_cost turn_cost turn_is_assistant id lines c E) as [Hc Hn].
    unfold origin, turns_of. cbn [Scanner.set_projectName projectName conversationId
                                  totalCost messageCount fst snd].
    now rewrite Hid, Hc, Hn.
  - now rewrite (proj1 Hr eq_refl).
Qed.

Lemma summaries_of_files : forall fs,
  map origin (flat_map (summary_of (Parser.parseJSONLFile turn_cost)) fs)
  = map (fun file => (Some (fst file), fst (snd file))) (filter has_title fs)
  /\ map (fun c => (totalCost c, messageCount c))
         (flat_map (summary_of (Parser.parseJSONLFile turn_cost)) fs)
     = map (turns_of turn_cost) (filter has_title fs).
Proof.
  induction fs as [|f fs [IH1 IH2]]; [split; reflexivity|].
  cbn [flat_map filter]. rewrite !map_app, IH1, IH2.
  pose proof (summary_of_file f) as H. destruct (has_title f).
  - destruct H as (c & -> & Ho & Ht). cbn [map app]. now rewrite Ho, Ht.
  - rewrite H. split; reflexivity.
Qed.
End WithCostSource.

(** X8. The scanner of the cost-field script returns one summary for each
    log file whose title is a string, in the order of the directories and
    of the files in them, each with the base name of its file as
    identifier, its directory as project, and the sum and the number of
    the turns of its file; a file whose title is not a string is left out,
    its parse being rejected and the rejection caught; with no projects
    directory the scanner returns nothing. *)
Theorem cost_field_scan_keeps_every_file : forall corpus,
  map origin (CostField.analyzeAllConversations (Some corpus))
  = map (fun file => (Some (fst file), fst (snd file)))
        (filter has_title (files corpus))
  /\ map (fun c => (totalCost c, messageCount c))
         (CostField.analyzeAllConversations (Some corpus))
     = map (turns_of CostField.turn_cost) (filter has_title (files corpus))
  /\ CostField.analyzeAllConversations None = [].
Proof.
  intros corpus. unfold CostField.analyzeAllConversations.
  rewrite scan_is_a_filter, filter_all.
  destruct (summaries_of_files CostField.turn_cost ScriptFacts.cost_field_is_assistant
              (files corpus)) as [H1 H2].
  split; [exact H1 | split; [exact H2 | reflexivity]].
Qed.

Lemma has_turn_iff_usage_line : forall lines,
  Nat.ltb 0 (List.length (turn_costs UsagePricing.turn_cost lines))
  = existsb usage_line lines.
Proof.
  intros lines. rewrite ScriptFacts.usage_turn_count.
  induction lines as [|l lines IH]; [reflexivity|].
  cbn [filter existsb]. destruct (usage_line l); [reflexivity | exact IH].
Qed.

(** X9. The scanner of the pricing script returns the summaries of exactly
    the log files whose title is a string and that have at least one
    assistant line with usage and a model, in the order of the directories
    and of the files in them; every summary it returns has at least one
    turn; with no projects directory it returns nothing. *)
Theorem pricing_scan_keeps_the_files_with_turns : forall corpus,
  map origin (UsagePricing.analyzeAllConversations (Some corpus))
  = map (fun file => (Some (fst file), fst (snd file)))
        (filter (fun file => has_title file && existsb usage_line (snd (snd file)))
                (files corpus))
  /\ Forall (fun c => 1 <= messageCount c)
            (UsagePricing.analyzeAllConversations (Some corpus))
  /\ UsagePricing.analyzeAllConversations None = [].
Proof.
  intros corpus. unfold UsagePricing.analyzeAllConversations, UsagePricing.parseJSONLFile.
  rewrite scan_is_a_filter. split; [|split; [|reflexivity]].
  - induction (files corpus) as [|f fs IH]; [reflexivity|].
    cbn [flat_map filter]. rewrite filter_app, map_app, IH.
    pose proof (summary_of_file UsagePricing.turn_cost
                  ScriptFacts.usage_pricing_is_assistant f) as H.
    destruct (has_title f); cbn [andb].
    + destruct H as (c & -> & Ho & Ht). cbn [filter].
      unfold turns_of in Ht. inversion Ht as [[Hc Hn]].
      rewrite Hn, has_turn_iff_usage_line.
      destruct (existsb usage_line (snd (snd f))); [|reflexivity].
      cbn [map app]. now rewrite Ho.
    + rewrite H. reflexivity.
  - apply Forall_forall. intros c Hc. apply filter_In in Hc. destruct Hc as [_ Hc].
    apply Nat.ltb_lt in Hc. lia.
Qed.

End ScanFacts.

(** ** The daily aggregation *)
Module DailyFacts.
Import Log Aggregator Spec Properties.
Local Open Scope float_scope.

(** X10. [aggregateDailyCosts] throws exactly when some conversation has
    a positive cost and an invalid start. Otherwise every bucket it returns
    holds, in the order of the collection, exactly the conversations with
    a positive cost whose start is valid and falls on its UTC date; it is
    never empty, its count is their number and its total is the sum of
    their costs, added in that order. No two buckets have the same date. *)
Theorem bucket_holds_the_sessions_of_its_day : forall localeCompare convs,
  match aggregateDailyCosts localeCompare convs with
  | Some buckets =>
      Forall (fun b =>
                conversations b = filter (on_day (date b)) convs
                /\ conversations b <> []
                /\ conversationCount b = List.length (conversations b)
                /\ bucket_totalCost b = sum_costs (conversations b))
             buckets
      /\ NoDup (map date buckets)
      /\ existsb undatable convs = false
  | None => existsb undatable convs = true
  end.
Proof.
  intros lc convs.
  destruct (aggregateDailyCosts lc convs) as [buckets|] eqn:E.
  - split; [|split].
    + apply Forall_forall. intros b Hb. now apply (AggregatorFacts.bucket_contents lc convs buckets).
    + now apply (AggregatorFacts.aggregate_dates_NoDup lc convs).
    + destruct (existsb undatable convs) eqn:U; [|reflexivity].
      apply (ThrowFacts.aggregate_throws lc) in U. congruence.
  - now apply ThrowFacts.aggregate_throws in E.
Qed.

Lemma NoDup_map_inj : forall {A B} (f : A -> B) l a b,
  NoDup (map f l) -> In a l -> In b l -> f a = f b -> a = b.
Proof.
  intros A B f. induction l as [|x l IH]; cbn [map In]; intros a b Hn Ha Hb E.
  - contradiction.
  - inversion Hn as [|? ? Hx Hl]; subst.
    destruct Ha as [->|Ha], Hb as [->|Hb]; auto.
    + exfalso. apply Hx. rewrite E. now apply in_map.
    + exfalso. apply Hx. rewrite <- E. now apply in_map.
Qed.

(** X11. When [aggregateDailyCosts] returns, a conversation of the
    collection with a positive cost and a valid start is in exactly one of
    its buckets: the one of the UTC date of its start. *)
Theorem dated_session_is_in_one_bucket : forall localeCompare convs buckets c t,
  aggregateDailyCosts localeCompare convs = Some buckets ->
  In c convs -> has_cost c = true -> startTime c = Some (Date.valid t) ->
  exists b,
    In b buckets
    /\ date b = Date.toISODate t
    /\ In c (conversations b)
    /\ forall b', In b' buckets -> In c (conversations b') -> b' = b.
Proof.
  intros lc convs buckets c t Ha Hin Hc St.
  assert (Hon : on_day (Date.toISODate t) c = true).
  { unfold on_day. rewrite Hc, St. cbn [andb]. apply String.eqb_refl. }
  destruct (AggregatorFacts.bucket_of_day lc convs buckets Ha) as (d & Hd & Hiff).
  pose proof (AggregatorFacts.dailyCosts_invariant convs d Hd (Date.toISODate t)) as Hi.
  destruct (JS.assoc (Date.toISODate t) d) as [b|] eqn:Hb.
  - destruct Hi as (Hk & Hcs & _).
    assert (Hbin : In b buckets) by (apply Hiff; now rewrite Hk).
    exists b. repeat split; auto.
    + rewrite Hcs. apply filter_In. auto.
    + intros b' Hb' Hc'.
      apply (NoDup_map_inj date buckets); auto.
      * now apply (AggregatorFacts.aggregate_dates_NoDup lc convs).
      * destruct (AggregatorFacts.bucket_contents lc convs buckets b' Ha Hb') as [Hcs' _].
        rewrite Hcs' in Hc'. apply filter_In in Hc'. destruct Hc' as [_ Hon'].
        unfold on_day in Hon'. rewrite Hc, St in Hon'. cbn [andb] in Hon'.
        apply String.eqb_eq in Hon'. congruence.
  - exfalso. assert (H : In c (filter (on_day (Date.toISODate t)) convs)).
    { apply filter_In. auto. }
    rewrite Hi in H. contradiction.
Qed.

(** X11 for a collection of one session, begun on 2025-10-26. *)
Lemma dated_session_is_in_one_bucket_witness :
  let c := Fixtures.session "a" 3 1 (Some Fixtures.late_october) in
  exists buckets b,
    aggregateDailyCosts Fixtures.code_unit_compare [c] = Some buckets
    /\ In b buckets
    /\ date b = "2025-10-26"%string
    /\ In c (conversations b).
Proof.
  intros c.
  destruct (aggregateDailyCosts Fixtures.code_unit_compare [c]) as [buckets|] eqn:E;
    [|vm_compute in E; discriminate E].
  destruct (dated_session_is_in_one_bucket Fixtures.code_unit_compare [c] buckets c
              Fixtures.late_october E)
    as [b (H1 & H2 & H3 & _)];
    [left; reflexivity | reflexivity | reflexivity |].
  exists buckets, b. split; [reflexivity|]. split; [exact H1 | split; [|exact H3]].
  rewrite H2. vm_compute. reflexivity.
Defined.

End DailyFacts.

(** ** The daily series of the report *)
Module SeriesFacts.
Import Log Aggregator Spec Properties.
Local Open Scope float_scope.

Lemma fold_add_positive : forall l acc,
  (0 <? acc) = true -> Forall (fun c => has_cost c = true) l ->
  (0 <? fold_left (fun sum c => sum + totalCost c) l acc) = true.
Proof.
  induction l as [|c l IH]; intros acc Ha Hl; [exact Ha|].
  inversion Hl as [|? ? Hc Hl']; subst. cbn [fold_left]. apply IH; [|exact Hl'].
  now apply NonNegative.add_positive.
Qed.

(** The sum of one or more positive costs is positive. *)
Lemma sum_costs_positive : forall l,
  Forall (fun c => has_cost c = true) l -> l <> [] -> (0 <? sum_costs l) = true.
Proof.
  intros [|c l] Hl Hne; [congruence|].
  inversion Hl as [|? ? Hc Hl']; subst. unfold sum_costs. cbn [fold_left].
  apply fold_add_positive; [|exact Hl']. now apply NonNegative.zero_add_positive.
Qed.





End SeriesFacts.

(** ** The data of the charts and of the project filter *)
Module ChartFacts.
Import Log Aggregator Spec Properties ReportData.

Lemma same_project_eq : forall a b, same_project a b = true <-> a = b.
Proof.
  intros [x|] [y|]; cbn [same_project]; split; intros H;
    try discriminate H; try reflexivity.
  - apply String.eqb_eq in H. now subst.
  - inversion H. apply String.eqb_refl.
Qed.

Lemma existsb_same_project : forall v set,
  existsb (same_project v) set = true <-> In v set.
Proof.
  intros v set. rewrite existsb_exists. split.
  - intros [x [Hin E]]. apply same_project_eq in E. now subst.
  - intros Hin. exists v. split; [exact Hin | now apply same_project_eq].
Qed.

Lemma Set_fold : forall values set,
  NoDup set ->
  let result :=
    fold_left (fun set v => if existsb (same_project v) set then set else (set ++ [v])%list)
              values set in
  NoDup result /\ forall v, In v result <-> In v set \/ In v values.
Proof.
  induction values as [|x values IH]; intros set Hn; cbn [fold_left].
  - split; [exact Hn | intros v; cbn [In]; tauto].
  - destruct (existsb (same_project x) set) eqn:E.
    + apply existsb_same_project in E.
      destruct (IH set Hn) as [H1 H2]. split; [exact H1|].
      intros v. rewrite H2. cbn [In]. intuition (subst; auto).
    + assert (Hx : ~ In x set).
      { intros Hin. apply existsb_same_project in Hin. congruence. }
      assert (Hn' : NoDup (set ++ [x])).
      { apply NoDup_app; repeat split; auto.
        - constructor; [intros [] | constructor].
        - intros y Hy [<-|[]]. contradiction. }
      destruct (IH (set ++ [x])%list Hn') as [H1 H2]. split; [exact H1|].
      intros v. rewrite H2, in_app_iff. cbn [In]. tauto.
Qed.

(** X14. The project filter of the report lists every project that has
    a conversation with a positive cost, once each, and no other project. *)
Theorem project_filter_lists_each_costly_project_once : forall convs,
  NoDup (uniqueProjects convs)
  /\ forall p, In p (uniqueProjects convs) <->
               exists c, In c convs /\ has_cost c = true /\ projectName c = p.
Proof.
  intros convs. unfold uniqueProjects, Set_of.
  destruct (Set_fold (map projectName (ranking convs)) [] (NoDup_nil _)) as [H1 H2].
  split; [exact H1|]. intros p. rewrite H2, in_map_iff. cbn [In]. split.
  - intros [[]|[c [E Hc]]]. exists c.
    apply SortFacts.sort_In in Hc. apply filter_In in Hc. tauto.
  - intros [c (Hin & Hc & E)]. right. exists c. split; [exact E|].
    apply SortFacts.sort_In. apply filter_In. auto.
Qed.

Lemma In_firstn : forall {A} n (l : list A) x, In x (firstn n l) -> In x l.
Proof.
  intros A. induction n as [|n IH]; intros [|y l] x H; cbn [firstn In] in *;
    try contradiction.
  destruct H as [H|H]; [now left | right; now apply (IH l)].
Qed.

Lemma label_truthy : forall c, JS.truthy_string (label_of c) = true.
Proof.
  intros c. unfold label_of, JS.string_or.
  destruct (JS.truthy_string (conversationTitle c)) eqn:E; [exact E|].
  unfold field_or, JS.truthy_field.
  destruct (pop _) as [s|]; [|reflexivity].
  destruct (JS.truthy_string s) eqn:Es; [exact Es | reflexivity].
Qed.

Lemma length_append : forall a b,
  String.length (a ++ b)%string = String.length a + String.length b.
Proof.
  induction a as [|c a IH]; intros b; cbn [String.append String.length]; [reflexivity|].
  now rewrite IH.
Qed.

Lemma substring0_all : forall n s, String.length s <= n -> JS.substring0 n s = s.
Proof.
  unfold JS.substring0. induction n as [|n IH]; intros [|c s] H;
    cbn [String.substring String.length] in *; try reflexivity; [lia|].
  f_equal. apply IH. lia.
Qed.

Lemma substring0_exact : forall n s,
  n <= String.length s -> String.length (JS.substring0 n s) = n.
Proof.
  unfold JS.substring0. induction n as [|n IH]; intros [|c s] H;
    cbn [String.substring String.length] in *; try reflexivity; [lia|].
  f_equal. apply IH. lia.
Qed.

Lemma append_empty : forall s, (s ++ "")%string = s.
Proof.
  induction s as [|c s IH]; cbn [String.append]; [reflexivity | now rewrite IH].
Qed.

Lemma shorten_spec : forall s,
  (String.length s <= 50 -> shorten s = s)
  /\ (50 < String.length s -> String.length (shorten s) = 53)
  /\ String.length (shorten s) <= 53.
Proof.
  intros s. unfold shorten.
  destruct (Nat.ltb_spec 50 (String.length s)) as [L|L].
  - assert (E : String.length (JS.substring0 50 s ++ "...")%string = 53).
    { rewrite length_append, substring0_exact by lia. reflexivity. }
    split; [lia | split; [auto | lia]].
  - rewrite append_empty, substring0_all by lia. split; [auto | split; lia].
Qed.

(** X15. The bar chart of the top conversations has one bar for each of
    the first twenty conversations of the ranking, so at most twenty. The
    label of a bar is never empty: it is the title and, when the title is
    empty, the last segment of the conversation name or [Unknown]. The
    text drawn for a label is the label when it has at most 50 characters,
    and its first 50 characters and three dots otherwise. *)
Theorem chart_has_at_most_twenty_labelled_bars : forall toLocaleDateString convs,
  let bars := chartData toLocaleDateString convs in
  List.length bars = Nat.min 20 (List.length (filter has_cost convs))
  /\ map bar_cost bars = map totalCost (firstn 20 (ranking convs))
  /\ Forall (fun b =>
               1 <= String.length (label b)
               /\ (0 <? bar_cost b)%float = true
               /\ (String.length (label b) <= 50 -> shorten (label b) = label b)
               /\ (50 < String.length (label b) ->
                   shorten (label b) = (JS.substring0 50 (label b) ++ "...")%string
                   /\ String.length (shorten (label b)) = 53))
            bars.
Proof.
  intros f convs bars. subst bars. unfold chartData. split; [|split].
  - rewrite length_map, length_firstn. f_equal.
    apply Permutation_length. apply SortFacts.sort_perm.
  - rewrite map_map. reflexivity.
  - apply Forall_forall. intros b Hb. apply in_map_iff in Hb.
    destruct Hb as [c [<- Hc]]. cbn [bar_of label bar_cost].
    apply In_firstn in Hc.
    pose proof (RankingFacts.ranking_has_cost convs) as Hr.
    rewrite Forall_forall in Hr. specialize (Hr c Hc).
    destruct (shorten_spec (label_of c)) as (S1 & S2 & _).
    repeat split; auto.
    + apply SummaryFacts.truthy_length, label_truthy.
    + unfold shorten. apply Nat.ltb_lt in H. now rewrite H.
Qed.

End ChartFacts.

(** ** The average cost *)
Module AverageFacts.
Import Log Aggregator Spec Properties Fixtures.
Local Open Scope float_scope.

Lemma positive_finite : forall x,
  (0 <? x) = true -> PrimFloat.is_infinity x = false ->
  Sign.positive_finite_sf (Prim2SF x).
Proof.
  intros x Hx Hi. apply Number.positive_sf_iff in Hx.
  unfold PrimFloat.is_infinity in Hi. rewrite eqb_spec, abs_spec in Hi.
  destruct (Prim2SF x) as [[]|[]| |[] m e]; try contradiction; [|exact I].
  vm_compute in Hi. discriminate Hi.
Qed.

Lemma average_of_positive : forall l,
  Forall (fun c => has_cost c = true) l -> l <> [] ->
  PrimFloat.is_infinity (sum_costs l) = false ->
  (0 <=? sum_costs l / JS.number_of_nat (List.length l)) = true.
Proof.
  intros l Hl Hne Hfin. apply NonNegative.nonneg_iff. rewrite div_spec.
  apply SignFacts.SFdiv_finite_nonneg.
  - apply positive_finite; [now apply SeriesFacts.sum_costs_positive | exact Hfin].
  - apply NonNegative.number_of_nat_sign.
Qed.

(** X16. When some conversation of the collection has a positive cost,
    the total cost is positive, and when the total is finite the average
    that the summary prints and the average of the report, when the
    report is built, are numbers, zero or more: they are [NaN] only when no
    conversation has a positive cost. *)
Theorem average_is_a_number_with_a_costly_session :
  forall localeCompare LocalTZA today convs c,
    In c convs -> has_cost c = true ->
    let summary := displaySummary convs in
    (0 <? summary_totalCost summary) = true
    /\ (PrimFloat.is_infinity (summary_totalCost summary) = false ->
        (0 <=? summary_average summary) = true
        /\ PrimFloat.is_nan (summary_average summary) = false)
    /\ match createHTMLReport localeCompare LocalTZA today convs with
       | Some report =>
           (0 <? report_totalCost report) = true
           /\ (PrimFloat.is_infinity (report_totalCost report) = false ->
               (0 <=? report_average report) = true
               /\ PrimFloat.is_nan (report_average report) = false)
       | None => existsb undatable convs = true
       end.
Proof.
  intros lc tz today convs c Hin Hc summary. subst summary.
  unfold displaySummary. cbn [summary_totalCost summary_average].
  assert (Hf : Forall (fun c => has_cost c = true) (filter has_cost convs)).
  { apply Forall_forall. intros x Hx. now apply filter_In in Hx. }
  assert (Hne : filter has_cost convs <> []).
  { intros E. assert (H : In c (filter has_cost convs)) by (apply filter_In; auto).
    rewrite E in H. contradiction. }
  assert (Hr : Forall (fun c => has_cost c = true) (ranking convs))
    by apply RankingFacts.ranking_has_cost.
  assert (Hrne : ranking convs <> []).
  { intros E. assert (H : In c (ranking convs)).
    { apply SortFacts.sort_In. apply filter_In. auto. }
    rewrite E in H. contradiction. }
  split; [now apply SeriesFacts.sum_costs_positive|].
  split.
  - intros Hfin. pose proof (average_of_positive _ Hf Hne Hfin) as H.
    split; [exact H | now apply NonNegative.nonneg_not_nan].
  - destruct (createHTMLReport lc tz today convs) as [report|] eqn:E;
      [|now apply ThrowFacts.report_throws in E].
    destruct (ReportFacts.report_inv _ _ _ _ _ E) as (buckets & _ & _ & -> & _ & ->).
    split; [now apply SeriesFacts.sum_costs_positive|].
    intros Hfin. pose proof (average_of_positive _ Hr Hrne Hfin) as H.
    split; [exact H | now apply NonNegative.nonneg_not_nan].
Qed.

(** X16 for a collection of one session of cost 3. *)
Lemma average_is_a_number_with_a_costly_session_witness :
  let convs := [session "a" 3 1 (Some late_october)] in
  (0 <? summary_totalCost (displaySummary convs)) = true
  /\ (0 <=? summary_average (displaySummary convs)) = true
  /\ option_map (fun report => (0 <=? report_average report))
                (createHTMLReport code_unit_compare utc early_november convs)
     = Some true.
Proof.
  intros convs.
  destruct (average_is_a_number_with_a_costly_session
              code_unit_compare utc early_november convs
              (session "a" 3 1 (Some late_october)))
    as (H1 & H2 & H3).
  - left. reflexivity.
  - reflexivity.
  - split; [exact H1|]. split; [apply H2; reflexivity|].
    destruct (createHTMLReport code_unit_compare utc early_november convs)
      as [report|] eqn:E; [|vm_compute in E; discriminate E].
    vm_compute in E. inversion E; subst report. clear E.
    cbn [option_map]. destruct H3 as [_ H3].
    now rewrite (proj1 (H3 eq_refl)).
Defined.

End AverageFacts.

(** ** Numbers that are zero or positive *)
Module ZeroOrPositive.
Import Float64 Properties.
Local Open Scope float_scope.

Lemma rank_positive : forall x, (0 <? x) = true -> (0 < rank x)%Z.
Proof.
  intros x H. apply Number.positive_sf_iff in H. unfold rank.
  pose proof (Prim2SF_valid x) as V.
  destruct (Prim2SF x) as [[]|[]| |[] m e]; try contradiction; cbn [rank_sf].
  - unfold top. apply Z.pow_pos_nonneg; [lia | unfold emax, emin, prec; simpl; lia].
  - simpl in V. destruct (Binary64.bounded_canonical _ _ V) as (E & _).
    assert (0 < 2 ^ (e - emin))%Z by (apply Z.pow_pos_nonneg; lia). lia.
Qed.

Lemma sub_sign_rank : forall a b,
  zero_or_positive a -> zero_or_positive b ->
  (0 <? b - a) = (rank a <? rank b)%Z.
Proof.
  intros a b [->|Ha] [->|Hb].
  - reflexivity.
  - pose proof (rank_positive b Hb) as Hr.
    replace (rank 0 <? rank b)%Z with true
      by (symmetry; apply Z.ltb_lt; change (rank 0) with 0%Z; lia).
    apply Number.positive_sf_iff in Hb. rewrite ltb_spec, sub_spec, Number.zero_sf.
    destruct (Prim2SF b) as [[]|[]| |[] m e]; try contradiction; reflexivity.
  - pose proof (rank_positive a Ha) as Hr.
    replace (rank a <? rank 0)%Z with false
      by (symmetry; apply Z.ltb_ge; change (rank 0) with 0%Z; lia).
    apply Number.positive_sf_iff in Ha. rewrite ltb_spec, sub_spec, Number.zero_sf.
    destruct (Prim2SF a) as [[]|[]| |[] m e]; try contradiction; reflexivity.
  - rewrite Number.sub_sign by assumption. now apply Number.ltb_rank.
Qed.

Lemma leb_by_rank : forall a b,
  zero_or_positive a -> zero_or_positive b ->
  (a <=? b) = (rank a <=? rank b)%Z.
Proof.
  intros a b [->|Ha] [->|Hb].
  - reflexivity.
  - pose proof (rank_positive b Hb) as Hr.
    replace (rank 0 <=? rank b)%Z with true
      by (symmetry; apply Z.leb_le; change (rank 0) with 0%Z; lia).
    now apply NonNegative.positive_nonneg.
  - pose proof (rank_positive a Ha) as Hr.
    replace (rank a <=? rank 0)%Z with false
      by (symmetry; apply Z.leb_gt; change (rank 0) with 0%Z; lia).
    apply Number.positive_sf_iff in Ha. rewrite leb_spec, Number.zero_sf.
    destruct (Prim2SF a) as [[]|[]| |[] m e]; try contradiction; reflexivity.
  - now apply Number.leb_rank.
Qed.

End ZeroOrPositive.

(** ** The project breakdown *)
Module BreakdownFacts.
Import Log Aggregator Spec Properties Breakdown.

Lemma inherited_name : forall k,
  existsb (String.eqb k) JS.Object_prototype = true <-> In k JS.Object_prototype.
Proof.
  intros k. rewrite existsb_exists. split.
  - intros [x [Hin E]]. apply String.eqb_eq in E. now subst.
  - intros Hin. exists k. split; [exact Hin | apply String.eqb_refl].
Qed.

Lemma of_project_key : forall c k,
  of_project k c = String.eqb (project_key c) k.
Proof. reflexivity. Qed.

Lemma sum_costs_filter_snoc : forall l c,
  sum_costs (filter has_cost (l ++ [c]))
  = if has_cost c then (sum_costs (filter has_cost l) + totalCost c)%float
    else sum_costs (filter has_cost l).
Proof.
  intros l c. rewrite filter_app. cbn [filter].
  destruct (has_cost c); [apply AggregatorFacts.sum_costs_snoc | now rewrite app_nil_r].
Qed.

Lemma length_filter_snoc : forall l c,
  List.length (filter has_cost (l ++ [c]))
  = if has_cost c then S (List.length (filter has_cost l))
    else List.length (filter has_cost l).
Proof.
  intros l c. rewrite filter_app. cbn [filter].
  destruct (has_cost c); [|now rewrite app_nil_r].
  rewrite length_app. cbn [List.length]. lia.
Qed.

Lemma add_stats_invariant : forall seen d c,
  stats_invariant seen d -> stats_invariant (seen ++ [c]) (add_stats d c).
Proof.
  intros seen d c Hd.
  assert (Hother : forall k, k <> project_key c ->
            filter (of_project k) (seen ++ [c]) = filter (of_project k) seen).
  { intros k Hk. rewrite filter_app. cbn [filter]. rewrite of_project_key.
    destruct (String.eqb_spec (project_key c) k); [congruence | apply app_nil_r]. }
  assert (Hsame : filter (of_project (project_key c)) (seen ++ [c])
                  = filter (of_project (project_key c)) seen ++ [c]).
  { rewrite filter_app. cbn [filter]. rewrite of_project_key.
    now rewrite String.eqb_refl. }
  unfold add_stats, JS.get.
  destruct (JS.assoc (project_key c) d) as [s|] eqn:Ha.
  - intros k. destruct (String.eqb_spec k (project_key c)) as [->|Hk].
    + rewrite ObjectFacts.assoc_set_same.
      specialize (Hd (project_key c)). rewrite Ha in Hd.
      destruct Hd as (H1 & H2 & H3 & H4 & H5).
      rewrite Hsame, sum_costs_filter_snoc, length_filter_snoc, length_app.
      cbn [count total withCost stats_totalCost List.length].
      repeat split; [exact H1 | lia | lia | |].
      * destruct (has_cost c); congruence.
      * destruct (has_cost c); congruence.
    + rewrite ObjectFacts.assoc_set_other by exact Hk.
      rewrite (Hother k Hk). apply Hd.
  - destruct (existsb (String.eqb (project_key c)) JS.Object_prototype) eqn:Hp.
    + apply inherited_name in Hp. intros k.
      destruct (String.eqb_spec k (project_key c)) as [->|Hk].
      * rewrite Ha. now left.
      * rewrite (Hother k Hk). apply Hd.
    + assert (Hn : ~ In (project_key c) JS.Object_prototype).
      { intros H. apply inherited_name in H. congruence. }
      intros k. destruct (String.eqb_spec k (project_key c)) as [->|Hk].
      * rewrite ObjectFacts.assoc_set_same.
        specialize (Hd (project_key c)). rewrite Ha in Hd.
        destruct Hd as [Hd|Hd]; [contradiction|].
        rewrite Hsame, Hd. cbn [app filter count total withCost stats_totalCost].
        unfold sum_costs.
        destruct (has_cost c); cbn [List.length fold_left]; repeat split; auto.
      * rewrite ObjectFacts.assoc_set_other by exact Hk.
        rewrite (Hother k Hk). apply Hd.
Qed.

Lemma fold_stats_invariant : forall rest seen d,
  stats_invariant seen d ->
  stats_invariant (seen ++ rest) (fold_left add_stats rest d).
Proof.
  induction rest as [|c rest IH]; intros seen d Hd.
  - now rewrite app_nil_r.
  - cbn [fold_left]. replace (seen ++ c :: rest) with ((seen ++ [c]) ++ rest).
    + apply IH. now apply add_stats_invariant.
    + now rewrite <- app_assoc.
Qed.

Lemma projectStats_invariant : forall convs, stats_invariant convs (projectStats_of convs).
Proof.
  intros convs. apply (fold_stats_invariant convs [] []). intros k. now right.
Qed.

Lemma projectStats_keys_NoDup : forall convs, NoDup (map fst (projectStats_of convs)).
Proof.
  intros convs. unfold projectStats_of. generalize (NoDup_nil string).
  change (@nil string) with (map fst (@nil (string * Stats))).
  generalize (@nil (string * Stats)).
  induction convs as [|c l IH]; intros d Hd; [exact Hd|]. cbn [fold_left]. apply IH.
  unfold add_stats. destruct (JS.get d (project_key c));
    [now apply ObjectFacts.set_keys_NoDup | exact Hd | now apply ObjectFacts.set_keys_NoDup].
Qed.

Lemma insert_by_index_perm : forall {A} (x : string * A) l,
  Permutation (insert_by_index x l) (x :: l).
Proof.
  intros A x. induction l as [|y r IH]; cbn [insert_by_index]; [reflexivity|].
  destruct (index_of y <? index_of x)%N; [|reflexivity].
  rewrite IH. apply perm_swap.
Qed.

Lemma partition_perm : forall {A} (P : A -> bool) l,
  Permutation (filter P l ++ filter (fun x => negb (P x)) l) l.
Proof.
  intros A P. induction l as [|x l IH]; cbn [filter]; [reflexivity|].
  destruct (P x); cbn [negb app].
  - now constructor.
  - rewrite <- Permutation_middle. now constructor.
Qed.

(** [Object.entries] gives every own property once. *)
Lemma entries_perm : forall {A} (obj : list (string * A)), Permutation (entries obj) obj.
Proof.
  intros A obj. unfold entries.
  rewrite <- (partition_perm is_index obj) at 3.
  apply Permutation_app_tail.
  induction (filter is_index obj) as [|x l IH]; cbn [fold_right]; [reflexivity|].
  rewrite insert_by_index_perm. now constructor.
Qed.

Lemma breakdown_perm : forall convs, Permutation (breakdown convs) (projectStats_of convs).
Proof.
  intros convs. unfold breakdown. rewrite SortFacts.sort_perm. apply entries_perm.
Qed.

Lemma row_stats : forall convs row,
  In row (breakdown convs) ->
  ~ In (fst row) JS.Object_prototype
  /\ 1 <= total (snd row)
  /\ total (snd row) = List.length (filter (of_project (fst row)) convs)
  /\ withCost (snd row)
     = List.length (filter has_cost (filter (of_project (fst row)) convs))
  /\ stats_totalCost (snd row)
     = sum_costs (filter has_cost (filter (of_project (fst row)) convs)).
Proof.
  intros convs [k s] Hrow. cbn [fst snd].
  apply (Permutation_in _ (breakdown_perm convs)) in Hrow.
  apply (ObjectFacts.In_assoc k s _ (projectStats_keys_NoDup convs)) in Hrow.
  pose proof (projectStats_invariant convs k) as Hi. now rewrite Hrow in Hi.
Qed.

Lemma row_cost_sign : forall convs row,
  In row (breakdown convs) -> zero_or_positive (stats_totalCost (snd row)).
Proof.
  intros convs row Hrow. destruct (row_stats convs row Hrow) as (_ & _ & _ & _ & H).
  rewrite H. destruct (filter has_cost (filter (of_project (fst row)) convs)) eqn:E.
  - now left.
  - right. apply SeriesFacts.sum_costs_positive; [|discriminate].
    rewrite <- E. apply Forall_forall. intros x Hx. now apply filter_In in Hx.
Qed.

(** X17. The project breakdown has one row for each project name of the
    collection that is not a name inherited from [Object.prototype], and
    no row for one that is. A row counts the conversations of its project
    and those of them with a positive cost, and its total is the sum of
    their positive costs, added in the order of the collection. The rows
    descend along the total. *)
Theorem breakdown_counts_each_project : forall convs,
  let rows := breakdown convs in
  NoDup (map fst rows)
  /\ (forall k, In k (map fst rows) <->
                ~ In k JS.Object_prototype
                /\ exists c, In c convs /\ project_key c = k)
  /\ Forall (fun row =>
               total (snd row) = List.length (filter (of_project (fst row)) convs)
               /\ withCost (snd row)
                  = List.length (filter has_cost (filter (of_project (fst row)) convs))
               /\ stats_totalCost (snd row)
                  = sum_costs (filter has_cost (filter (of_project (fst row)) convs)))
            rows
  /\ StronglySorted
       (fun a b => (stats_totalCost (snd b) <=? stats_totalCost (snd a))%float = true)
       rows.
Proof.
  intros convs rows. subst rows. split; [|split; [|split]].
  - apply (Permutation_NoDup (l := map fst (projectStats_of convs))).
    + apply Permutation_map. symmetry. apply breakdown_perm.
    + apply projectStats_keys_NoDup.
  - intros k. split.
    + intros Hk. apply in_map_iff in Hk. destruct Hk as [row [<- Hrow]].
      destruct (row_stats convs row Hrow) as (H1 & H2 & H3 & _).
      split; [exact H1|].
      destruct (filter (of_project (fst row)) convs) as [|c l] eqn:E;
        [cbn [List.length] in H3; lia|].
      assert (Hc : In c (filter (of_project (fst row)) convs)) by (rewrite E; now left).
      apply filter_In in Hc. destruct Hc as [Hin Hc]. exists c. split; [exact Hin|].
      rewrite of_project_key in Hc. now apply String.eqb_eq in Hc.
    + intros [Hn [c [Hin <-]]].
      pose proof (projectStats_invariant convs (project_key c)) as Hi.
      destruct (JS.assoc (project_key c) (projectStats_of convs)) as [s|] eqn:Ha.
      * apply ObjectFacts.assoc_In in Ha.
        apply (Permutation_in _ (Permutation_sym (breakdown_perm convs))) in Ha.
        apply in_map_iff. now exists (project_key c, s).
      * exfalso. destruct Hi as [Hi|Hi]; [contradiction|].
        assert (Hc : In c (filter (of_project (project_key c)) convs)).
        { apply filter_In. split; [exact Hin|].
          rewrite of_project_key. apply String.eqb_refl. }
        rewrite Hi in Hc. contradiction.
  - apply Forall_forall. intros row Hrow.
    destruct (row_stats convs row Hrow) as (_ & _ & H3 & H4 & H5). auto.
  - apply RankingFacts.StronglySorted_on with
      (D := fun row => zero_or_positive (stats_totalCost (snd row)))
      (R1 := fun a b => (Float64.rank (stats_totalCost (snd b))
                         <= Float64.rank (stats_totalCost (snd a)))%Z).
    + intros a b Ha Hb H. rewrite ZeroOrPositive.leb_by_rank by assumption.
      now apply Z.leb_le.
    + apply Forall_forall. intros row Hrow. now apply (row_cost_sign convs).
    + apply SortFacts.sort_descending
        with (domain := fun row => zero_or_positive (stats_totalCost (snd row))).
      * intros x y Hx Hy. unfold by_project_cost.
        now apply ZeroOrPositive.sub_sign_rank.
      * apply Forall_forall. intros row Hrow. apply (row_cost_sign convs).
        unfold breakdown. now apply SortFacts.sort_In.
Qed.

End BreakdownFacts.

(** ** The project column and the labels *)
Module SegmentFacts.
Import Log Spec Properties ReportData.
Local Open Scope string_scope.

Lemma has_cons : forall sep c r,
  has_char sep (String c r) = Ascii.eqb c sep || has_char sep r.
Proof. reflexivity. Qed.

Lemma split_without : forall sep s, has_char sep s = false -> split sep s = [s].
Proof.
  intros sep. induction s as [|c r IH]; intros H; [reflexivity|].
  rewrite has_cons in H. apply orb_false_iff in H. destruct H as [Hc Hr].
  cbn [split]. rewrite Hc, (IH Hr). reflexivity.
Qed.

Lemma split_with : forall sep s, has_char sep s = true ->
  exists h t, split sep s = h :: t /\ t <> [].
Proof.
  intros sep. induction s as [|c r IH]; intros H; [discriminate H|].
  rewrite has_cons in H. cbn [split].
  destruct (Ascii.eqb c sep) eqn:Hc.
  - exists "". destruct (has_char sep r) eqn:Hr.
    + destruct (IH eq_refl) as (h & t & E & _). exists (split sep r).
      split; [reflexivity|]. rewrite E. discriminate.
    + exists (split sep r). split; [reflexivity|].
      rewrite split_without by exact Hr. discriminate.
  - cbn [orb] in H. destruct (IH H) as (h & t & E & Ht).
    rewrite E. exists (String c h), t. auto.
Qed.

Lemma last_cons : forall {A} (x : A) l d, l <> [] -> last (x :: l) d = last l d.
Proof. intros A x [|y l] d H; [congruence | reflexivity]. Qed.

Lemma pop_split : forall sep s, pop (split sep s) = Some (after_last sep s).
Proof.
  intros sep. unfold pop. induction s as [|c r IH]; [reflexivity|].
  cbn [split after_last]. destruct (has_char sep r) eqn:Hr.
  - destruct (split_with sep r Hr) as (h & t & E & Ht).
    rewrite <- IH, E.
    destruct (Ascii.eqb c sep); cbn [map].
    + rewrite last_cons by discriminate. reflexivity.
    + rewrite !last_cons; [reflexivity | |];
        destruct t; try congruence; discriminate.
  - rewrite split_without by exact Hr.
    destruct (Ascii.eqb c sep); reflexivity.
Qed.

Lemma after_last_spec : forall sep s,
  has_char sep (after_last sep s) = false
  /\ (has_char sep s = false -> after_last sep s = s)
  /\ (has_char sep s = true -> exists before, s = before ++ String sep (after_last sep s)).
Proof.
  intros sep. induction s as [|c r IH]; [repeat split; discriminate|].
  destruct IH as (I1 & I2 & I3). rewrite has_cons. cbn [after_last].
  destruct (has_char sep r) eqn:Hr.
  - split; [exact I1|]. split; [rewrite orb_true_r; discriminate|].
    intros _. destruct (I3 eq_refl) as [before E].
    exists (String c before). cbn [String.append]. now rewrite <- E.
  - rewrite orb_false_r. destruct (Ascii.eqb_spec c sep) as [->|Hc].
    + split; [exact Hr|]. split; [discriminate|]. intros _. now exists "".
    + split; [|split; [reflexivity | discriminate]].
      rewrite has_cons, Hr, orb_false_r. now destruct (Ascii.eqb_spec c sep).
Qed.

Lemma prefix_spec : forall p s,
  String.prefix p s = true <-> exists b, s = (p ++ b)%string.
Proof.
  induction p as [|c p IH]; intros s.
  - split; [intros _; now exists s | intros _; now destruct s].
  - destruct s as [|c' s]; cbn [String.prefix String.append].
    + split; [discriminate | intros [b E]; discriminate E].
    + destruct (ascii_dec c c') as [->|N].
      * rewrite IH. split; intros [b E]; exists b; congruence.
      * split; [discriminate | intros [b E]; congruence].
Qed.

Lemma drop_append : forall p b, JS.drop (String.length p) (p ++ b) = b.
Proof. induction p as [|c p IH]; intros b; [reflexivity | exact (IH b)]. Qed.

Lemma remove_first_eq : forall p s,
  JS.remove_first p s
  = if String.prefix p s then JS.drop (String.length p) s
    else match s with
         | EmptyString => EmptyString
         | String c r => String c (JS.remove_first p r)
         end.
Proof. intros p [|c r]; reflexivity. Qed.

(** A string in which the pattern does not occur is left as it is. *)
Lemma remove_first_absent : forall p s,
  (forall a b, s <> (a ++ p ++ b)%string) -> JS.remove_first p s = s.
Proof.
  intros p. induction s as [|c r IH]; intros H; rewrite remove_first_eq.
  - destruct (String.prefix p "") eqn:P; [|reflexivity].
    apply prefix_spec in P. destruct P as [b E]. exfalso. apply (H "" b). exact E.
  - destruct (String.prefix p (String c r)) eqn:P.
    + apply prefix_spec in P. destruct P as [b E]. exfalso. apply (H "" b). exact E.
    + f_equal. apply IH. intros a b E. apply (H (String c a) b). cbn. now rewrite E.
Qed.

(** A string in which the pattern occurs loses its first occurrence. *)
Lemma remove_first_present : forall p s a b,
  s = (a ++ p ++ b)%string ->
  exists a0 b0,
    s = (a0 ++ p ++ b0)%string
    /\ JS.remove_first p s = (a0 ++ b0)%string
    /\ String.length a0 <= String.length a.
Proof.
  intros p. induction s as [|c r IH]; intros a b E; rewrite remove_first_eq.
  - destruct a; [|discriminate E]. cbn in E.
    assert (P : String.prefix p "" = true) by (apply prefix_spec; now exists b).
    rewrite P. exists "", b. cbn [String.append String.length].
    split; [exact E|]. split; [|lia].
    rewrite E. apply drop_append.
  - destruct (String.prefix p (String c r)) eqn:P.
    + apply prefix_spec in P. destruct P as [b1 E1].
      exists "", b1. cbn [String.append String.length]. split; [exact E1|]. split; [|lia].
      rewrite E1. apply drop_append.
    + destruct a as [|c' a'].
      * exfalso. assert (P' : String.prefix p (String c r) = true)
          by (apply prefix_spec; now exists b).
        congruence.
      * cbn [String.append] in E. injection E as Ec Er.
        destruct (IH a' b Er) as (a0 & b0 & E0 & R0 & L0).
        exists (String c a0), b0. cbn [String.append String.length].
        split; [now rewrite <- E0|]. split; [now rewrite R0 | lia].
Qed.

(** X18. The project that the console list of either script and the
    table of the cost-field script show for a conversation is the part of
    the conversation name after its last slash, and the project directory
    when that part is empty. The table of the pricing script shows the
    same without the first occurrence of [-Users-haleclipse-WorkSpace-],
    and throws when there is neither a part nor a directory. The label of
    a bar is the title, and for an empty title that part of the name, or
    [Unknown] when it is empty too. That part holds no slash; it is the
    whole name when the name holds none. *)
Theorem project_shown_is_the_last_segment : forall c,
  let segment := after_last "/" (conversationName c) in
  let shown := if JS.truthy_string segment then Some segment else projectName c in
  project_column c = shown
  /\ match shown with
     | Some s =>
         exists result,
           table_project c = Some result
           /\ ((forall a b, s <> a ++ "-Users-haleclipse-WorkSpace-" ++ b) -> result = s)
           /\ (forall a b, s = a ++ "-Users-haleclipse-WorkSpace-" ++ b ->
               exists a0 b0,
                 s = a0 ++ "-Users-haleclipse-WorkSpace-" ++ b0
                 /\ result = a0 ++ b0
                 /\ String.length a0 <= String.length a)
     | None => table_project c = None
     end
  /\ label_of c
     = (if JS.truthy_string (conversationTitle c) then conversationTitle c
        else if JS.truthy_string segment then segment else "Unknown")
  /\ has_char "/"%char segment = false
  /\ (has_char "/"%char (conversationName c) = false -> segment = conversationName c)
  /\ (has_char "/"%char (conversationName c) = true ->
      exists before, conversationName c = before ++ String "/" segment).
Proof.
  intros c segment shown. subst segment shown.
  assert (Hp : project_column c
               = if JS.truthy_string (after_last "/" (conversationName c))
                 then Some (after_last "/" (conversationName c)) else projectName c).
  { unfold project_column, JS.truthy_field. rewrite pop_split.
    destruct (JS.truthy_string (after_last "/" (conversationName c))); reflexivity. }
  destruct (after_last_spec "/" (conversationName c)) as (H1 & H2 & H3).
  split; [exact Hp|]. split; [|split; [|split; [exact H1 | split; [exact H2 | exact H3]]]].
  - unfold table_project. rewrite Hp.
    destruct (if JS.truthy_string (after_last "/" (conversationName c))
              then Some (after_last "/" (conversationName c)) else projectName c)
      as [s|]; [|reflexivity].
    eexists. split; [reflexivity|]. split.
    + apply remove_first_absent.
    + apply remove_first_present.
  - unfold label_of, JS.string_or, field_or, JS.truthy_field. rewrite pop_split.
    destruct (JS.truthy_string (conversationTitle c)); [reflexivity|].
    destruct (JS.truthy_string (after_last "/" (conversationName c))); reflexivity.
Qed.

End SegmentFacts.

(** ** The ranking and the order of the scan *)
Module OrderFacts.
Import Log Aggregator Spec Properties Float64.
Local Open Scope float_scope.

Lemma sorted_perm_eq : forall {A} (key : A -> Z) (l1 l2 : list A),
  (forall a b, In a l1 -> In b l1 -> key a = key b -> a = b) ->
  Permutation l1 l2 ->
  StronglySorted (fun a b => (key b <= key a)%Z) l1 ->
  StronglySorted (fun a b => (key b <= key a)%Z) l2 ->
  l1 = l2.
Proof.
  intros A key. induction l1 as [|x r1 IH]; intros l2 Hinj Hp H1 H2.
  - apply Permutation_nil in Hp. now subst.
  - destruct l2 as [|y r2]; [symmetry in Hp; now apply Permutation_nil in Hp|].
    inversion H1 as [|? ? S1 F1]; subst. inversion H2 as [|? ? S2 F2]; subst.
    rewrite Forall_forall in F1, F2.
    assert (Hx : In x (y :: r2)) by (apply (Permutation_in _ Hp); now left).
    assert (Hy : In y (x :: r1))
      by (apply (Permutation_in _ (Permutation_sym Hp)); now left).
    assert (E : x = y).
    { destruct Hx as [Hx|Hx]; [now subst|]. destruct Hy as [Hy|Hy]; [now subst|].
      apply Hinj; [now left | now right|].
      pose proof (F1 y Hy). pose proof (F2 x Hx). lia. }
    subst y. f_equal. apply IH; auto.
    + intros a b Ha Hb. apply Hinj; now right.
    + now apply Permutation_cons_inv in Hp.
Qed.

Lemma ranking_descends : forall convs,
  StronglySorted (fun a b => (rank (totalCost b) <= rank (totalCost a))%Z) (ranking convs).
Proof.
  intros convs. apply SortFacts.sort_descending with (domain := fun c => has_cost c = true).
  - apply RankingFacts.by_cost_key.
  - apply Forall_forall. intros c Hc. now apply filter_In in Hc.
Qed.

Lemma ranking_In : forall convs c,
  In c (ranking convs) <-> In c convs /\ has_cost c = true.
Proof.
  intros convs c. unfold ranking. rewrite SortFacts.sort_In. apply filter_In.
Qed.

(** X19. When no two different conversations of positive cost have the
    same cost, the ranking does not depend on the order in which the scan
    found the conversations. *)
Theorem ranking_ignores_the_scan_order : forall convs convs',
  Permutation convs convs' ->
  (forall a b, In a convs -> In b convs -> has_cost a = true -> has_cost b = true ->
               (totalCost a =? totalCost b) = true -> a = b) ->
  ranking convs = ranking convs'.
Proof.
  intros convs convs' Hp Hinj.
  apply (sorted_perm_eq (fun c => rank (totalCost c))).
  - intros a b Ha Hb E. apply ranking_In in Ha, Hb.
    destruct Ha as [Ha Ca], Hb as [Hb Cb]. apply Hinj; auto.
    unfold has_cost in Ca, Cb. rewrite Number.eqb_rank by assumption.
    now apply Z.eqb_eq.
  - unfold ranking. rewrite !SortFacts.sort_perm.
    clear Hinj. induction Hp; cbn [filter].
    + reflexivity.
    + destruct (has_cost x); [now constructor | assumption].
    + destruct (has_cost x), (has_cost y); try reflexivity; apply perm_swap.
    + now transitivity (filter has_cost l').
  - apply ranking_descends.
  - apply ranking_descends.
Qed.

(** X19 for two sessions of costs 3 and 5, found in either order. *)
Lemma ranking_ignores_the_scan_order_witness :
  let a := Fixtures.session "a" 3 1 None in
  let b := Fixtures.session "b" 5 1 None in
  ranking [a; b] = [b; a] /\ ranking [b; a] = [b; a].
Proof.
  intros a b.
  assert (H : ranking [a; b] = ranking [b; a]).
  { apply ranking_ignores_the_scan_order.
    - apply perm_swap.
    - intros x y [<-|[<-|[]]] [<-|[<-|[]]] _ _ E; try reflexivity;
        vm_compute in E; discriminate E. }
  split; [rewrite H|]; reflexivity.
Defined.

End OrderFacts.

(** ** The keys of the daily objects *)
Module KeyFacts.
Import Log Aggregator Spec Properties.
Local Open Scope string_scope.

(** The characters a date can begin with. *)
Lemma decimal_head : forall n, exists c r,
  Date.decimal n = String c r
  /\ In c ["0"; "1"; "2"; "3"; "4"; "5"; "6"; "7"; "8"; "9"; "+"; "-"]%char.
Proof.
  intros n. unfold Date.decimal, DecimalString.NilZero.string_of_uint.
  destruct (N.to_uint (Z.to_N n)); cbn [DecimalString.NilEmpty.string_of_uint];
    eexists; eexists; (split; [reflexivity|]); cbn [In]; tauto.
Qed.

Lemma pad_head : forall w n, exists c r,
  Date.pad w n = String c r
  /\ In c ["0"; "1"; "2"; "3"; "4"; "5"; "6"; "7"; "8"; "9"; "+"; "-"]%char.
Proof.
  intros w n. unfold Date.pad.
  destruct (w - String.length (Date.decimal n)) as [|k]; cbn [Date.zeros String.append].
  - apply decimal_head.
  - eexists; eexists; (split; [reflexivity|]); cbn [In]; tauto.
Qed.

Lemma toISODate_head : forall t, exists c r,
  Date.toISODate t = String c r
  /\ In c ["0"; "1"; "2"; "3"; "4"; "5"; "6"; "7"; "8"; "9"; "+"; "-"]%char.
Proof.
  intros t. unfold Date.toISODate.
  destruct (Date.civil_of_day (Date.Day t)) as [[y m] d].
  assert (H : exists c r, Date.iso_year y = String c r
              /\ In c ["0"; "1"; "2"; "3"; "4"; "5"; "6"; "7"; "8"; "9"; "+"; "-"]%char).
  { unfold Date.iso_year. destruct ((0 <=? y)%Z && (y <=? 9999)%Z); [apply pad_head|].
    destruct (y <? 0)%Z; cbn [String.append];
      eexists; eexists; (split; [reflexivity|]); cbn [In]; tauto. }
  destruct H as (c & r & E & Hc). rewrite E. cbn [String.append].
  eexists; eexists; split; [reflexivity | exact Hc].
Qed.

(** X20. The key of a daily bucket, the UTC date of a start time, is
    never a name inherited from [Object.prototype]: a lookup of a date in
    the daily objects finds an own property or nothing. *)
Theorem date_key_is_never_an_inherited_name : forall t,
  ~ In (Date.toISODate t) JS.Object_prototype
  /\ (forall (dailyCosts : list (string * Bucket)),
        JS.get dailyCosts (Date.toISODate t)
        = match JS.assoc (Date.toISODate t) dailyCosts with
          | Some b => JS.own b
          | None => JS.undefined
          end).
Proof.
  intros t. destruct (toISODate_head t) as (c & r & E & Hc).
  assert (Hn : ~ In (Date.toISODate t) JS.Object_prototype).
  { rewrite E. unfold JS.Object_prototype. cbn [In]. intros H.
    repeat (destruct H as [H|H];
            [inversion H; subst c; cbn [In] in Hc;
             repeat (destruct Hc as [Hc|Hc]; [discriminate Hc|]); contradiction|]).
    contradiction. }
  split; [exact Hn|]. intros d. unfold JS.get.
  destruct (JS.assoc (Date.toISODate t) d); [reflexivity|].
  destruct (existsb (String.eqb (Date.toISODate t)) JS.Object_prototype) eqn:Ex;
    [|reflexivity].
  exfalso. apply Hn. now apply BreakdownFacts.inherited_name.
Qed.

End KeyFacts.

(** ** The order of the daily buckets *)
Module DateOrderFacts.
Import Log Aggregator Spec Properties.
Local Open Scope float_scope.

Section Consistent.
Context {A : Type}.
Variable comparefn : A -> A -> float.
Variable domain : A -> Prop.
Hypothesis asymmetric : forall x y, domain x -> domain y ->
  (0 <? comparefn x y) = true -> (0 <? comparefn y x) = false.
Hypothesis transitive : forall x y z, domain x -> domain y -> domain z ->
  (0 <? comparefn x y) = false -> (0 <? comparefn y z) = false ->
  (0 <? comparefn x z) = false.

Lemma insert_sorted : forall x l,
  domain x -> Forall domain l ->
  StronglySorted (fun a b => (0 <? comparefn a b) = false) l ->
  StronglySorted (fun a b => (0 <? comparefn a b) = false) (JS.insert comparefn x l).
Proof.
  intros x l Dx. induction l as [|y r IH]; intros Dl Hs; cbn [JS.insert].
  - repeat constructor.
  - inversion Dl as [|? ? Dy Dr]; subst. inversion Hs as [|? ? Hr Hy]; subst.
    rewrite Forall_forall in Hy, Dr.
    destruct (0 <? comparefn x y) eqn:C.
    + constructor; [apply IH; [now apply Forall_forall | exact Hr]|].
      apply Forall_forall. intros z Hz.
      apply (Permutation_in _ (SortFacts.insert_perm comparefn x r)) in Hz.
      destruct Hz as [<-|Hz]; [now apply asymmetric | now apply Hy].
    + constructor; [exact Hs|]. constructor; [exact C|].
      apply Forall_forall. intros z Hz. apply (transitive x y z); auto.
Qed.

Lemma sort_sorted : forall l,
  Forall domain l ->
  StronglySorted (fun a b => (0 <? comparefn a b) = false) (JS.sort comparefn l).
Proof.
  induction l as [|x l IH]; intros Dl; cbn [JS.sort fold_right]; [constructor|].
  inversion Dl as [|? ? Dx Dl']; subst. fold (JS.sort comparefn l).
  apply insert_sorted; [exact Dx | | now apply IH].
  apply Forall_forall. intros z Hz. apply (proj1 (SortFacts.sort_In comparefn z l)) in Hz.
  rewrite Forall_forall in Dl'. auto.
Qed.
End Consistent.

Lemma bucket_date_is_a_day : forall localeCompare convs buckets b,
  aggregateDailyCosts localeCompare convs = Some buckets ->
  In b buckets -> In (date b) (days convs).
Proof.
  intros lc convs buckets b Ha Hb.
  destruct (AggregatorFacts.bucket_contents lc convs buckets b Ha Hb) as (Hcs & Hne & _).
  destruct (conversations b) as [|c l] eqn:E; [congruence|].
  assert (Hc : In c (filter (on_day (date b)) convs)) by (rewrite <- Hcs; now left).
  apply filter_In in Hc. destruct Hc as [Hin Hon].
  unfold on_day in Hon. apply andb_true_iff in Hon. destruct Hon as [Hcost Hd].
  unfold days. apply in_flat_map. exists c. split; [exact Hin|].
  rewrite Hcost. destruct (startTime c) as [[t|]|]; try discriminate Hd.
  apply String.eqb_eq in Hd. now left.
Qed.

(** X21. When the collation of the host orders the dates of the
    collection consistently (of two dates at most one comes after the
    other, and not coming after is transitive), the buckets the daily
    aggregation returns come in ascending order: none is followed, at any
    distance, by a bucket whose date the collation puts before its own. *)
Theorem buckets_ascend_by_date : forall localeCompare convs,
  (forall x y, In x (days convs) -> In y (days convs) ->
     (0 <? localeCompare x y) = true -> (0 <? localeCompare y x) = false) ->
  (forall x y z, In x (days convs) -> In y (days convs) -> In z (days convs) ->
     (0 <? localeCompare x y) = false -> (0 <? localeCompare y z) = false ->
     (0 <? localeCompare x z) = false) ->
  match aggregateDailyCosts localeCompare convs with
  | Some buckets =>
      StronglySorted (fun a b => (0 <? localeCompare (date a) (date b)) = false) buckets
  | None => existsb undatable convs = true
  end.
Proof.
  intros lc convs Hasym Htrans.
  destruct (aggregateDailyCosts lc convs) as [buckets|] eqn:E;
    [|now apply ThrowFacts.aggregate_throws in E].
  destruct (AggregatorFacts.aggregate_inv lc convs buckets E) as (d & Hd & Hs).
  rewrite Hs.
  apply (sort_sorted (fun a b => lc (date a) (date b))
                     (fun b => In (date b) (days convs))).
  - intros x y Dx Dy. now apply Hasym.
  - intros x y z Dx Dy Dz. now apply Htrans.
  - apply Forall_forall. intros b Hb. apply (bucket_date_is_a_day lc convs buckets); [exact E|].
    rewrite Hs. now apply SortFacts.sort_In.
Qed.

(** X21 for two sessions found in the reverse order of their dates, on a
    host that compares strings by their code units. *)
Lemma buckets_ascend_by_date_witness :
  let convs := [Fixtures.session "a" 3 1 (Some Fixtures.early_november);
                Fixtures.session "b" 5 1 (Some Fixtures.late_october)] in
  option_map (map date) (aggregateDailyCosts Fixtures.code_unit_compare convs)
  = Some ["2025-10-26"; "2025-11-03"]%string
  /\ match aggregateDailyCosts Fixtures.code_unit_compare convs with
     | Some buckets =>
         StronglySorted
           (fun a b => (0 <? Fixtures.code_unit_compare (date a) (date b)) = false)
           buckets
     | None => False
     end.
Proof.
  intros convs. split; [vm_compute; reflexivity|].
  assert (H := buckets_ascend_by_date Fixtures.code_unit_compare convs).
  destruct (aggregateDailyCosts Fixtures.code_unit_compare convs) as [buckets|] eqn:E;
    [|vm_compute in E; discriminate E].
  apply H.
  - intros x y Hx Hy. vm_compute in Hx, Hy.
    destruct Hx as [<-|[<-|[]]], Hy as [<-|[<-|[]]]; vm_compute; congruence.
  - intros x y z Hx Hy Hz. vm_compute in Hx, Hy, Hz.
    destruct Hx as [<-|[<-|[]]], Hy as [<-|[<-|[]]], Hz as [<-|[<-|[]]];
      vm_compute; congruence.
Defined.

End DateOrderFacts.
